(** * ClaimMate: the claim workspace engine of [app.py] and its legacy
      symptom mappers, embedded in Rocq.

    Python values are modelled as the interpreter has them: a [str] is a
    sequence of Unicode code points, [bytes] a sequence of octets, a decoded
    JSON document a tree of [None], [bool], [int], [float], [str], [list] and
    [dict] values, dictionaries being finite maps keyed by [str].  A function
    that can let an exception escape returns [option]; [None] stands for the
    escaping exception. *)

From Stdlib Require Import ZArith NArith Strings.Ascii Strings.String Strings.Byte.
From stdpp Require Import base option list gmap pretty.

Set Warnings "-register-all,-abstract-large-number".

(** ** Python strings *)

Abbreviation str := (list N).

(** [u "..."] is the Python literal with the same characters. *)
Definition u (s : string) : str := map N_of_ascii (list_ascii_of_string s).

Arguments u : simpl never.

Definition nl : str := [10%N].      (* the line feed *)
Definition dquote : str := [34%N].  (* the double quote *)

(** [sep.join(parts)] for parts that are all [str]. *)
Fixpoint join (sep : str) (parts : list str) : str :=
  match parts with
  | [] => []
  | [p] => p
  | p :: rest => p ++ sep ++ join sep rest
  end.

(** [s[:n]]. *)
Definition slice_to (n : nat) (s : str) : str := take n s.

(** [s.startswith(prefix)]. *)
Fixpoint startswith (prefix s : str) : bool :=
  match prefix, s with
  | [], _ => true
  | _ :: _, [] => false
  | p :: prefix', c :: s' => (p =? c)%N && startswith prefix' s'
  end.

(** [needle in s] on strings: substring search. *)
Fixpoint contains (needle s : str) : bool :=
  startswith needle s
  || match s with
     | [] => false
     | _ :: s' => contains needle s'
     end.

(** [c.isspace()]: the code points that [str.strip()] removes. *)
Definition is_space (c : N) : bool :=
  ((9 <=? c) && (c <=? 13) || (28 <=? c) && (c <=? 32)
   || (c =? 133) || (c =? 160) || (c =? 5760)
   || (8192 <=? c) && (c <=? 8202)
   || (c =? 8232) || (c =? 8233) || (c =? 8239) || (c =? 8287)
   || (c =? 12288))%N.

Fixpoint lstrip (s : str) : str :=
  match s with
  | [] => []
  | c :: s' => if is_space c then lstrip s' else s
  end.

Definition rstrip (s : str) : str := reverse (lstrip (reverse s)).

(** [s.strip()]. *)
Definition strip (s : str) : str := rstrip (lstrip s).

(** [s.split(sep)] for a one-character separator: empty fields are kept and
    the result is never empty. *)
Fixpoint split (sep : N) (s : str) : list str :=
  match s with
  | [] => [[]]
  | c :: s' =>
      if (c =? sep)%N then [] :: split sep s'
      else match split sep s' with
           | [] => [[c]]
           | field :: fields => (c :: field) :: fields
           end
  end.

(** The line boundaries of [str.splitlines()]. *)
Definition is_linebreak (c : N) : bool :=
  ((10 <=? c) && (c <=? 13) || (28 <=? c) && (c <=? 30)
   || (c =? 133) || (c =? 8232) || (c =? 8233))%N.

(** [s.splitlines()]: [cur] is the line being read; a carriage return
    followed by a line feed is one boundary; a trailing boundary opens no
    further line. *)
Fixpoint splitlines_from (cur s : str) : list str :=
  match s with
  | [] => if bool_decide (cur = []) then [] else [cur]
  | c :: s' =>
      if is_linebreak c then
        cur :: match s' with
               | c' :: s'' =>
                   if (c =? 13)%N && (c' =? 10)%N then splitlines_from [] s''
                   else splitlines_from [] s'
               | [] => splitlines_from [] s'
               end
      else splitlines_from (cur ++ [c]) s'
  end.

Definition splitlines (s : str) : list str := splitlines_from [] s.

(** [str(n)] for a non-negative machine-sized integer such as a length. *)
Definition decimal (n : nat) : str := u (pretty n).

(** ** Decoded JSON values *)

Inductive json : Type :=
  | JNull
  | JBool (b : bool)
  | JInt (z : Z)
  | JFloat (bits : Z)       (* the IEEE-754 binary64 pattern of the float *)
  | JStr (s : str)
  | JArr (items : list json)
  | JObj (fields : gmap str json).

(** Truth value of an object, as [if x:] and [x or y] test it. *)
Definition truthy (v : json) : bool :=
  match v with
  | JNull => false
  | JBool b => b
  | JInt z => negb (z =? 0)%Z
  | JFloat bits => negb (Z.land bits (2 ^ 63 - 1) =? 0)%Z
  | JStr s => negb (bool_decide (s = []))
  | JArr items => negb (bool_decide (items = []))
  | JObj fields => negb (bool_decide (fields = ∅))
  end.

(** [d.get(key)]: [None] of Python (here [JNull]) for a missing key; only a
    dictionary has the method, every other value raises [AttributeError]. *)
Definition get (d : json) (key : str) : option json :=
  match d with
  | JObj fields => Some (default JNull (fields !! key))
  | _ => None
  end.

(** [d.get(key, dflt)]. *)
Definition get_or (d : json) (key : str) (dflt : json) : option json :=
  match d with
  | JObj fields => Some (default dflt (fields !! key))
  | _ => None
  end.

(** [x or y]. *)
Definition por (x y : json) : json := if truthy x then x else y.

(** The objects a [for] loop over [v] visits: the items of a list, the
    characters of a string, the keys of a dictionary (every loop of the
    program calls [.get] on what it visits, which a key or a character does
    not have, so the order of the keys is immaterial); the other values are
    not iterable and raise [TypeError]. *)
Definition iterate (v : json) : option (list json) :=
  match v with
  | JArr items => Some items
  | JStr s => Some ((λ c, JStr [c]) <$> s)
  | JObj fields => Some (JStr <$> (map_to_list fields).*1)
  | _ => None
  end.

(** [sep.join(lines)] on a Python list: every item must be a [str],
    [TypeError] otherwise. *)
Definition as_str (v : json) : option str :=
  match v with
  | JStr s => Some s
  | _ => None
  end.

Definition join_values (sep : str) (lines : list json) : option str :=
  join sep <$> mapM as_str lines.

(** ** The workspace aggregate: [load_app_data] *)

Definition defaults : list (str * json) :=
  [ (u "veteran_profile", JObj ∅);
    (u "issues", JArr []);
    (u "symptom_mappings", JArr []);
    (u "symptom_note", JStr []);
    (u "claims", JArr []);
    (u "notes", JStr []);
    (u "documents", JArr []);
    (u "evidence_summary", JStr []) ].

(** The back-fill loop of [load_app_data] (lines 36-39):
    [for k, v in defaults.items(): if k not in data: data[k] = v]. *)
Definition fill_default (data : gmap str json) (kv : str * json) : gmap str json :=
  match data !! kv.1 with
  | Some _ => data
  | None => <[kv.1 := kv.2]> data
  end.

Definition merge_defaults (data : gmap str json) : gmap str json :=
  foldl fill_default data defaults.

(** The defaults dictionary, as a finite map. *)
Definition defaults_map : gmap str json := list_to_map defaults.

(** ** [bytes.decode("utf-8", errors=...)]

    The decoder of the Python runtime, as CPython implements it: a malformed
    sequence is reported with the span of its maximal well-formed start, a
    sequence cut short by the end of the input with everything that is left.
    The error handler decides what a reported span becomes. *)

Inductive error_handler := Strict | Ignore | Replace.

Inductive utf8_step_result :=
  | Decoded (c : N) (width : nat)
  | Invalid (span : nat)
  | Truncated.

Definition is_continuation (b : N) : bool := ((128 <=? b) && (b <? 192))%N.

Definition utf8_step (bs : list N) : utf8_step_result :=
  match bs with
  | [] => Truncated
  | b0 :: rest =>
      if (b0 <? 128)%N then Decoded b0 1
      else if (b0 <? 194)%N then Invalid 1
      else if (b0 <? 224)%N then
        match rest with
        | [] => Truncated
        | b1 :: _ =>
            if is_continuation b1
            then Decoded (N.land b0 31 * 64 + N.land b1 63) 2
            else Invalid 1
        end
      else if (b0 <? 240)%N then
        match rest with
        | [] => Truncated
        | b1 :: rest1 =>
            if negb (is_continuation b1)
               || (if (b1 <? 160)%N then (b0 =? 224)%N else (b0 =? 237)%N)
            then Invalid 1
            else match rest1 with
                 | [] => Truncated
                 | b2 :: _ =>
                     if is_continuation b2
                     then Decoded (N.land b0 15 * 4096 + N.land b1 63 * 64
                                   + N.land b2 63) 3
                     else Invalid 2
                 end
        end
      else if (b0 <? 245)%N then
        match rest with
        | [] => Truncated
        | b1 :: rest1 =>
            if negb (is_continuation b1)
               || (if (b1 <? 144)%N then (b0 =? 240)%N else (b0 =? 244)%N)
            then Invalid 1
            else match rest1 with
                 | [] => Truncated
                 | b2 :: rest2 =>
                     if negb (is_continuation b2) then Invalid 2
                     else match rest2 with
                          | [] => Truncated
                          | b3 :: _ =>
                              if is_continuation b3
                              then Decoded (N.land b0 7 * 262144
                                            + N.land b1 63 * 4096
                                            + N.land b2 63 * 64
                                            + N.land b3 63) 4
                              else Invalid 3
                          end
                 end
        end
      else Invalid 1
  end.

Arguments utf8_step : simpl never.

(** What the handler puts in place of a reported span; [None] is the
    [UnicodeDecodeError] of the strict handler. *)
Definition handle_error (errors : error_handler) : option str :=
  match errors with
  | Strict => None
  | Ignore => Some []
  | Replace => Some [65533%N]
  end.

Fixpoint utf8_loop (fuel : nat) (errors : error_handler) (bs : list N)
  : option str :=
  match bs with
  | [] => Some []
  | _ :: _ =>
      match fuel with
      | O => None
      | S fuel' =>
          match utf8_step bs with
          | Decoded c width =>
              (c ::.) <$> utf8_loop fuel' errors (drop width bs)
          | Invalid span =>
              sub ← handle_error errors;
              (sub ++.) <$> utf8_loop fuel' errors (drop span bs)
          | Truncated => handle_error errors
          end
      end
  end.

Definition decode_utf8 (errors : error_handler) (content : list byte)
  : option str :=
  utf8_loop (length content) errors (Byte.to_N <$> content).

(** The decoder's reading of the input, handler apart: the decoded code
    points in order, with [None] where a span is reported. *)
Fixpoint utf8_marks (fuel : nat) (bs : list N) : option (list (option N)) :=
  match bs with
  | [] => Some []
  | _ :: _ =>
      match fuel with
      | O => None
      | S fuel' =>
          match utf8_step bs with
          | Decoded c width =>
              (Some c ::.) <$> utf8_marks fuel' (drop width bs)
          | Invalid span => (None ::.) <$> utf8_marks fuel' (drop span bs)
          | Truncated => Some [None]
          end
      end
  end.

(** What a handler makes of a reading. *)
Definition resolve (errors : error_handler) (marks : list (option N))
  : option str :=
  match errors with
  | Strict => mapM id marks
  | Ignore => Some (omap id marks)
  | Replace => Some (default 65533%N <$> marks)
  end.

(** ** Messages shown to the user *)

Inductive ui_event :=
  | StError (message : str)
  | StWarning (message : str)
  | StTextArea (label value : str).

(** ** The generation gateway and the libraries the extractor calls *)

Record request := {
  req_model : str;
  req_temperature : N;              (* in hundredths: [0.25] is [25] *)
  req_max_tokens : option N;
  req_system : str;
  req_user : str;
}.

(** What [client.chat.completions.create(...)] followed by
    [.choices[0].message.content] gives: an exception with its message, or
    the content, which may be [None]. *)
Inductive reply :=
  | Failed (error : str)
  | Completed (content : option str).

Section Engine.

(** [str(v)] of the runtime for the values that are neither [None], a
    [bool] nor a [str]. *)
Variable py_repr : json → str.

(** [json.loads]; [None] is the exception it raises. *)
Variable json_loads : str → option json.

(** The generation gateway. *)
Variable complete : request → reply.

(** [PdfReader(...).pages] with [extract_text()] of every page, and
    [Document(...).paragraphs] with the text of every paragraph; [inl] is
    the message of the exception raised on the way. *)
Variable pdf_pages : list byte → str + list (option str).
Variable docx_paragraphs : list byte → str + list str.

(** [f"{v}"]. *)
Definition fstr (v : json) : str :=
  match v with
  | JNull => u "None"
  | JBool true => u "True"
  | JBool false => u "False"
  | JStr s => s
  | _ => py_repr v
  end.

(** *** [call_gpt] *)

Definition call_gpt (system_prompt user_prompt : str) (model : str)
    (temperature : N) : str * list ui_event :=
  match complete {| req_model := model; req_temperature := temperature;
                    req_max_tokens := None; req_system := system_prompt;
                    req_user := user_prompt |} with
  | Completed (Some content) => (strip content, [])
  | Completed None =>
      ([], [StError (u "Model error: "
                       ++ u "'NoneType' object has no attribute 'strip'")])
  | Failed e => ([], [StError (u "Model error: " ++ e)])
  end.

Definition default_model : str := u "gpt-4o-mini".

(** *** [extract_text_from_bytes] *)

Definition docx_mime : str :=
  u "application/vnd.openxmlformats-officedocument.wordprocessingml.document".

Definition extract_text_from_bytes (content : list byte) (mime : option str)
    (name : str) : str * list ui_event :=
  let mime := default [] mime in
  if startswith (u "text/") mime then
    (default [] (decode_utf8 Ignore content), [])
  else if bool_decide (mime = u "application/pdf") then
    match pdf_pages content with
    | inr pages => (join nl (default [] <$> pages), [])
    | inl e =>
        ([], [StWarning (u "PDF reading failed for " ++ name ++ u ": " ++ e)])
    end
  else if bool_decide (mime = docx_mime) then
    match docx_paragraphs content with
    | inr paras => (join nl paras, [])
    | inl e =>
        ([], [StWarning (u "DOCX reading failed for " ++ name ++ u ": " ++ e)])
    end
  else (default [] (decode_utf8 Ignore content), []).

(** *** [load_app_data]

    [file] is the text of [claimmate_data.json], or [None] when the file is
    not there or cannot be read.  [json.load] may give any value: on a
    dictionary the loop back-fills; on a list or a string [k not in data] is
    a search, and the assignment that follows a failed search raises
    [TypeError]; on anything else the search itself raises. *)

Definition has_item (k : str) (items : list json) : bool :=
  existsb (λ v, match v with JStr s => bool_decide (s = k) | _ => false end)
          items.

Definition load_app_data (file : option str) : option json :=
  let data := match file with
              | Some text => default (JObj ∅) (json_loads text)
              | None => JObj ∅
              end in
  match data with
  | JObj fields => Some (JObj (merge_defaults fields))
  | JArr items =>
      if forallb (λ kv : str * json, has_item kv.1 items) defaults
      then Some data else None
  | JStr s =>
      if forallb (λ kv : str * json, contains kv.1 s) defaults
      then Some data else None
  | _ => None
  end.

(** *** [map_symptoms] *)

Definition mapping_keys : list str :=
  [u "condition"; u "icd10"; u "body_system"; u "va_rating_hint"; u "rationale"].

Definition map_symptoms_system_prompt : str :=
  u "You support veterans building VA disability claims. "
  ++ u "Return JSON only. Format: "
  ++ u "[{"
  ++ join (u ",") ((λ k, dquote ++ k ++ dquote ++ u ":" ++ dquote ++ dquote)
                   <$> mapping_keys)
  ++ u "}] "
  ++ u "Do not add commentary outside JSON.".

Definition map_symptoms_user_prompt (symptom_text : str) : str :=
  u "Symptoms and history from the veteran:" ++ nl
  ++ symptom_text ++ nl ++ nl
  ++ u "Suggest likely diagnostic labels with ICD-10 codes and VA rating hints. "
  ++ u "Include Gulf War environmental exposure links when that fits.".

(** The decoding step of [map_symptoms] (lines 133-139). *)
Definition parse_mappings (raw : str) : list json :=
  match json_loads raw with
  | Some (JArr data) => data
  | _ => []
  end.

(** Returns [(parsed, raw)] and what [call_gpt] showed. *)
Definition map_symptoms (symptom_text : str)
  : list json * str * list ui_event :=
  let '(raw, shown) :=
    call_gpt map_symptoms_system_prompt
             (map_symptoms_user_prompt symptom_text) default_model 20 in
  (parse_mappings raw, raw, shown).

(** *** [build_full_claim_packet] *)

Definition lookup_or (app_data : gmap str json) (key : str) (dflt : json)
  : json :=
  default dflt (app_data !! key).

(** [if prof.get(key): lines.append(f"{label}{prof.get(key)}")]. *)
Definition profile_line (prof : json) (key label : str)
  : option (list json) :=
  v ← get prof key;
  Some (if truthy v then [JStr (label ++ fstr v)] else []).

Definition profile_lines (prof : json) : option (list json) :=
  l1 ← profile_line prof (u "full_name") (u "Name: ");
  l2 ← profile_line prof (u "branch") (u "Branch: ");
  l3 ← profile_line prof (u "service_dates") (u "Service dates: ");
  l4 ← profile_line prof (u "deployment_locations") (u "Deployments: ");
  l5 ← profile_line prof (u "mos_duties") (u "Duties / MOS: ");
  l6 ← profile_line prof (u "other_notes") (u "Additional notes: ");
  Some (l1 ++ l2 ++ l3 ++ l4 ++ l5 ++ l6).

(** [' - ' + detail]: only two strings can be added. *)
Definition detail_suffix (detail : json) : option str :=
  if truthy detail then
    match detail with
    | JStr d => Some (u " - " ++ d)
    | _ => None
    end
  else Some [].

Definition issue_line (i : json) : option (list json) :=
  label ← get i (u "label");
  if truthy label then
    details ← get i (u "details");
    suffix ← detail_suffix (por details (JStr []));
    Some [JStr (u "- " ++ fstr label ++ u " " ++ suffix)]
  else Some [].

Definition mapping_line (m : json) : option (list json) :=
  condition ← get m (u "condition");
  icd10 ← get m (u "icd10");
  body_system ← get m (u "body_system");
  va_rating_hint ← get m (u "va_rating_hint");
  selected ← get_or m (u "selected_for_claim") (JBool false);
  Some [JStr (u "- " ++ fstr condition
              ++ u " | ICD-10 " ++ fstr icd10
              ++ u " | system: " ++ fstr body_system ++ u " "
              ++ u "| rating hint: " ++ fstr va_rating_hint ++ u " "
              ++ u "| selected: " ++ fstr selected)].

Definition claim_lines (c : json) : option (list json) :=
  title ← get c (u "title");
  created_at ← get c (u "created_at");
  body ← get c (u "body");
  Some [JStr [];
        JStr (u "Title: " ++ fstr title);
        JStr (u "Created: " ++ fstr created_at);
        JStr [];
        por body (JStr []);
        JStr []].

(** The body of a [for] loop that appends to [lines]. *)
Definition for_lines (body : json → option (list json)) (v : json)
  : option (list json) :=
  items ← iterate v;
  mjoin <$> mapM body items.

Definition no_summary : str := u "[No summary prepared yet]".

(** The list [lines] when [build_full_claim_packet] reaches its [return];
    [now] is [datetime.utcnow().isoformat()]. *)
Definition packet_lines (now : str) (app_data : gmap str json)
  : option (list json) :=
  let prof := lookup_or app_data (u "veteran_profile") (JObj ∅) in
  let issues := lookup_or app_data (u "issues") (JArr []) in
  let symptom_mappings := lookup_or app_data (u "symptom_mappings") (JArr []) in
  let claims := lookup_or app_data (u "claims") (JArr []) in
  let evidence_summary := lookup_or app_data (u "evidence_summary") (JStr []) in
  prof_part ← profile_lines prof;
  issue_part ← for_lines issue_line issues;
  mapping_part ← for_lines mapping_line symptom_mappings;
  claim_part ← for_lines claim_lines claims;
  Some ([JStr (u "VA ClaimMate Claim Packet");
         JStr (u "Generated: " ++ now ++ u "Z");
         JStr []]
        ++ [JStr (u "Veteran profile"); JStr (u "----------------")]
        ++ prof_part ++ [JStr []]
        ++ [JStr (u "Claimed issues"); JStr (u "-------------")]
        ++ issue_part ++ [JStr []]
        ++ [JStr (u "Symptom to condition mappings");
            JStr (u "-----------------------------")]
        ++ mapping_part ++ [JStr []]
        ++ [JStr (u "Evidence summary"); JStr (u "----------------");
            por evidence_summary (JStr no_summary); JStr []]
        ++ [JStr (u "Saved personal statements");
            JStr (u "-------------------------")]
        ++ claim_part).

Definition build_full_claim_packet (now : str) (app_data : gmap str json)
  : option str :=
  lines ← packet_lines now app_data;
  join_values nl lines.

(** *** [main], tab 1: the issues list (lines 381-386) *)

(** [{"label": line, "details": ""}]. *)
Definition issue_entry (line : str) : json :=
  JObj (<[u "label" := JStr line]> (<[u "details" := JStr []]> ∅)).

Definition add_issue (new_issues : list json) (line : str) : list json :=
  let line := strip line in
  if bool_decide (line = []) then new_issues
  else new_issues ++ [issue_entry line].

Definition new_issues (issues_text : str) : list json :=
  foldl add_issue [] (splitlines issues_text).

Definition set_issues (issues_text : str) (app_data : gmap str json)
  : gmap str json :=
  <[u "issues" := JArr (new_issues issues_text)]> app_data.

(** *** [main], tab 2: uploads (lines 401-423) *)

Record upload := {
  up_content : list byte;      (* [up.getvalue()] *)
  up_type : option str;        (* [up.type] *)
  up_name : str;               (* [up.name] *)
}.

(** [f"{name}:{size}"]. *)
Definition doc_id (up : upload) : str :=
  up_name up ++ u ":" ++ decimal (length (up_content up)).

Definition mime_value (mime : option str) : json :=
  match mime with
  | Some m => JStr m
  | None => JNull
  end.

(** The dictionary stored for an upload; [now] is
    [datetime.utcnow().isoformat()] and [text] the extracted text. *)
Definition doc_entry (up : upload) (now text : str) : json :=
  JObj (<[u "id" := JStr (doc_id up)]>
       (<[u "name" := JStr (up_name up)]>
       (<[u "mime" := mime_value (up_type up)]>
       (<[u "size" := JInt (Z.of_nat (length (up_content up)))]>
       (<[u "uploaded_at" := JStr (now ++ u "Z")]>
       (<[u "text" := JStr text]>
       (<[u "notes" := JStr []]> ∅))))))).

(** [doc_id in existing_ids]: a [str] equals only an equal [str]. *)
Definition is_id (id : str) (v : json) : bool :=
  match v with
  | JStr s => bool_decide (s = id)
  | _ => false
  end.

(** One turn of the loop over [uploads] on the list [documents]. *)
Definition store_upload (documents : list json) (up : upload) (now : str)
  : option (list json * list ui_event) :=
  existing_ids ← mapM (λ d, get d (u "id")) documents;
  if existsb (is_id (doc_id up)) existing_ids then Some (documents, [])
  else
    let '(text, shown) :=
      extract_text_from_bytes (up_content up) (up_type up) (up_name up) in
    Some (documents ++ [doc_entry up now text], shown).

(** The loop itself, on the aggregate; every upload comes with the clock
    reading of its turn.  [app_data["documents"]] must be there and be a
    list: nothing else can be both searched and appended to. *)
Fixpoint store_uploads (app_data : gmap str json)
    (uploads : list (upload * str))
  : option (gmap str json * list ui_event) :=
  match uploads with
  | [] => Some (app_data, [])
  | (up, now) :: uploads' =>
      match app_data !! u "documents" with
      | Some (JArr documents) =>
          '(documents', shown) ← store_upload documents up now;
          '(app_data', shown') ←
            store_uploads (<[u "documents" := JArr documents']> app_data)
                          uploads';
          Some (app_data', shown ++ shown')
      | _ => None
      end
  end.

(** *** [main], tab 2: the evidence summary (lines 450-485) *)

(** What a document adds to [joined_texts]. *)
Definition document_contribution (d : json) : option (list str) :=
  text ← get d (u "text");
  let text := por text (JStr []) in
  if truthy text then
    name ← get d (u "name");
    Some [fstr name ++ u ":" ++ nl ++ fstr text]
  else Some [].

Definition joined_texts (documents : json) : option (list str) :=
  items ← iterate documents;
  mjoin <$> mapM document_contribution items.

Definition big_blob (joined : list str) : str :=
  slice_to 12000 (join (nl ++ nl) joined).

Definition summary_system_prompt : str :=
  u "You summarize medical records for VA disability claims. "
  ++ u "Write a structured summary covering diagnoses, key findings, "
  ++ u "functional limitations, and any references to service or exposures.".

Definition summary_user_prompt (blob : str) : str :=
  u "Summarize the following records for use in a VA claim. "
  ++ u "Do not give legal advice." ++ nl ++ nl
  ++ blob.

(** The handler of the button "Build or refresh evidence summary":
    the aggregate, [current_summary] and what was shown. *)
Definition build_evidence_summary (app_data : gmap str json)
  : option (gmap str json * json * list ui_event) :=
  let current_summary := lookup_or app_data (u "evidence_summary") (JStr []) in
  documents ← app_data !! u "documents";
  joined ← joined_texts documents;
  let blob := big_blob joined in
  if bool_decide (blob = []) then Some (app_data, current_summary, [])
  else
    let '(summary, shown) :=
      call_gpt summary_system_prompt (summary_user_prompt blob)
               default_model 25 in
    Some (<[u "evidence_summary" := JStr summary]> app_data,
          JStr summary, shown).

(** Line 485: the aggregate takes what the editable text area returns. *)
Definition set_evidence_summary (evidence_summary_text : str)
    (app_data : gmap str json) : gmap str json :=
  <[u "evidence_summary" := JStr evidence_summary_text]> app_data.

(** *** [main], tab 3: the symptom mapper (lines 494-508) *)

Definition set_symptom_note (symptom_note : str) (app_data : gmap str json)
  : gmap str json :=
  <[u "symptom_note" := JStr symptom_note]> app_data.

(** The handler of the button "Analyze symptoms and suggest conditions". *)
Definition analyze_symptoms (symptom_note : str) (app_data : gmap str json)
  : gmap str json * list ui_event :=
  if bool_decide (strip symptom_note = []) then (app_data, [])
  else
    let '(mappings, raw, shown) := map_symptoms symptom_note in
    if bool_decide (mappings = []) then
      (app_data,
       shown ++ [StWarning (u "No JSON parsed from model response. Raw output shown below.");
                 StTextArea (u "Raw model output") raw])
    else (<[u "symptom_mappings" := JArr mappings]> app_data, shown).

(** *** Equality and membership of values *)

(** [v == w] of the runtime for two values neither of which is a [str]; a
    [str] equals an equal [str] and nothing else. *)
Variable py_eq : json → json → bool.

Definition equal (v w : json) : bool :=
  match v, w with
  | JStr a, JStr b => bool_decide (a = b)
  | JStr _, _ => false
  | _, JStr _ => false
  | _, _ => py_eq v w
  end.

(** [v in items] for a list [items]. *)
Definition member (v : json) (items : list json) : bool :=
  existsb (equal v) items.

(** [v[:n]]: strings and lists can be sliced, the other values raise
    [TypeError]. *)
Definition slice_value (n : nat) (v : json) : option json :=
  match v with
  | JStr s => Some (JStr (take n s))
  | JArr items => Some (JArr (take n items))
  | _ => None
  end.

(** A comprehension or loop over [v] that collects what [body] gives. *)
Definition for_each {A : Type} (body : json → option (list A)) (v : json)
  : option (list A) :=
  items ← iterate v;
  mjoin <$> mapM body items.

(** *** [save_app_data]

    [write_json data] is [open(DATA_FILE, "w")] followed by
    [json.dump(data, f, indent=2)]: [inl text] when the whole document was
    written, [inr (partial, e)] when an exception with message [e] was raised,
    [partial] being what the file holds by then ([None]: it could not be opened
    and is as it was). *)
Variable write_json : json → str + option str * str.


(** *** [build_personal_statement] *)

(** [if prof.get(key): lines.append(f"{label}{prof.get(key)}")], on a list
    of strings. *)
Definition labelled (prof : json) (key label : str) : option (list str) :=
  v ← get prof key;
  Some (if truthy v then [label ++ fstr v] else []).

Definition statement_profile_lines (prof : json) : option (list str) :=
  l1 ← labelled prof (u "full_name") (u "Name: ");
  l2 ← labelled prof (u "branch") (u "Branch: ");
  l3 ← labelled prof (u "service_dates") (u "Service dates: ");
  l4 ← labelled prof (u "deployment_locations") (u "Deployments: ");
  l5 ← labelled prof (u "mos_duties") (u "Duties: ");
  l6 ← labelled prof (u "other_notes") (u "Other context: ");
  Some (l1 ++ l2 ++ l3 ++ l4 ++ l5 ++ l6).

(** [[f"- {i.get('label')}" for i in issues if i.get("label")]]. *)
Definition issue_bullet (i : json) : option (list str) :=
  label ← get i (u "label");
  Some (if truthy label then [u "- " ++ fstr label] else []).

(** One turn of the loop over the mappings: skipped when a focus is given
    and the condition is not in it. *)
Definition focus_line (focus_conditions : list json) (m : json)
  : option (list str) :=
  condition ← get m (u "condition");
  if negb (bool_decide (focus_conditions = []))
     && negb (member condition focus_conditions)
  then Some []
  else
    icd10 ← get m (u "icd10");
    body_system ← get m (u "body_system");
    va_rating_hint ← get m (u "va_rating_hint");
    Some [u "- " ++ fstr condition
          ++ u " (ICD-10 " ++ fstr icd10
          ++ u ", system: " ++ fstr body_system ++ u ") "
          ++ u "Hint: " ++ fstr va_rating_hint].

Definition statement_system_prompt : str :=
  u "You write VA lay statements and personal impact statements for disability claims. "
  ++ u "Use first person from the veteran. "
  ++ u "Tone: plain language, honest, detailed, no legal jargon. "
  ++ u "Target length: 600 to 900 words. "
  ++ u "Cover onset, progression, daily impact, work impact, safety concerns, sleep, mental health, flare patterns, "
  ++ u "and connection to service. "
  ++ u "Reference medical and symptom context when helpful, without quoting records line by line.".

Definition statement_user_prompt (app_data : gmap str json)
    (claim_title : str) (focus_conditions : list json) : option str :=
  let prof := lookup_or app_data (u "veteran_profile") (JObj ∅) in
  let issues := lookup_or app_data (u "issues") (JArr []) in
  let symptom_mappings := lookup_or app_data (u "symptom_mappings") (JArr []) in
  let evidence_summary := lookup_or app_data (u "evidence_summary") (JStr []) in
  prof_lines ← statement_profile_lines prof;
  issue_lines ← for_each issue_bullet issues;
  mapping_lines ← for_each (focus_line focus_conditions) symptom_mappings;
  Some (u "Claim focus title:" ++ nl ++ claim_title ++ nl ++ nl
        ++ u "Veteran background:" ++ nl ++ join nl prof_lines ++ nl ++ nl
        ++ u "High level claimed issues:" ++ nl ++ join nl issue_lines
        ++ nl ++ nl
        ++ u "Selected conditions and VA rating hints:" ++ nl
        ++ join nl mapping_lines ++ nl ++ nl
        ++ u "Evidence summary prepared from records:" ++ nl
        ++ fstr evidence_summary ++ nl ++ nl
        ++ u "Write a lay statement for this claim. "
        ++ u "Use first person, talk through a typical day, and explain functional impact. "
        ++ u "End with a short paragraph thanking the rater and confirming that the statement is true to the best of the veteran's knowledge.").

Definition build_personal_statement (app_data : gmap str json)
    (claim_title : str) (focus_conditions : list json)
  : option (str * list ui_event) :=
  user_prompt ← statement_user_prompt app_data claim_title focus_conditions;
  Some (call_gpt statement_system_prompt user_prompt default_model 35).

(** *** [build_chat_context] *)

(** [[i.get("label") for i in issues if i.get("label")]]. *)
Definition issue_label (i : json) : option (list json) :=
  label ← get i (u "label");
  Some (if truthy label then [label] else []).

(** One turn of the loop over the documents. *)
Definition chat_snippet (d : json) : option (list str) :=
  text ← get d (u "text");
  let text := por text (JStr []) in
  if truthy text then
    snippet ← slice_value 1200 text;
    name ← get d (u "name");
    Some [fstr name ++ u ":" ++ nl ++ fstr snippet]
  else Some [].

Definition chat_profile_bits (prof : json) : option (list str) :=
  l1 ← labelled prof (u "branch") (u "Branch: ");
  l2 ← labelled prof (u "service_dates") (u "Service dates: ");
  l3 ← labelled prof (u "deployment_locations") (u "Deployments: ");
  Some (l1 ++ l2 ++ l3).

(** The list [pieces] when [build_chat_context] reaches its [return]. *)
Definition chat_pieces (app_data : gmap str json) : option (list str) :=
  let prof := lookup_or app_data (u "veteran_profile") (JObj ∅) in
  let issues := lookup_or app_data (u "issues") (JArr []) in
  let evidence_summary := lookup_or app_data (u "evidence_summary") (JStr []) in
  let docs := lookup_or app_data (u "documents") (JArr []) in
  prof_bits ← chat_profile_bits prof;
  issues_bits ← for_each issue_label issues;
  doc_snippets ← for_each chat_snippet docs;
  issues_piece ←
    (if bool_decide (issues_bits = []) then Some []
     else labels ← join_values (nl ++ u "- ") issues_bits;
          Some [u "Claimed issues:" ++ nl ++ u "- " ++ labels]);
  evidence_piece ←
    (if truthy evidence_summary then
       summary ← as_str evidence_summary;
       Some [u "Evidence summary:" ++ nl ++ summary]
     else Some []);
  Some ((if bool_decide (prof_bits = []) then []
         else [u "Profile:" ++ nl ++ join nl prof_bits])
        ++ issues_piece ++ evidence_piece
        ++ (if bool_decide (doc_snippets = []) then []
            else [u "Record snippets:" ++ nl
                  ++ join (nl ++ nl) (take 3 doc_snippets)])).

Definition build_chat_context (app_data : gmap str json) : option str :=
  join (nl ++ nl) <$> chat_pieces app_data.

(** *** [main], tab 1: the profile (lines 328-369) *)

(** What the six inputs return. *)
Record profile_form := {
  pf_full_name : str;
  pf_branch : str;
  pf_service_dates : str;
  pf_deployment_locations : str;
  pf_mos_duties : str;
  pf_other_notes : str;
}.

Definition fill_profile (form : profile_form) (vp : gmap str json)
  : gmap str json :=
  <[u "other_notes" := JStr (pf_other_notes form)]>
  (<[u "mos_duties" := JStr (pf_mos_duties form)]>
  (<[u "deployment_locations" := JStr (pf_deployment_locations form)]>
  (<[u "service_dates" := JStr (pf_service_dates form)]>
  (<[u "branch" := JStr (pf_branch form)]>
  (<[u "full_name" := JStr (pf_full_name form)]> vp))))).

(** The stored profile must be a dictionary: [vp.get] and [vp[...] = ...]
    are its methods. *)
Definition set_profile (form : profile_form) (app_data : gmap str json)
  : option (gmap str json) :=
  match lookup_or app_data (u "veteran_profile") (JObj ∅) with
  | JObj vp =>
      Some (<[u "veteran_profile" := JObj (fill_profile form vp)]> app_data)
  | _ => None
  end.

(** The text the issues area starts from (lines 374-377):
    ["\n".join(existing_labels)]. *)
Definition issues_text_default (app_data : gmap str json) : option str :=
  items ← iterate (lookup_or app_data (u "issues") (JArr []));
  existing_labels ← mapM (λ i, get_or i (u "label") (JStr [])) items;
  join_values nl existing_labels.

(** *** [main], tab 3: linking conditions to the claim (lines 510-527) *)

(** [[m.get("condition", "") for m in ... if m.get("condition")]]: the
    options of the multiselect. *)
Definition condition_option (m : json) : option (list json) :=
  condition ← get m (u "condition");
  if truthy condition then
    name ← get_or m (u "condition") (JStr []);
    Some [name]
  else Some [].

Definition all_names (mappings : json) : option (list json) :=
  for_each condition_option mappings.

(** [[m.get("condition") for m in ...
      if m.get("selected_for_claim") and m.get("condition")]]. *)
Definition selected_condition (m : json) : option (list json) :=
  selected ← get m (u "selected_for_claim");
  if truthy selected then
    condition ← get m (u "condition");
    Some (if truthy condition then [condition] else [])
  else Some [].

Definition preselected (mappings : json) : option (list json) :=
  for_each selected_condition mappings.

(** [m["selected_for_claim"] = m.get("condition") in selected]. *)
Definition mark (selected : list json) (m : json) : option json :=
  condition ← get m (u "condition");
  match m with
  | JObj fields =>
      Some (JObj (<[u "selected_for_claim" := JBool (member condition selected)]>
                    fields))
  | _ => None
  end.

(** The block under [if app_data["symptom_mappings"]:]; [selected] is what
    the multiselect returns.  The dictionaries of the stored list are updated
    in place. *)
Definition link_conditions (selected : list json) (app_data : gmap str json)
  : option (gmap str json) :=
  mappings ← app_data !! u "symptom_mappings";
  if truthy mappings then
    items ← iterate mappings;
    marked ← mapM (mark selected) items;
    Some (<[u "symptom_mappings" := JArr marked]> app_data)
  else Some app_data.

(** *** [main], tab 4: the statement builder (lines 549-601) *)

Definition condition_names (app_data : gmap str json) : option (list json) :=
  preselected (lookup_or app_data (u "symptom_mappings") (JArr [])).

Definition default_title (app_data : gmap str json) : option str :=
  let issues := lookup_or app_data (u "issues") (JArr []) in
  names ← condition_names app_data;
  if negb (bool_decide (names = [])) then join_values (u ", ") (take 3 names)
  else if truthy issues then
    first_issues ← slice_value 3 issues;
    labels ← for_each issue_label first_issues;
    join_values (u ", ") labels
  else Some [].

(** What the dashboard tabs show besides errors and warnings. *)
Inductive dashboard_event :=
  | StSuccess (message : str)
  | StInfo (message : str).

(** [f"claim_{len(app_data['claims']) + 1}_{int(datetime.utcnow().timestamp())}"]. *)
Definition claim_id (count : nat) (timestamp : Z) : str :=
  u "claim_" ++ decimal (count + 1) ++ u "_" ++ u (pretty timestamp).

Definition claim_entry (count : nat) (timestamp : Z) (now : str)
    (claim_title current_statement : str) : json :=
  JObj (<[u "id" := JStr (claim_id count timestamp)]>
       (<[u "title" := JStr (if bool_decide (claim_title = [])
                            then u "VA claim statement" else claim_title)]>
       (<[u "body" := JStr current_statement]>
       (<[u "created_at" := JStr (now ++ u "Z")]> ∅)))).

(** The handler of the button "Save statement to claims"; [timestamp] and
    [now] are the two readings of the clock. *)
Definition save_statement (timestamp : Z) (now : str)
    (claim_title current_statement : str) (app_data : gmap str json)
  : option (gmap str json * list dashboard_event) :=
  if bool_decide (strip current_statement = []) then Some (app_data, [])
  else
    match app_data !! u "claims" with
    | Some (JArr claims) =>
        Some (<[u "claims" :=
                  JArr (claims ++ [claim_entry (length claims) timestamp now
                                     claim_title current_statement])]>
                app_data,
              [StSuccess (u "Statement saved to claims dashboard.")])
    | _ => None
    end.

(** *** [main], tab 5: removing statements (lines 609-628) *)

(** The ids collected in [remove_ids]; [pressed i] tells whether the button
    of the statement at position [i] was pressed. *)
Definition pressed_ids (pressed : nat → bool) (ids : list json) : list json :=
  mjoin (imap (λ i id, if pressed i then [id] else []) ids).

(** [[c for c in claims if c.get("id") not in remove_ids]], on the claims
    paired with their ids. *)
Definition keep_claims (remove_ids : list json) (claims ids : list json)
  : list json :=
  (List.filter (λ ci : json * json, negb (member ci.2 remove_ids))
               (zip claims ids)).*1.

Definition remove_statements (pressed : nat → bool)
    (app_data : gmap str json)
  : option (gmap str json * list dashboard_event) :=
  let claims := lookup_or app_data (u "claims") (JArr []) in
  if negb (truthy claims) then
    Some (app_data, [StInfo (u "No saved statements yet.")])
  else
    items ← iterate claims;
    ids ← mapM (λ c, get c (u "id")) items;
    let remove_ids := pressed_ids pressed ids in
    if bool_decide (remove_ids = []) then Some (app_data, [])
    else
      Some (<[u "claims" := JArr (keep_claims remove_ids items ids)]> app_data,
            [StSuccess (u "Selected statements removed.")]).


(** *** [main], tab 6: a turn of the chat (lines 646-672) *)

(** An entry of [st.session_state.chat_history]. *)
Record chat_message := { msg_role : str; msg_content : str }.

Definition chat_system_prompt : str :=
  u "You are a VA claims helper. "
  ++ u "Provide education on VA concepts, rating criteria, and preparation steps. "
  ++ u "Do not give legal advice and do not promise outcomes. "
  ++ u "Use the provided context when relevant, but you are not a substitute for a VSO, attorney, or accredited representative.".

Definition chat_user_prompt (context user_msg : str) : str :=
  u "Context for this veteran:" ++ nl
  ++ context ++ nl ++ nl
  ++ u "User question:" ++ nl ++ user_msg.

(** [user_msg] is what [st.chat_input] returns, [None] when nothing was
    submitted.  The history is a list in the session, appended to in place:
    the question stays in it when building the context raises, in which case
    no notice list is returned ([None]). *)
Definition chat_turn (user_msg : option str) (chat_history : list chat_message)
    (app_data : gmap str json)
  : list chat_message * option (list ui_event) :=
  match user_msg with
  | None => (chat_history, Some [])
  | Some user_msg =>
      if bool_decide (user_msg = []) then (chat_history, Some [])
      else
        let asked :=
          chat_history ++ [{| msg_role := u "user"; msg_content := user_msg |}] in
        match build_chat_context app_data with
        | None => (asked, None)
        | Some context =>
            let '(reply, shown) :=
              call_gpt chat_system_prompt (chat_user_prompt context user_msg)
                       default_model 35 in
            (asked ++ [{| msg_role := u "assistant"; msg_content := reply |}],
             Some shown)
        end
  end.
End Engine.

(** ** The legacy symptom mappers: table-style completions *)

Module Legacy.

(** A [pandas.DataFrame] of strings. *)
Record frame := { columns : list str; rows : list (list str) }.

(** [pd.DataFrame({column: [cell]})]. *)
Definition one_cell (column cell : str) : frame :=
  {| columns := [column]; rows := [[cell]] |}.

(** [set(line.strip()) <= {"|", "-", " "}]. *)
Definition is_separator (line : str) : bool :=
  forallb (λ c, (c =? 124) || (c =? 45) || (c =? 32))%N (strip line).

(** [[p.strip() for p in line.split("|") if p.strip()]]. *)
Definition cells (line : str) : list str :=
  strip <$> List.filter (λ p, negb (bool_decide (strip p = []))) (split 124 line).

(** One turn of the loop over the lines of the completion. *)
Definition parse_line (data : list (list str)) (line : str)
  : list (list str) :=
  if bool_decide (strip line = []) then data
  else if contains (u "Condition") line && contains (u "ICD") line then data
  else if is_separator line then data
  else
    let parts := cells line in
    if bool_decide (length parts = 2) then data ++ [parts] else data.

(** [content.strip().split("\n")] and the loop: the rows of the table. *)
Definition parse_table (content : str) : list (list str) :=
  foldl parse_line [] (split 10 (strip content)).

Definition mapper_prompt (symptoms : str) : str :=
  u "A U.S. veteran lists these symptoms for a VA disability claim: '"
  ++ symptoms ++ u "'. "
  ++ u "List the most likely VA-claimable medical conditions with their ICD-10 codes. "
  ++ u "Respond as a markdown table with two columns: Condition | ICD-10 Code.".

Definition mapper_request (symptoms : str) : request :=
  {| req_model := u "gpt-4o"; req_temperature := 30;
     req_max_tokens := Some 400%N;
     req_system := u "You map symptoms to VA-claimable conditions and ICD-10 codes.";
     req_user := mapper_prompt symptoms |}.

Section Mappers.

Variable complete : request → reply.

(** The [try] block shared by both mappers; [unparsed] is the message
    for a completion without rows. *)
Definition table_of_completion (unparsed symptoms : str) : frame :=
  match complete (mapper_request symptoms) with
  | Failed e => one_cell (u "Error") e
  | Completed content =>
      let data := parse_table (default [] content) in
      if bool_decide (data = []) then one_cell (u "Message") unparsed
      else {| columns := [u "Condition"; u "ICD-10 Code"]; rows := data |}
  end.

(** [map_symptoms_to_conditions]; [client_set] tells whether the API key
    was there when the module was loaded. *)
Definition map_symptoms_to_conditions (client_set : bool) (symptoms : str)
  : frame :=
  if negb client_set then
    one_cell (u "Error") (u "OpenAI API key is not set in OPENAI_API_KEY.")
  else if bool_decide (symptoms = []) then
    one_cell (u "Message") (u "Enter symptoms first.")
  else
    table_of_completion (u "Could not parse response. Try different wording.")
                        symptoms.

(** [map_symptoms] of the first prototype. *)
Definition map_symptoms (symptoms : str) : frame :=
  if bool_decide (symptoms = []) then
    one_cell (u "Message") (u "Please enter symptoms first.")
  else
    table_of_completion (u "Could not parse response. Try different symptoms.")
                        symptoms.

End Mappers.

(** *** Accounts and saved rows: the tables of [claims.db]

    The database is taken to work; what it refuses is a duplicate user name
    and a text that cannot be encoded as UTF-8, which is also what
    [password.encode()] refuses. *)

(** No surrogate code point. *)
Definition encodable (s : str) : bool :=
  forallb (λ c, negb ((55296 <=? c) && (c <=? 57343))%N) s.

Section Accounts.

(** [hashlib.sha256(b).hexdigest()] of the UTF-8 encoding of a text, and the
    message of the [UnicodeEncodeError] a text raises. *)
Variable sha256_hex : str → str.
Variable encode_error : str → str.

(** [inl] is the message of the exception. *)
Definition hash_password (password : str) : str + str :=
  if encodable password then inr (sha256_hex password)
  else inl (encode_error password).

(** The table [users]: user name to stored password digest.  Returns the
    table and the message. *)
Definition register_user (users : gmap str str) (username password : str)
  : gmap str str * str :=
  if bool_decide (username = []) || bool_decide (password = []) then
    (users, u "Username and password cannot be empty.")
  else
    match hash_password password with
    | inl e => (users, u "Error: " ++ e)
    | inr digest =>
        if negb (encodable username) then
          (users, u "Error: " ++ encode_error username)
        else
          match users !! username with
          | Some _ => (users, u "Username already exists. Pick another.")
          | None =>
              (<[username := digest]> users,
               u "Account created. You can log in.")
          end
    end.

(** [None]: the exception escapes, nothing catches it here. *)
Definition authenticate_user (users : gmap str str) (username password : str)
  : option bool :=
  if bool_decide (username = []) || bool_decide (password = []) then
    Some false
  else if negb (encodable username) then None
  else
    match users !! username with
    | None => Some false
    | Some stored =>
        match hash_password password with
        | inl _ => None
        | inr digest => Some (bool_decide (stored = digest))
        end
    end.

(** A row of the table [claims]; the id is its position. *)
Record claim_row := {
  row_date : str;
  row_user : str;
  row_conditions : option str;
  row_statement : option str;
  row_summary : option str;
}.

(** Binding the parameters of an [INSERT] in order: the first text that
    cannot be encoded raises. *)
Fixpoint bind_error (params : list (option str)) : option str :=
  match params with
  | [] => None
  | None :: params' => bind_error params'
  | Some s :: params' =>
      if encodable s then bind_error params' else Some (encode_error s)
  end.

Variable complete : request → reply.

Definition statement_prompt (service_branch service_years conditions
    symptom_description name file_number : str) : str :=
  u "I am a U.S. military veteran who served in the " ++ service_branch
  ++ u " for " ++ service_years ++ u " years. "
  ++ u "I am filing a VA disability claim for the following conditions: "
  ++ conditions ++ u ". "
  ++ u "My symptoms and their impact on my daily life are as follows: "
  ++ symptom_description ++ u ". "
  ++ u "Write a strong, personal VA statement in the first person that clearly links my service to my conditions. "
  ++ u "Keep the tone authentic and respectful. Conclude with my name and VA file number."
  ++ nl ++ nl
  ++ u "Full Name: " ++ name ++ nl ++ u "VA File Number: " ++ file_number.

Definition missing_client : str :=
  u "OpenAI API key is not set in OPENAI_API_KEY.".

(** [generate_statement]: the table afterwards and what is returned, [None]
    being Python's [None] (a completion without content).  [date] is
    [datetime.now().strftime(...)]. *)
Definition generate_statement (client_set : bool) (date : str)
    (claims : list claim_row)
    (service_branch service_years conditions symptom_description name
     file_number user : str)
  : list claim_row * option str :=
  if negb client_set then (claims, Some missing_client)
  else if existsb (λ field : str, bool_decide (field = []))
            [service_branch; service_years; conditions; symptom_description;
             name; file_number]
  then (claims, Some (u "Fill in all fields first."))
  else
    match complete {| req_model := u "gpt-4o"; req_temperature := 70;
                      req_max_tokens := Some 1000%N;
                      req_system := u "You write clear, empathetic, persuasive personal statements for VA disability claims.";
                      req_user := statement_prompt service_branch service_years
                                    conditions symptom_description name
                                    file_number |} with
    | Failed e => (claims, Some (u "Error generating statement: " ++ e))
    | Completed statement =>
        match bind_error [Some date; Some user; Some conditions; statement] with
        | Some e => (claims, Some (u "Error generating statement: " ++ e))
        | None =>
            (claims ++ [{| row_date := date; row_user := user;
                           row_conditions := Some conditions;
                           row_statement := statement;
                           row_summary := None |}],
             statement)
        end
    end.

(** [summarize_evidence]. *)
Definition summarize_evidence (client_set : bool) (date : str)
    (claims : list claim_row) (text user : str)
  : list claim_row * option str :=
  if negb client_set then (claims, Some missing_client)
  else if bool_decide (text = []) then
    (claims, Some (u "No text found in document."))
  else
    match complete {| req_model := u "gpt-4o"; req_temperature := 40;
                      req_max_tokens := Some 800%N;
                      req_system := u "You summarize medical documents for VA disability claims.";
                      req_user :=
                        u "Summarize this medical evidence for a VA disability claim. "
                        ++ u "Highlight symptoms, diagnoses, treatments, severity statements, and any service-connection clues."
                        ++ nl ++ nl ++ text |} with
    | Failed e => (claims, Some (u "Error summarizing evidence: " ++ e))
    | Completed summary =>
        match bind_error [Some date; Some user; summary] with
        | Some e => (claims, Some (u "Error summarizing evidence: " ++ e))
        | None =>
            (claims ++ [{| row_date := date; row_user := user;
                           row_conditions := None;
                           row_statement := None;
                           row_summary := summary |}],
             summary)
        end
    end.

End Accounts.

(** *** [load_claims]: from the rows of the query to the table shown *)

(** A row as selected: id, date, conditions, statement, evidence summary. *)
Record selected_row := {
  sel_id : Z;
  sel_date : str;
  sel_conditions : option str;
  sel_statement : option str;
  sel_summary : option str;
}.

(** A row as shown: ID, Date, Type, Content. *)
Record shown_row := {
  shown_id : Z;
  shown_date : str;
  shown_type : str;
  shown_content : str;
}.

(** [f"{conditions}"] for a column that may hold [NULL]. *)
Definition column_text (v : option str) : str := default (u "None") v.

(** [if statement:] on a column that may hold [NULL]. *)
Definition filled (v : option str) : bool :=
  match v with
  | Some s => negb (bool_decide (s = []))
  | None => false
  end.

(** One turn of the loop over the rows. *)
Definition show_row (data : list shown_row) (r : selected_row)
  : list shown_row :=
  if filled (sel_statement r) then
    data ++ [{| shown_id := sel_id r; shown_date := sel_date r;
                shown_type := u "Personal Statement";
                shown_content :=
                  u "Conditions: " ++ column_text (sel_conditions r)
                  ++ nl ++ nl
                  ++ take 300 (default [] (sel_statement r)) ++ u "..." |}]
  else if filled (sel_summary r) then
    data ++ [{| shown_id := sel_id r; shown_date := sel_date r;
                shown_type := u "Evidence Summary";
                shown_content :=
                  take 400 (default [] (sel_summary r)) ++ u "..." |}]
  else data.

(** The rows of the frame [load_claims] returns for the rows selected. *)
Definition shown_claims (selected : list selected_row) : list shown_row :=
  foldl show_row [] selected.


(** The columns the query of [load_claims] selects from a stored row. *)
Definition selected_of (id : Z) (r : claim_row) : selected_row :=
  {| sel_id := id; sel_date := row_date r;
     sel_conditions := row_conditions r;
     sel_statement := row_statement r;
     sel_summary := row_summary r |}.
End Legacy.

(** ** The shape of an aggregate

    The data model's typing of what the exporter reads: the profile is a
    record; issues, mappings and saved statements are sequences of records;
    the details of an issue, the body of a statement and the evidence summary
    are texts, or are left out. *)

Definition is_record (v : json) : bool :=
  match v with
  | JObj _ => true
  | _ => false
  end.

Definition field (v : json) (key : str) : json :=
  match v with
  | JObj fields => default JNull (fields !! key)
  | _ => JNull
  end.

Definition text_or_empty (v : json) : bool :=
  match v with
  | JStr _ => true
  | _ => negb (truthy v)
  end.

Definition records (ok : json → bool) (v : json) : bool :=
  match v with
  | JArr items => forallb (λ i, is_record i && ok i) items
  | _ => false
  end.

Definition aggregate_typed (app_data : gmap str json) : bool :=
  is_record (lookup_or app_data (u "veteran_profile") (JObj ∅))
  && records (λ i, text_or_empty (field i (u "details")))
       (lookup_or app_data (u "issues") (JArr []))
  && records (λ _, true) (lookup_or app_data (u "symptom_mappings") (JArr []))
  && records (λ c, text_or_empty (field c (u "body")))
       (lookup_or app_data (u "claims") (JArr []))
  && text_or_empty (lookup_or app_data (u "evidence_summary") (JStr [])).

(** The section headers of the packet, in order. *)
Definition section_headers : list str :=
  [u "Veteran profile"; u "Claimed issues"; u "Symptom to condition mappings";
   u "Evidence summary"; u "Saved personal statements"].

(** ** Concrete inputs for the examples *)

(** The vector of the table-style parser. *)
Definition table_vector : str :=
  u "Condition | ICD-10 Code" ++ nl
  ++ u "--- | ---" ++ nl
  ++ u "Tinnitus | H93.1" ++ nl
  ++ u "badrow" ++ nl.

(** A decoder that knows four documents and rejects everything else, the
    empty text included. *)
Definition sample_loads (raw : str) : option json :=
  if bool_decide (raw = u "[]") then Some (JArr [])
  else if bool_decide (raw = u "[null]") then Some (JArr [JNull])
  else if bool_decide (raw = u "{}") then Some (JObj ∅)
  else if bool_decide (raw = u "[{}]") then Some (JArr [JObj ∅])
  else None.

Definition sample_repr (v : json) : str := u "<repr>".

(** Gateways: one that always answers with the same text, one that always
    fails. *)
Definition answer (text : str) (r : request) : reply := Completed (Some text).
Definition unreachable (r : request) : reply := Failed (u "Connection error.").

Definition no_pdf (content : list byte) : str + list (option str) :=
  inl (u "EOF marker not found").
Definition no_docx (content : list byte) : str + list str :=
  inl (u "File is not a zip file").

(** A freshly loaded workspace, two uploads with one name and one size, and
    a workspace that already holds a document, a summary and a mapping. *)
Definition fresh_workspace : gmap str json := merge_defaults ∅.

Definition upload_a : upload :=
  {| up_content := [x61]; up_type := Some (u "text/plain");
     up_name := u "exam.txt" |}.
Definition upload_b : upload :=
  {| up_content := [x62]; up_type := Some (u "text/plain");
     up_name := u "exam.txt" |}.

Definition old_mapping : json :=
  JObj (<[u "condition" := JStr (u "Tinnitus")]>
       (<[u "icd10" := JStr (u "H93.1")]> ∅)).

Definition used_workspace : gmap str json :=
  <[u "documents" := JArr [doc_entry upload_a (u "2024-05-01T10:00:00") (u "a")]]>
  (<[u "evidence_summary" := JStr (u "Hearing loss noted in 2019.")]>
  (<[u "symptom_mappings" := JArr [old_mapping]]> fresh_workspace)).

(** A short record followed by a long one: together more than 12,000
    characters. *)
Definition text_document (name text : str) : json :=
  JObj (<[u "name" := JStr name]> (<[u "text" := JStr text]> ∅)).

Definition long_text : str := replicate 12000 121%N.

Definition two_documents : json :=
  JArr [text_document (u "a.txt") (u "hello");
        text_document (u "b.txt") long_text].




Definition sample_eq (v w : json) : bool := false.

(** The ids of stored documents, when every document is a record with a
    text as its id. *)
Definition id_of (d : json) : option str := get d (u "id") ≫= as_str.

Definition document_ids (documents : list json) : option (list str) :=
  mapM id_of documents.

(** A text without line boundary. *)
Definition no_linebreak (s : str) : Prop :=
  Forall (λ c, is_linebreak c = false) s.

(** Two fillings of the profile form. *)
Definition form_a : profile_form :=
  {| pf_full_name := u "S. Doe"; pf_branch := [];
     pf_service_dates := []; pf_deployment_locations := [];
     pf_mos_duties := []; pf_other_notes := [] |}.

Definition form_b : profile_form :=
  {| pf_full_name := u "Sam Doe"; pf_branch := u "Army";
     pf_service_dates := u "1989-03 to 1996-01";
     pf_deployment_locations := []; pf_mos_duties := [];
     pf_other_notes := [] |}.

(** The statements whose button was not pressed, in stored order. *)
Definition unpressed (pressed : nat → bool) (claims : list json) : list json :=
  mjoin (imap (λ i c, if pressed i then [] else [c]) claims).

(** A workspace with two saved statements. *)
Definition statement_one : json :=
  claim_entry 0 1714557600 (u "2024-05-01T10:00:00") (u "Tinnitus")
    (u "Ringing since 1991.").

Definition statement_two : json :=
  claim_entry 1 1714557660 (u "2024-05-01T10:01:00") [] (u "I served.").

Definition dashboard_workspace : gmap str json :=
  <[u "claims" := JArr [statement_one; statement_two]]> fresh_workspace.


(** The sections of the chat context: a header, a line feed and a body. *)
Definition chat_headers : list str :=
  [u "Profile:"; u "Claimed issues:"; u "Evidence summary:";
   u "Record snippets:"].

Definition chat_section (piece : str) : Prop :=
  ∃ header body,
    header ∈ chat_headers ∧ body ≠ [] ∧ piece = header ++ nl ++ body.

(** The mappings a focus selects: those whose condition is in it. *)
Definition in_focus (py_eq : json → json → bool) (focus : list json)
    (m : json) : bool :=
  member py_eq (field m (u "condition")) focus.

(** Stand-ins for the digest and for the message of an encoding error, and
    a table of accounts with one user. *)
Definition sample_digest (s : str) : str := u "digest of " ++ s.

Definition sample_encode_error (s : str) : str :=
  u "'utf-8' codec can't encode characters: surrogates not allowed".

Definition one_user : gmap str str :=
  <[u "sam" := sample_digest (u "secret")]> ∅.

Definition created : str := u "Account created. You can log in.".

(** A row of the history is listed when it has a statement or a summary. *)
Definition listed (r : Legacy.selected_row) : bool :=
  Legacy.filled (Legacy.sel_statement r) || Legacy.filled (Legacy.sel_summary r).

(** A gateway whose completion has no content, and a clock reading. *)
Definition silent (r : request) : reply := Completed None.

Definition noon : str := u "2024-05-01 12:00:00".

(** A cell of a parsed table: not empty, nothing to strip, and neither a
    column marker nor a line feed in it. *)
Definition clean_cell (cell : str) : Prop :=
  cell ≠ [] ∧ strip cell = cell ∧ Forall (λ c, c ≠ 124%N ∧ c ≠ 10%N) cell.

(** A frame is well formed when it has rows and every row has one cell per
    column. *)
Definition well_formed (fr : Legacy.frame) : Prop :=
  Legacy.rows fr ≠ []
  ∧ Forall (λ row, length row = length (Legacy.columns fr)) (Legacy.rows fr).

(** The labels the issues area yields: its stripped lines that are not
    empty. *)
Definition issue_labels (issues_text : str) : list str :=
  filter (λ l, l ≠ []) (strip <$> splitlines issues_text).

(** A chat history made of questions each followed by its answer. *)
Fixpoint alternating (chat_history : list chat_message) : bool :=
  match chat_history with
  | [] => true
  | question :: answer :: rest =>
      bool_decide (msg_role question = u "user")
      && bool_decide (msg_role answer = u "assistant")
      && alternating rest
  | _ => false
  end.

(** A mapping record with its [selected_for_claim] set from a selection, and
    every other field as it was. *)
Definition with_selection (py_eq : json → json → bool) (selected : list json)
    (m : json) : json :=
  match m with
  | JObj fields =>
      JObj (<[u "selected_for_claim" :=
                JBool (member py_eq (field m (u "condition")) selected)]>
              fields)
  | _ => m
  end.


Section Session.

Variable py_repr : json → str.
Variable json_loads : str → option json.
Variable complete : request → reply.
Variable pdf_pages : list byte → str + list (option str).
Variable docx_paragraphs : list byte → str + list str.
Variable py_eq : json → json → bool.



End Session.
(** ** Theorems *)

Section merge_defaults_facts.

Lemma fill_default_union (data m : gmap str json) (kv : str * json) :
  fill_default data kv ∪ m = data ∪ <[kv.1 := kv.2]> m.
Proof.
  unfold fill_default. destruct (data !! kv.1) as [w|] eqn:E.
  - apply map_eq; intros i. rewrite !lookup_union.
    destruct (decide (kv.1 = i)) as [<-|Hne].
    + rewrite E, lookup_insert_eq. by destruct (m !! kv.1).
    + by rewrite lookup_insert_ne.
  - by rewrite <- insert_union_l, insert_union_r.
Qed.

Lemma foldl_fill_default_union (l : list (str * json)) (data : gmap str json) :
  foldl fill_default data l = data ∪ list_to_map l.
Proof.
  revert data. induction l as [|kv l IH]; intros data; simpl.
  - by rewrite (right_id_L ∅ (∪)).
  - rewrite IH. apply fill_default_union.
Qed.

Lemma merge_defaults_union (data : gmap str json) :
  merge_defaults data = data ∪ defaults_map.
Proof. apply foldl_fill_default_union. Qed.

End merge_defaults_facts.


Lemma load_app_data_missing (json_loads : str → option json) :
  load_app_data json_loads None = Some (JObj defaults_map).
Proof.
  unfold load_app_data. rewrite merge_defaults_union.
  by rewrite (left_id_L ∅ (∪)).
Qed.

Lemma load_app_data_unparsable (json_loads : str → option json) (text : str) :
  json_loads text = None →
  load_app_data json_loads (Some text) = Some (JObj defaults_map).
Proof.
  unfold load_app_data. intros ->. simpl. rewrite merge_defaults_union.
  by rewrite (left_id_L ∅ (∪)).
Qed.

(** C1. The default back-fill is idempotent; it never overwrites a key the
    aggregate already has (the aggregate is a sub-map of the result, and a
    key that is present keeps its value), an absent key receives exactly its
    default, and so every key of the defaults is there afterwards. *)
Theorem merge_defaults_idempotent (A : gmap str json) :
  merge_defaults (merge_defaults A) = merge_defaults A
  ∧ A ⊆ merge_defaults A
  ∧ (∀ k, merge_defaults A !! k
          = match A !! k with
            | Some v => Some v
            | None => defaults_map !! k
            end)
  ∧ Forall (λ kv, is_Some (merge_defaults A !! kv.1)) defaults.
Proof.
  rewrite !merge_defaults_union. split; [|split; [|split]].
  - rewrite <- (assoc_L (∪)). by rewrite (idemp_L (∪)).
  - apply map_union_subseteq_l.
  - intros k. rewrite lookup_union.
    destruct (A !! k); by destruct (defaults_map !! k).
  - apply Forall_forall. intros kv Hkv.
    assert (is_Some (defaults_map !! kv.1)) as [d Hd].
    { unfold defaults in Hkv.
      repeat (apply elem_of_cons in Hkv as [->|Hkv]; [vm_compute; by eexists|]).
      by apply elem_of_nil in Hkv. }
    rewrite lookup_union, Hd. by destruct (A !! kv.1).
Qed.

(** ** Stripping *)

Section strip_facts.

Lemma lstrip_head (c : N) (s : str) :
  is_space c = false → lstrip (c :: s) = c :: s.
Proof. intros H. simpl. by rewrite H. Qed.

Lemma lstrip_cases (s : str) :
  lstrip s = [] ∨ ∃ c t, lstrip s = c :: t ∧ is_space c = false.
Proof.
  induction s as [|c s IH]; simpl; [by left|].
  destruct (is_space c) eqn:E; [done|]. right. by exists c, s.
Qed.

Lemma lstrip_idemp (s : str) : lstrip (lstrip s) = lstrip s.
Proof.
  destruct (lstrip_cases s) as [->|(c & t & -> & Hc)]; [done|].
  by apply lstrip_head.
Qed.

Lemma lstrip_snoc (s : str) (c : N) :
  is_space c = false → ∃ pre, lstrip (s ++ [c]) = pre ++ [c].
Proof.
  intros Hc. induction s as [|d s IH]; simpl.
  - rewrite Hc. by exists [].
  - destruct (is_space d); [done|]. by exists (d :: s).
Qed.

Lemma rstrip_head (c : N) (s : str) :
  is_space c = false → ∃ t, rstrip (c :: s) = c :: t.
Proof.
  intros Hc. unfold rstrip. rewrite reverse_cons.
  destruct (lstrip_snoc (reverse s) c Hc) as [pre ->].
  exists (reverse pre). by rewrite reverse_snoc.
Qed.

Lemma rstrip_idemp (s : str) : rstrip (rstrip s) = rstrip s.
Proof. unfold rstrip. by rewrite reverse_involutive, lstrip_idemp. Qed.

Lemma strip_idemp (s : str) : strip (strip s) = strip s.
Proof.
  unfold strip. destruct (lstrip_cases s) as [->|(c & t & -> & Hc)]; [done|].
  destruct (rstrip_head c t Hc) as [t' E]. rewrite E.
  rewrite (lstrip_head _ _ Hc), <- E. apply rstrip_idemp.
Qed.

(** A stripped, non-empty string starts and ends with a character that is
    not white space. *)
Lemma strip_head_not_space (s : str) (c : N) (t : str) :
  strip s = c :: t → is_space c = false.
Proof.
  unfold strip. destruct (lstrip_cases s) as [->|(d & t' & -> & Hd)]; [done|].
  destruct (rstrip_head d t' Hd) as [t'' ->]. by intros [= <- _].
Qed.

Lemma rstrip_last_not_space (s t : str) (c : N) :
  rstrip s = t ++ [c] → is_space c = false.
Proof.
  unfold rstrip. intros H.
  destruct (lstrip_cases (reverse s)) as [E|(d & t' & E & Hd)];
    rewrite E in H.
  - by destruct t.
  - rewrite reverse_cons in H. by apply app_inj_tail in H as [_ <-].
Qed.

Lemma strip_last_not_space (s t : str) (c : N) :
  strip s = t ++ [c] → is_space c = false.
Proof. apply rstrip_last_not_space. Qed.

End strip_facts.

(** ** The issues list *)

Lemma foldl_add_issue (lines : list str) (acc : list json) :
  foldl add_issue acc lines
  = acc ++ (issue_entry <$> filter (λ l, l ≠ []) (strip <$> lines)).
Proof.
  revert acc. induction lines as [|line lines IH]; intros acc; simpl.
  - by rewrite (right_id_L [] (++)).
  - rewrite IH. unfold add_issue. rewrite filter_cons.
    case_bool_decide as E; rewrite decide_bool_decide.
    + rewrite bool_decide_false by naive_solver. done.
    + rewrite bool_decide_true by done. by rewrite fmap_cons, <- (assoc_L (++)).
Qed.

Lemma new_issues_filter (issues_text : str) :
  new_issues issues_text
  = issue_entry <$> filter (λ l, l ≠ []) (strip <$> splitlines issues_text).
Proof. apply foldl_add_issue. Qed.

(** C10. The issues regenerated from the text area are, in input order, the
    stripped lines that are not empty: every stored issue has a label that is
    not empty, starts and ends with a character that is not white space (so
    stripping it again changes nothing), and has the empty string as its
    details. *)
Theorem new_issues_stripped_labels (issues_text : str) :
  new_issues issues_text
  = issue_entry <$> filter (λ l, l ≠ []) (strip <$> splitlines issues_text)
  ∧ Forall (λ i, ∃ label,
              get i (u "label") = Some (JStr label)
              ∧ get i (u "details") = Some (JStr [])
              ∧ label ≠ [] ∧ strip label = label
              ∧ (∃ line, line ∈ splitlines issues_text ∧ label = strip line)
              ∧ is_space <$> head label = Some false
              ∧ is_space <$> last label = Some false)
      (new_issues issues_text).
Proof.
  split; [apply new_issues_filter|].
  rewrite new_issues_filter. apply Forall_fmap, Forall_forall.
  intros label [Hne Hin]%list_elem_of_filter.
  apply list_elem_of_fmap in Hin as (line & -> & Hline).
  exists (strip line). repeat split.
  - done.
  - apply strip_idemp.
  - by exists line.
  - destruct (strip line) as [|d t] eqn:E; [done|]. simpl.
    by rewrite (strip_head_not_space _ _ _ E).
  - destruct (strip line) as [|d t] eqn:E using rev_ind; [done|].
    rewrite last_snoc. simpl. by rewrite (strip_last_not_space _ _ _ E).
Qed.

(** ** The table-style parser *)


(** C4. On the vector of the specification the line-oriented parser keeps
    exactly the row (Tinnitus, H93.1): the header, the separator line and the
    one-cell line are dropped; both legacy mappers return that single row
    when the gateway answers with the vector. *)
Theorem parse_table_vector :
  Legacy.parse_table table_vector = [[u "Tinnitus"; u "H93.1"]]
  ∧ Legacy.rows (Legacy.map_symptoms_to_conditions
                   (λ _, Completed (Some table_vector)) true (u "ringing in ears"))
    = [[u "Tinnitus"; u "H93.1"]]
  ∧ Legacy.rows (Legacy.map_symptoms
                   (λ _, Completed (Some table_vector)) (u "ringing in ears"))
    = [[u "Tinnitus"; u "H93.1"]].
Proof. repeat split; vm_compute; reflexivity. Qed.

(** ** Uploads: duplicates by id *)

Section upload_facts.

Variable pdf_pages : list byte → str + list (option str).
Variable docx_paragraphs : list byte → str + list str.

Lemma doc_id_same (up1 up2 : upload) :
  up_name up1 = up_name up2 →
  length (up_content up1) = length (up_content up2) →
  doc_id up2 = doc_id up1.
Proof. unfold doc_id. by intros -> ->. Qed.

Lemma existing_ids_fresh (id : str) (documents : list json) :
  Forall (λ d, ∃ v, get d (u "id") = Some v ∧ is_id id v = false) documents →
  ∃ ids, mapM (λ d, get d (u "id")) documents = Some ids
         ∧ existsb (is_id id) ids = false.
Proof.
  induction 1 as [|d documents (v & Hv & Hid) _ (ids & Hids & Hex)].
  - by exists [].
  - exists (v :: ids). split.
    + apply mapM_Some. constructor; [done|]. by apply mapM_Some.
    + simpl. by rewrite Hid, Hex.
Qed.

Lemma get_id_doc_entry (up : upload) (now text : str) :
  get (doc_entry up now text) (u "id") = Some (JStr (doc_id up)).
Proof. reflexivity. Qed.

Lemma store_upload_fresh (documents : list json) (up : upload) (now : str) :
  Forall (λ d, ∃ v, get d (u "id") = Some v ∧ is_id (doc_id up) v = false)
         documents →
  store_upload pdf_pages docx_paragraphs documents up now
  = Some (documents
            ++ [doc_entry up now
                  (extract_text_from_bytes pdf_pages docx_paragraphs
                     (up_content up) (up_type up) (up_name up)).1],
          (extract_text_from_bytes pdf_pages docx_paragraphs
             (up_content up) (up_type up) (up_name up)).2).
Proof.
  intros (ids & Hids & Hex)%existing_ids_fresh. unfold store_upload.
  rewrite Hids. simpl. rewrite Hex.
  by destruct (extract_text_from_bytes _ _ _ _ _).
Qed.

(** An upload whose id is already stored is skipped, whatever its content. *)
Lemma store_upload_known (documents : list json) (up : upload) (now : str)
    (ids : list json) :
  mapM (λ d, get d (u "id")) documents = Some ids →
  JStr (doc_id up) ∈ ids →
  store_upload pdf_pages docx_paragraphs documents up now
  = Some (documents, []).
Proof.
  intros Hids Hin. unfold store_upload. rewrite Hids. simpl.
  assert (existsb (is_id (doc_id up)) ids = true) as ->; [|done].
  apply existsb_exists. exists (JStr (doc_id up)). split.
  - by apply list_elem_of_In.
  - simpl. by apply bool_decide_eq_true.
Qed.

(** Whatever the list held, an upload whose id equals that of the upload
    just processed is skipped. *)
Lemma store_upload_again (documents stored : list json) (up1 up2 : upload)
    (now1 now2 : str) (shown : list ui_event) :
  doc_id up2 = doc_id up1 →
  store_upload pdf_pages docx_paragraphs documents up1 now1
  = Some (stored, shown) →
  store_upload pdf_pages docx_paragraphs stored up2 now2 = Some (stored, []).
Proof.
  intros Hid. unfold store_upload at 1.
  destruct (mapM _ documents) as [ids|] eqn:Hids; simpl; [|done].
  destruct (existsb (is_id (doc_id up1)) ids) eqn:Hex.
  - intros [= <- _]. unfold store_upload. rewrite Hids. simpl.
    by rewrite Hid, Hex.
  - destruct (extract_text_from_bytes _ _ _ _ _) as [text shown'].
    intros [= <- _].
    apply store_upload_known with (ids := ids ++ [JStr (doc_id up1)]).
    + apply mapM_Some. apply Forall2_app; [by apply mapM_Some|].
      constructor; [|done]. apply get_id_doc_entry.
    + rewrite Hid. set_solver.
Qed.

End upload_facts.

(** C2. Two uploads with the same name and the same size but different
    content have the same id: processed in turn against a documents list that
    does not hold that id yet, the first is stored, the second is skipped, and
    the aggregate after both is the aggregate after the first alone, with
    exactly one entry more than before. *)
Theorem dedup_by_id (pdf_pages : list byte → str + list (option str))
    (docx_paragraphs : list byte → str + list str)
    (app_data : gmap str json) (documents : list json)
    (up1 up2 : upload) (now1 now2 : str) :
  up_name up1 = up_name up2 →
  length (up_content up1) = length (up_content up2) →
  up_content up1 ≠ up_content up2 →
  app_data !! u "documents" = Some (JArr documents) →
  Forall (λ d, ∃ v, get d (u "id") = Some v ∧ is_id (doc_id up1) v = false)
         documents →
  let extracted :=
    extract_text_from_bytes pdf_pages docx_paragraphs
      (up_content up1) (up_type up1) (up_name up1) in
  let stored := documents ++ [doc_entry up1 now1 extracted.1] in
  store_uploads pdf_pages docx_paragraphs app_data [(up1, now1); (up2, now2)]
  = Some (<[u "documents" := JArr stored]> app_data, extracted.2)
  ∧ store_uploads pdf_pages docx_paragraphs app_data [(up1, now1)]
    = Some (<[u "documents" := JArr stored]> app_data, extracted.2)
  ∧ store_upload pdf_pages docx_paragraphs stored up2 now2 = Some (stored, [])
  ∧ length stored = S (length documents).
Proof.
  intros Hname Hsize _ Hdocs Hfresh extracted stored.
  pose proof (store_upload_fresh pdf_pages docx_paragraphs _ _ now1 Hfresh)
    as H1. fold extracted in H1. fold stored in H1.
  assert (store_upload pdf_pages docx_paragraphs stored up2 now2
          = Some (stored, [])) as H2.
  { destruct (existing_ids_fresh _ _ Hfresh) as (ids & Hids & _).
    apply store_upload_known with (ids := ids ++ [JStr (doc_id up1)]).
    - apply mapM_Some. apply Forall2_app; [by apply mapM_Some|].
      constructor; [|done]. apply get_id_doc_entry.
    - rewrite (doc_id_same up1 up2) by done. set_solver. }
  repeat split.
  - simpl. rewrite Hdocs. simpl. rewrite H1. simpl.
    rewrite lookup_insert_eq. simpl. rewrite H2. simpl.
    by rewrite insert_insert_eq, (right_id_L [] (++)).
  - simpl. rewrite Hdocs. simpl. rewrite H1. simpl.
    by rewrite (right_id_L [] (++)).
  - done.
  - unfold stored. rewrite length_app. simpl. lia.
Qed.

Lemma dedup_by_id_witness :
  up_name upload_a = up_name upload_b
  ∧ length (up_content upload_a) = length (up_content upload_b)
  ∧ up_content upload_a ≠ up_content upload_b
  ∧ store_uploads no_pdf no_docx fresh_workspace
      [(upload_a, u "2024-05-01T10:00:00"); (upload_b, u "2024-05-01T10:00:07")]
    = Some (<[u "documents" := JArr [doc_entry upload_a (u "2024-05-01T10:00:00")
                                       (u "a")]]> fresh_workspace, []).
Proof.
  split; [done|]. split; [done|]. split; [done|].
  refine (proj1 (dedup_by_id no_pdf no_docx fresh_workspace [] upload_a upload_b
                   (u "2024-05-01T10:00:00") (u "2024-05-01T10:00:07")
                   _ _ _ _ _)); [done|done|done|by vm_compute|constructor].
Defined.

(** ** The completion parser *)

Section parser_facts.

Variable json_loads : str → option json.
Variable complete : request → reply.

Lemma parse_mappings_array (raw : str) (items : list json) :
  json_loads raw = Some (JArr items) → parse_mappings json_loads raw = items.
Proof. unfold parse_mappings. by intros ->. Qed.

Lemma parse_mappings_error (raw : str) :
  json_loads raw = None → parse_mappings json_loads raw = [].
Proof. unfold parse_mappings. by intros ->. Qed.

Lemma parse_mappings_other (raw : str) (v : json) :
  json_loads raw = Some v → (∀ items, v ≠ JArr items) →
  parse_mappings json_loads raw = [].
Proof.
  unfold parse_mappings. intros -> Hv. destruct v; try done. by destruct (Hv items).
Qed.

Lemma map_symptoms_unfold (symptom_text : str) :
  map_symptoms json_loads complete symptom_text
  = let call := call_gpt complete map_symptoms_system_prompt
                  (map_symptoms_user_prompt symptom_text) default_model 20 in
    (parse_mappings json_loads call.1, call.1, call.2).
Proof. unfold map_symptoms. by destruct (call_gpt _ _ _ _ _). Qed.

(** A failing gateway: [call_gpt] returns the empty string and shows the
    error. *)
Lemma call_gpt_failed (system_prompt user_prompt model : str) (t : N) :
  (∀ r, ∃ e, complete r = Failed e) →
  ∃ e, call_gpt complete system_prompt user_prompt model t
       = ([], [StError (u "Model error: " ++ e)]).
Proof.
  intros H. unfold call_gpt.
  destruct (H {| req_model := model; req_temperature := t;
                 req_max_tokens := None; req_system := system_prompt;
                 req_user := user_prompt |}) as [e ->]. by exists e.
Qed.

(** What [call_gpt] returns, by what the gateway replied. *)
Lemma call_gpt_cases (system_prompt user_prompt model : str) (t : N) :
  match complete {| req_model := model; req_temperature := t;
                    req_max_tokens := None; req_system := system_prompt;
                    req_user := user_prompt |} with
  | Completed (Some content) =>
      call_gpt complete system_prompt user_prompt model t
      = (strip content, [])
  | Completed None =>
      call_gpt complete system_prompt user_prompt model t
      = ([], [StError (u "Model error: "
                         ++ u "'NoneType' object has no attribute 'strip'")])
  | Failed e =>
      call_gpt complete system_prompt user_prompt model t
      = ([], [StError (u "Model error: " ++ e)])
  end.
Proof. unfold call_gpt. by destruct (complete _) as [e|[content|]]. Qed.

End parser_facts.

(** C3, as stated, fails on a padded output: the decoder is applied to the
    text [call_gpt] returns, which is the model output stripped.  An output
    that is a form feed followed by [[null]] is not valid JSON, yet the
    result is the array and not the empty list; and an output that is no
    JSON, padded with spaces, comes back trimmed: what the caller gets as the
    raw text is not the original output. *)
Lemma stripped_output_parsed :
  sample_loads ([12%N] ++ u "[null]") = None
  ∧ map_symptoms sample_loads (answer ([12%N] ++ u "[null]")) (u "ringing")
    = ([JNull], u "[null]", [])
  ∧ [JNull] ≠ @nil json
  ∧ sample_loads (u " Sorry, no. ") = None
  ∧ map_symptoms sample_loads (answer (u " Sorry, no. ")) (u "ringing")
    = ([], u "Sorry, no.", [])
  ∧ u "Sorry, no." ≠ u " Sorry, no. ".
Proof. repeat split; by vm_compute. Qed.

(** C3, amended. [map_symptoms] always returns, and it decodes not the
    model output but the text [call_gpt] gave: the output stripped of the
    white space around it, the empty text when the gateway failed or gave no
    content.  When that text decodes to a JSON array the result is that
    array; when it does not decode, or decodes to anything else, the result is
    the empty list; and in every case that text, not the original output, is
    returned next to the result. *)
Theorem map_symptoms_parse (json_loads : str → option json)
    (complete : request → reply) (symptom_text : str) :
  ∃ raw shown,
    call_gpt complete map_symptoms_system_prompt
      (map_symptoms_user_prompt symptom_text) default_model 20 = (raw, shown)
    ∧ raw = match complete
                    {| req_model := default_model; req_temperature := 20;
                       req_max_tokens := None;
                       req_system := map_symptoms_system_prompt;
                       req_user := map_symptoms_user_prompt symptom_text |}
            with
            | Completed (Some content) => strip content
            | _ => []
            end
    ∧ (∀ items, json_loads raw = Some (JArr items) →
         map_symptoms json_loads complete symptom_text = (items, raw, shown))
    ∧ (json_loads raw = None →
         map_symptoms json_loads complete symptom_text = ([], raw, shown))
    ∧ (∀ v, json_loads raw = Some v → (∀ items, v ≠ JArr items) →
         map_symptoms json_loads complete symptom_text = ([], raw, shown)).
Proof.
  rewrite map_symptoms_unfold.
  pose proof (call_gpt_cases complete map_symptoms_system_prompt
                (map_symptoms_user_prompt symptom_text) default_model 20)
    as Hcases.
  destruct (call_gpt _ _ _ _ _) as [raw shown]. exists raw, shown. simpl.
  split; [done|]. split; [|split; [|split]].
  - destruct (complete _) as [e|[content|]]; by injection Hcases as -> _.
  - intros items H. by rewrite (parse_mappings_array _ _ _ H).
  - intros H. by rewrite (parse_mappings_error _ _ H).
  - intros v H Hv. by rewrite (parse_mappings_other _ _ _ H Hv).
Qed.

(** The three cases of C3 on the sample decoder: an array, a text that is not
    JSON, a JSON object. *)
Lemma map_symptoms_parse_witness :
  map_symptoms sample_loads (answer (u " [null] ")) (u "ringing")
  = ([JNull], u "[null]", [])
  ∧ map_symptoms sample_loads (answer (u "Sorry, no.")) (u "ringing")
    = ([], u "Sorry, no.", [])
  ∧ map_symptoms sample_loads (answer (u "{}")) (u "ringing")
    = ([], u "{}", []).
Proof.
  split; [|split].
  - destruct (map_symptoms_parse sample_loads (answer (u " [null] ")) (u "ringing"))
      as (raw & shown & Hcall & _ & Harr & _).
    injection Hcall as <- <-. apply Harr. by vm_compute.
  - destruct (map_symptoms_parse sample_loads (answer (u "Sorry, no.")) (u "ringing"))
      as (raw & shown & Hcall & _ & _ & Herr & _).
    injection Hcall as <- <-. apply Herr. by vm_compute.
  - destruct (map_symptoms_parse sample_loads (answer (u "{}")) (u "ringing"))
      as (raw & shown & Hcall & _ & _ & _ & Hother).
    injection Hcall as <- <-. apply (Hother (JObj ∅)); [by vm_compute|done].
Defined.

(** ** The symptom mapper's button *)

Section analyze_facts.

Variable json_loads : str → option json.
Variable complete : request → reply.

Lemma analyze_symptoms_unfold (symptom_note : str) (app_data : gmap str json) :
  analyze_symptoms json_loads complete symptom_note app_data
  = if bool_decide (strip symptom_note = []) then (app_data, [])
    else
      let call := call_gpt complete map_symptoms_system_prompt
                    (map_symptoms_user_prompt symptom_note) default_model 20 in
      let mappings := parse_mappings json_loads call.1 in
      if bool_decide (mappings = []) then
        (app_data,
         call.2 ++ [StWarning (u "No JSON parsed from model response. Raw output shown below.");
                    StTextArea (u "Raw model output") call.1])
      else (<[u "symptom_mappings" := JArr mappings]> app_data, call.2).
Proof.
  unfold analyze_symptoms. case_bool_decide; [done|].
  rewrite map_symptoms_unfold. done.
Qed.

(** When the gateway fails and the decoder rejects the empty text, the button
    leaves the aggregate as it was and shows the error and the warning. *)
Lemma analyze_symptoms_gateway_failure (symptom_note : str)
    (app_data : gmap str json) :
  (∀ r, ∃ e, complete r = Failed e) →
  json_loads [] = None →
  (analyze_symptoms json_loads complete symptom_note app_data).1 = app_data.
Proof.
  intros Hfail Hempty. rewrite analyze_symptoms_unfold.
  case_bool_decide; [done|].
  destruct (call_gpt_failed complete map_symptoms_system_prompt
              (map_symptoms_user_prompt symptom_note) default_model 20 Hfail)
    as [e ->]. simpl.
  by rewrite (parse_mappings_error _ _ Hempty).
Qed.

End analyze_facts.

(** C8, as stated, fails on an empty array: the completion [[]] parses as a
    JSON array, yet the mapping stored before is still there afterwards. *)
Lemma empty_array_keeps_old_mappings :
  strip (u "ringing in ears") ≠ []
  ∧ (call_gpt (answer (u "[]")) map_symptoms_system_prompt
       (map_symptoms_user_prompt (u "ringing in ears")) default_model 20).1
    = u "[]"
  ∧ sample_loads (u "[]") = Some (JArr [])
  ∧ (analyze_symptoms sample_loads (answer (u "[]")) (u "ringing in ears")
       used_workspace).1 !! u "symptom_mappings"
    = Some (JArr [old_mapping])
  ∧ Some (JArr [old_mapping]) ≠ Some (JArr []).
Proof. repeat split; try (vm_compute; reflexivity); by vm_compute. Qed.

(** C8, amended. A completion that parses as a non-empty JSON array replaces
    the stored sequence by the parsed one, whatever was stored, and touches no
    other key; a completion that parses as the empty array stores nothing: the
    aggregate stays as it was, and the warning and the raw output are shown. *)
Theorem analyze_symptoms_replaces (json_loads : str → option json)
    (complete : request → reply) (symptom_note raw : str)
    (shown : list ui_event) (items : list json) (app_data : gmap str json) :
  strip symptom_note ≠ [] →
  call_gpt complete map_symptoms_system_prompt
    (map_symptoms_user_prompt symptom_note) default_model 20 = (raw, shown) →
  json_loads raw = Some (JArr items) →
  (items ≠ [] →
     analyze_symptoms json_loads complete symptom_note app_data
     = (<[u "symptom_mappings" := JArr items]> app_data, shown))
  ∧ (items = [] →
     analyze_symptoms json_loads complete symptom_note app_data
     = (app_data,
        shown ++ [StWarning (u "No JSON parsed from model response. Raw output shown below.");
                  StTextArea (u "Raw model output") raw])).
Proof.
  intros Hnote Hcall Hloads. rewrite analyze_symptoms_unfold.
  rewrite bool_decide_false by done. rewrite Hcall. simpl.
  rewrite (parse_mappings_array _ _ _ Hloads). split; intros H.
  - by rewrite bool_decide_false.
  - by rewrite bool_decide_true.
Qed.

Lemma analyze_symptoms_replaces_witness :
  analyze_symptoms sample_loads (answer (u "[{}]")) (u "ringing in ears")
    used_workspace
  = (<[u "symptom_mappings" := JArr [JObj ∅]]> used_workspace, [])
  ∧ analyze_symptoms sample_loads (answer (u "[]")) (u "ringing in ears")
      used_workspace
    = (used_workspace,
       [StWarning (u "No JSON parsed from model response. Raw output shown below.");
        StTextArea (u "Raw model output") (u "[]")]).
Proof.
  split.
  - apply (analyze_symptoms_replaces sample_loads (answer (u "[{}]"))
             (u "ringing in ears") (u "[{}]") [] [JObj ∅] used_workspace);
      [by vm_compute | by vm_compute | by vm_compute | discriminate].
  - apply (analyze_symptoms_replaces sample_loads (answer (u "[]"))
             (u "ringing in ears") (u "[]") [] [] used_workspace);
      [by vm_compute | by vm_compute | by vm_compute | reflexivity].
Defined.

(** ** Gateway failures *)

Section evidence_facts.

Variable py_repr : json → str.
Variable complete : request → reply.

(** When the documents give a non-empty blob, the button stores whatever
    [call_gpt] returned, the empty string of a failed call included. *)
Lemma build_evidence_summary_stores (app_data : gmap str json)
    (documents : json) (joined : list str) :
  app_data !! u "documents" = Some documents →
  joined_texts py_repr documents = Some joined →
  big_blob joined ≠ [] →
  let call := call_gpt complete summary_system_prompt
                (summary_user_prompt (big_blob joined)) default_model 25 in
  build_evidence_summary py_repr complete app_data
  = Some (<[u "evidence_summary" := JStr call.1]> app_data, JStr call.1, call.2).
Proof.
  intros Hdocs Hjoined Hblob. unfold build_evidence_summary.
  rewrite Hdocs. simpl. rewrite Hjoined. simpl.
  rewrite bool_decide_false by done. by destruct (call_gpt _ _ _ _ _).
Qed.

Lemma build_evidence_summary_gateway_failure (app_data : gmap str json)
    (documents : json) (joined : list str) :
  app_data !! u "documents" = Some documents →
  joined_texts py_repr documents = Some joined →
  big_blob joined ≠ [] →
  (∀ r, ∃ e, complete r = Failed e) →
  ∃ e, build_evidence_summary py_repr complete app_data
       = Some (<[u "evidence_summary" := JStr []]> app_data, JStr [],
               [StError (u "Model error: " ++ e)]).
Proof.
  intros Hdocs Hjoined Hblob Hfail.
  rewrite (build_evidence_summary_stores _ _ _ Hdocs Hjoined Hblob).
  destruct (call_gpt_failed complete summary_system_prompt
              (summary_user_prompt (big_blob joined)) default_model 25 Hfail)
    as [e ->]. by exists e.
Qed.

End evidence_facts.

(** C6, on the code. With the gateway failing, the symptom mapper's button
    leaves every aggregate as it was, but the evidence-summary button does
    not: on a workspace that holds a document and a summary, it shows the
    error and stores the empty string over the summary, and the text area
    that follows (line 485) is handed that empty string as well. *)
Theorem evidence_summary_lost_on_failure :
  (∀ symptom_note app_data,
     (analyze_symptoms sample_loads unreachable symptom_note app_data).1
     = app_data)
  ∧ used_workspace !! u "evidence_summary"
    = Some (JStr (u "Hearing loss noted in 2019."))
  ∧ build_evidence_summary sample_repr unreachable used_workspace
    = Some (<[u "evidence_summary" := JStr []]> used_workspace, JStr [],
            [StError (u "Model error: Connection error.")])
  ∧ <[u "evidence_summary" := JStr []]> used_workspace ≠ used_workspace.
Proof.
  split; [|split; [|split]].
  - intros note A. apply analyze_symptoms_gateway_failure; [|done].
    intros r. by eexists.
  - by vm_compute.
  - by rewrite (build_evidence_summary_stores sample_repr unreachable
                  used_workspace
                  (JArr [doc_entry upload_a (u "2024-05-01T10:00:00") (u "a")])
                  [u "exam.txt:" ++ nl ++ u "a"])
      by by vm_compute.
  - intros H. apply (f_equal (λ m, m !! u "evidence_summary")) in H.
    rewrite lookup_insert_eq in H. by vm_compute in H.
Qed.

(** ** The evidence blob *)

Section blob_facts.

Variable py_repr : json → str.

Lemma join_cons_prefix (sep first : str) (rest : list str) :
  first `prefix_of` join sep (first :: rest).
Proof.
  destruct rest as [|second rest]; simpl; [done|]. by apply prefix_app_r.
Qed.

Lemma prefix_take_mono (n : nat) (s t : str) :
  s `prefix_of` t → take n s `prefix_of` take n t.
Proof. intros [k ->]. rewrite take_app. by apply prefix_app_r. Qed.

(** A document adds nothing, or one text that starts with its name. *)
Lemma document_contribution_cases (d : json) (part : list str) :
  document_contribution py_repr d = Some part →
  part = []
  ∨ ∃ name text,
      get d (u "name") = Some name ∧ get d (u "text") = Some text
      ∧ truthy text = true
      ∧ part = [fstr py_repr name ++ u ":" ++ nl ++ fstr py_repr text].
Proof.
  unfold document_contribution, por.
  destruct (get d (u "text")) as [text|] eqn:Htext; simpl; [|done].
  destruct (truthy text) eqn:Htruthy; simpl.
  - rewrite Htruthy.
    destruct (get d (u "name")) as [name|] eqn:Hname; simpl; [|done].
    intros [= <-]. right. by exists name, text.
  - intros [= <-]. by left.
Qed.

(** The first text of [joined_texts] comes from the first document that
    adds one. *)
Lemma first_contribution (items : list json) (parts : list (list str))
    (first : str) (rest : list str) :
  mapM (document_contribution py_repr) items = Some parts →
  mjoin parts = first :: rest →
  ∃ skipped d later name text,
    items = skipped ++ d :: later
    ∧ Forall (λ d', document_contribution py_repr d' = Some []) skipped
    ∧ get d (u "name") = Some name ∧ get d (u "text") = Some text
    ∧ truthy text = true
    ∧ first = fstr py_repr name ++ u ":" ++ nl ++ fstr py_repr text.
Proof.
  intros Hparts%mapM_Some_1. revert first rest.
  induction Hparts as [|d part items parts Hd _ IH]; intros first rest;
    [done|].
  destruct (document_contribution_cases d part Hd)
    as [->|(name & text & Hname & Htext & Htruthy & ->)]; simpl.
  - intros (skipped & d' & later & name & text & -> & Hsk & H)%IH.
    exists (d :: skipped), d', later, name, text. split; [done|].
    split; [by constructor|done].
  - intros [= <- _]. exists [], d, items, name, text. by repeat split.
Qed.

End blob_facts.

(** C5, as stated, fails on its last part: a short record named [a.txt] with
    the text [hello], followed by a long one, gives a blob of exactly 12,000
    characters that begins with the name of the first document, not with its
    text. *)
Lemma blob_begins_with_name :
  joined_texts sample_repr two_documents
  = Some [u "a.txt:" ++ nl ++ u "hello"; u "b.txt:" ++ nl ++ long_text]
  ∧ 12000 < length (join (nl ++ nl)
                      [u "a.txt:" ++ nl ++ u "hello"; u "b.txt:" ++ nl ++ long_text])
  ∧ length (big_blob [u "a.txt:" ++ nl ++ u "hello"; u "b.txt:" ++ nl ++ long_text])
    = 12000
  ∧ startswith (u "hello")
      (big_blob [u "a.txt:" ++ nl ++ u "hello"; u "b.txt:" ++ nl ++ long_text])
    = false
  ∧ startswith (u "a.txt:")
      (big_blob [u "a.txt:" ++ nl ++ u "hello"; u "b.txt:" ++ nl ++ long_text])
    = true.
Proof.
  split; [by vm_compute|]. split; [|by vm_compute].
  apply Nat.ltb_lt. by vm_compute.
Qed.

(** C5, amended. When the texts of the documents, joined with blank lines in
    document order, are longer than 12,000 characters, the blob is exactly
    their first 12,000 characters; it begins with the text added for the first
    document that has any, which is that document's name, a colon, a line
    feed and then its text, cut where the blob ends. *)
Theorem big_blob_truncates (py_repr : json → str) (documents : json)
    (joined : list str) :
  joined_texts py_repr documents = Some joined →
  12000 < length (join (nl ++ nl) joined) →
  length (big_blob joined) = 12000
  ∧ big_blob joined = take 12000 (join (nl ++ nl) joined)
  ∧ ∃ items skipped d later name text,
      iterate documents = Some items
      ∧ items = skipped ++ d :: later
      ∧ Forall (λ d', document_contribution py_repr d' = Some []) skipped
      ∧ get d (u "name") = Some name ∧ get d (u "text") = Some text
      ∧ truthy text = true
      ∧ take 12000 (fstr py_repr name ++ u ":" ++ nl ++ fstr py_repr text)
        `prefix_of` big_blob joined.
Proof.
  intros Hjoined Hlong. unfold big_blob, slice_to.
  split; [apply length_take_le; lia|]. split; [done|].
  unfold joined_texts in Hjoined.
  destruct (iterate documents) as [items|]; simpl in Hjoined; [|done].
  destruct (mapM (document_contribution py_repr) items) as [parts|] eqn:Hparts;
    simpl in Hjoined; [|done].
  injection Hjoined as <-.
  destruct (mjoin parts) as [|first rest] eqn:Hfirst; [simpl in Hlong; lia|].
  destruct (first_contribution py_repr items parts first rest Hparts Hfirst)
    as (skipped & d & later & name & text & Hitems & Hsk & Hname & Htext
        & Htruthy & ->).
  exists items, skipped, d, later, name, text. repeat split; try done.
  apply prefix_take_mono, join_cons_prefix.
Qed.

Lemma big_blob_truncates_witness :
  length (big_blob [u "a.txt:" ++ nl ++ u "hello"; u "b.txt:" ++ nl ++ long_text])
  = 12000.
Proof.
  refine (proj1 (big_blob_truncates sample_repr two_documents
                   [u "a.txt:" ++ nl ++ u "hello"; u "b.txt:" ++ nl ++ long_text]
                   _ _)).
  - by vm_compute.
  - apply Nat.ltb_lt. by vm_compute.
Defined.

(** ** The UTF-8 decoder and the extractor *)

Section decoder_facts.

Lemma utf8_step_decoded_width (bs : list N) (c : N) (width : nat) :
  utf8_step bs = Decoded c width → 1 ≤ width.
Proof.
  unfold utf8_step. repeat case_match; intros [= <- <-]; lia.
Qed.

Lemma utf8_step_invalid_span (bs : list N) (span : nat) :
  utf8_step bs = Invalid span → 1 ≤ span.
Proof.
  unfold utf8_step. repeat case_match; intros [= <-]; lia.
Qed.

Lemma drop_shorter (bs : list N) (n fuel : nat) :
  1 ≤ n → length bs ≤ S fuel → length (drop n bs) ≤ fuel.
Proof. rewrite length_drop. lia. Qed.

(** With as much fuel as there are bytes the reading is complete. *)
Lemma utf8_marks_total (fuel : nat) (bs : list N) :
  length bs ≤ fuel → is_Some (utf8_marks fuel bs).
Proof.
  revert bs. induction fuel as [|fuel IH]; intros bs Hlen.
  - destruct bs; [by eexists|simpl in Hlen; lia].
  - destruct bs as [|b bs']; [by eexists|]. simpl utf8_marks.
    destruct (utf8_step (b :: bs')) as [c width|span|] eqn:Hstep.
    + apply fmap_is_Some, IH, drop_shorter; [|done].
      by eapply utf8_step_decoded_width.
    + apply fmap_is_Some, IH, drop_shorter; [|done].
      by eapply utf8_step_invalid_span.
    + by eexists.
Qed.

(** Every handler sees the same reading. *)
Lemma utf8_loop_marks (errors : error_handler) (fuel : nat) (bs : list N) :
  utf8_loop fuel errors bs = utf8_marks fuel bs ≫= resolve errors.
Proof.
  revert bs. induction fuel as [|fuel IH]; intros bs.
  - destruct bs; [by destruct errors|done].
  - destruct bs as [|b bs']; [by destruct errors|].
    simpl utf8_loop. simpl utf8_marks.
    destruct (utf8_step (b :: bs')) as [c width|span|].
    + rewrite IH. destruct (utf8_marks fuel _) as [marks|]; [|done].
      destruct errors; simpl; try done.
    + rewrite IH. destruct (utf8_marks fuel _) as [marks|];
        [|by destruct errors].
      by destruct errors.
    + by destruct errors.
Qed.

Lemma decode_utf8_marks (content : list byte) :
  ∃ marks, ∀ errors, decode_utf8 errors content = resolve errors marks.
Proof.
  destruct (utf8_marks_total (length content) (Byte.to_N <$> content))
    as [marks Hmarks]; [by rewrite length_fmap|].
  exists marks. intros errors. unfold decode_utf8.
  by rewrite utf8_loop_marks, Hmarks.
Qed.

(** A reading without reported spans is what the strict handler accepts. *)
Lemma resolve_strict_ignore (marks : list (option N)) (t : str) :
  resolve Strict marks = Some t → omap id marks = t.
Proof.
  simpl. intros H%mapM_Some_1. induction H as [|m c marks t Hm _ IH]; [done|].
  simpl in Hm. subst m. rewrite <- IH. done.
Qed.

End decoder_facts.

(** C7, as stated, fails on the replacement: in a text upload the byte [ff]
    between [a] and [b] cannot be decoded (the strict decoder rejects the
    content); the replacing decoder would put U+FFFD in its place, the
    extractor returns [ab]. *)
Lemma undecodable_byte_dropped :
  startswith (u "text/") (u "text/plain") = true
  ∧ decode_utf8 Strict [x61; xff; x62] = None
  ∧ decode_utf8 Replace [x61; xff; x62] = Some [97; 65533; 98]%N
  ∧ extract_text_from_bytes no_pdf no_docx [x61; xff; x62]
      (Some (u "text/plain")) (u "note.txt")
    = (u "ab", [])
  ∧ u "ab" ≠ [97; 65533; 98]%N.
Proof. repeat split; by vm_compute. Qed.

(** C7, amended. For a declared type that begins with [text/] the extractor
    always returns a string and shows nothing: the bytes are decoded as UTF-8
    and what cannot be decoded is dropped, so the text is the replacing
    decoder's text without the substitutes; content that is valid UTF-8 is
    decoded in full. *)
Theorem extract_text_drops_undecodable
    (pdf_pages : list byte → str + list (option str))
    (docx_paragraphs : list byte → str + list str)
    (content : list byte) (mime name : str) :
  startswith (u "text/") mime = true →
  ∃ marks : list (option N),
    extract_text_from_bytes pdf_pages docx_paragraphs content (Some mime) name
    = (omap id marks, [])
    ∧ decode_utf8 Ignore content = Some (omap id marks)
    ∧ decode_utf8 Replace content = Some (default 65533%N <$> marks)
    ∧ (∀ t, decode_utf8 Strict content = Some t → omap id marks = t).
Proof.
  intros Hmime. destruct (decode_utf8_marks content) as [marks Hmarks].
  exists marks. unfold extract_text_from_bytes.
  change (default [] (Some mime)) with mime. rewrite Hmime.
  rewrite !Hmarks. repeat split. apply resolve_strict_ignore.
Qed.

Lemma extract_text_drops_undecodable_witness :
  ∃ marks : list (option N),
    extract_text_from_bytes no_pdf no_docx [x61; xff; x62]
      (Some (u "text/plain")) (u "note.txt")
    = (omap id marks, [])
    ∧ decode_utf8 Ignore [x61; xff; x62] = Some (omap id marks)
    ∧ decode_utf8 Replace [x61; xff; x62] = Some (default 65533%N <$> marks)
    ∧ (∀ t, decode_utf8 Strict [x61; xff; x62] = Some t → omap id marks = t).
Proof.
  apply (extract_text_drops_undecodable no_pdf no_docx [x61; xff; x62]
           (u "text/plain") (u "note.txt")).
  by vm_compute.
Defined.

(** ** The packet exporter *)

Section packet_facts.

Variable py_repr : json → str.

Lemma join_values_strings (sep : str) (lines : list str) :
  join_values sep (JStr <$> lines) = Some (join sep lines).
Proof.
  unfold join_values.
  assert (mapM as_str (JStr <$> lines) = Some lines) as ->; [|done].
  apply mapM_Some, Forall2_fmap_l, Forall_Forall2_diag, Forall_true. done.
Qed.

Lemma join_elem_infix (sep h : str) (lines : list str) :
  h ∈ lines → ∃ pre post, join sep lines = pre ++ h ++ post.
Proof.
  induction lines as [|l lines IH]; [by intros ?%elem_of_nil|].
  intros [->|Hin]%elem_of_cons.
  - destruct lines as [|l' lines]; simpl.
    + exists [], []. by rewrite (right_id_L [] (++)).
    + by exists [], (sep ++ join sep (l' :: lines)).
  - destruct (IH Hin) as (pre & post & E).
    destruct lines as [|l' lines]; [by apply elem_of_nil in Hin|].
    exists (l ++ sep ++ pre), post.
    change (join sep (l :: l' :: lines)) with (l ++ sep ++ join sep (l' :: lines)).
    rewrite E. by rewrite <- !(assoc_L (++)).
Qed.

Lemma profile_line_record (fields : gmap str json) (key label : str) :
  ∃ lines : list str,
    profile_line py_repr (JObj fields) key label = Some (JStr <$> lines).
Proof.
  unfold profile_line. simpl.
  destruct (truthy _); [by eexists [_]|by exists []].
Qed.

Lemma profile_lines_record (prof : json) :
  is_record prof = true →
  ∃ lines : list str, profile_lines py_repr prof = Some (JStr <$> lines).
Proof.
  destruct prof as [| | | | | |fields]; try done. intros _.
  unfold profile_lines.
  destruct (profile_line_record fields (u "full_name") (u "Name: ")) as [l1 ->].
  destruct (profile_line_record fields (u "branch") (u "Branch: ")) as [l2 ->].
  destruct (profile_line_record fields (u "service_dates") (u "Service dates: "))
    as [l3 ->].
  destruct (profile_line_record fields (u "deployment_locations")
              (u "Deployments: ")) as [l4 ->].
  destruct (profile_line_record fields (u "mos_duties") (u "Duties / MOS: "))
    as [l5 ->].
  destruct (profile_line_record fields (u "other_notes")
              (u "Additional notes: ")) as [l6 ->].
  exists (l1 ++ l2 ++ l3 ++ l4 ++ l5 ++ l6). simpl. by rewrite !fmap_app.
Qed.

Lemma por_text_or_empty (v : json) (dflt : str) :
  text_or_empty v = true → ∃ s, por v (JStr dflt) = JStr s.
Proof.
  unfold por, text_or_empty.
  destruct v; try (intros ->%negb_true_iff; by eexists); intros _;
    destruct (truthy _); by eexists.
Qed.

Lemma issue_line_record (i : json) :
  is_record i && text_or_empty (field i (u "details")) = true →
  ∃ lines : list str, issue_line py_repr i = Some (JStr <$> lines).
Proof.
  intros [Hrec Hdetails]%andb_prop.
  destruct i as [| | | | | |fields]; try done. simpl in Hdetails.
  unfold issue_line. simpl.
  destruct (truthy (default JNull (fields !! u "label"))); [|by exists []].
  destruct (por_text_or_empty _ [] Hdetails) as [d Hd]. rewrite Hd.
  unfold detail_suffix. destruct (truthy (JStr d)); by eexists [_].
Qed.

Lemma mapping_line_record (m : json) :
  is_record m && true = true →
  ∃ lines : list str, mapping_line py_repr m = Some (JStr <$> lines).
Proof.
  intros [Hrec _]%andb_prop. destruct m; try done. by eexists [_].
Qed.

Lemma claim_lines_record (c : json) :
  is_record c && text_or_empty (field c (u "body")) = true →
  ∃ lines : list str, claim_lines py_repr c = Some (JStr <$> lines).
Proof.
  intros [Hrec Hbody]%andb_prop.
  destruct c as [| | | | | |fields]; try done. simpl in Hbody.
  unfold claim_lines. simpl.
  destruct (por_text_or_empty _ [] Hbody) as [b ->].
  by eexists [_; _; _; _; _; _].
Qed.

(** A loop whose every turn appends strings appends strings. *)
Lemma for_lines_records (body : json → option (list json)) (ok : json → bool)
    (v : json) :
  (∀ i, is_record i && ok i = true →
        ∃ lines : list str, body i = Some (JStr <$> lines)) →
  records ok v = true →
  ∃ lines : list str, for_lines body v = Some (JStr <$> lines).
Proof.
  intros Hbody. destruct v as [| | | | |items|]; try done. simpl.
  intros Hitems. unfold for_lines. simpl.
  induction items as [|i items IH]; [by exists []|].
  simpl in Hitems. apply andb_prop in Hitems as [Hi Hitems].
  destruct (Hbody i Hi) as [l Hl]. destruct (IH Hitems) as [ls Hls].
  exists (l ++ ls). simpl. rewrite Hl. simpl.
  destruct (mapM body items) as [parts|]; [|done]. simpl in *.
  injection Hls as ->. by rewrite fmap_app.
Qed.

End packet_facts.

Lemma join_cons_cons (sep a b : str) (lines : list str) :
  join sep (a :: b :: lines) = a ++ sep ++ join sep (b :: lines).
Proof. reflexivity. Qed.

Lemma build_full_claim_packet_lines (py_repr : json → str) (now : str)
    (app_data : gmap str json) (lines : list str) :
  packet_lines py_repr now app_data = Some (JStr <$> lines) →
  build_full_claim_packet py_repr now app_data = Some (join nl lines).
Proof.
  intros H. unfold build_full_claim_packet. rewrite H.
  apply join_values_strings.
Qed.

(** Finds a line in a list written as literal lines and appended parts. *)
Ltac find_line :=
  cbn [app];
  repeat first [ apply list_elem_of_here
               | apply list_elem_of_further
               | (apply elem_of_app; right; cbn [app]) ].

(** C9. For an aggregate of the data model's shape the exporter returns a
    packet, and the packet depends on the clock only through its second line:
    it is the title, the line [Generated: <now>Z] and a body that is the same
    for every reading of the clock.  The body lists, in this order, the
    profile, the claimed issues, the mappings, the evidence summary and the
    saved statements, each under its header whether or not it has any entry,
    so every header is a line of the packet; the line under the evidence
    header is the summary, or the placeholder when the summary is missing or
    empty. *)
Theorem packet_export (py_repr : json → str) (app_data : gmap str json) :
  aggregate_typed app_data = true →
  ∃ (profile issues mappings statements : list str) (summary : str)
    (rest : list str) (body : str),
    rest = [[]; u "Veteran profile"; u "----------------"] ++ profile
           ++ [[]; u "Claimed issues"; u "-------------"] ++ issues
           ++ [[]; u "Symptom to condition mappings";
               u "-----------------------------"] ++ mappings
           ++ [[]; u "Evidence summary"; u "----------------"; summary; [];
               u "Saved personal statements"; u "-------------------------"]
           ++ statements
    ∧ por (lookup_or app_data (u "evidence_summary") (JStr []))
          (JStr no_summary) = JStr summary
    ∧ body = join nl rest
    ∧ (∀ now, packet_lines py_repr now app_data
              = Some (JStr <$> (u "VA ClaimMate Claim Packet"
                                :: (u "Generated: " ++ now ++ u "Z") :: rest)))
    ∧ (∀ now, build_full_claim_packet py_repr now app_data
              = Some (u "VA ClaimMate Claim Packet" ++ nl
                      ++ (u "Generated: " ++ now ++ u "Z") ++ nl ++ body))
    ∧ Forall (λ h, h ∈ rest ∧ ∃ pre post, body = pre ++ h ++ post)
        section_headers.
Proof.
  intros Htyped. unfold aggregate_typed in Htyped.
  apply andb_prop in Htyped as [Htyped Hsummary].
  apply andb_prop in Htyped as [Htyped Hclaims].
  apply andb_prop in Htyped as [Htyped Hmappings].
  apply andb_prop in Htyped as [Hprof Hissues].
  destruct (profile_lines_record py_repr _ Hprof) as [profile Hprofile].
  destruct (for_lines_records (issue_line py_repr) _ _
              (issue_line_record py_repr) Hissues) as [issues Hi].
  destruct (for_lines_records (mapping_line py_repr) _ _
              (mapping_line_record py_repr) Hmappings) as [mappings Hm].
  destruct (for_lines_records (claim_lines py_repr) _ _
              (claim_lines_record py_repr) Hclaims) as [statements Hc].
  destruct (por_text_or_empty _ no_summary Hsummary) as [summary Hs].
  eexists profile, issues, mappings, statements, summary, _, _.
  split; [reflexivity|]. split; [exact Hs|]. split; [reflexivity|].
  assert (∀ now, packet_lines py_repr now app_data
                 = Some (JStr <$> (u "VA ClaimMate Claim Packet"
                                   :: (u "Generated: " ++ now ++ u "Z")
                                   :: [[]; u "Veteran profile"; u "----------------"]
                                   ++ profile
                                   ++ [[]; u "Claimed issues"; u "-------------"]
                                   ++ issues
                                   ++ [[]; u "Symptom to condition mappings";
                                       u "-----------------------------"]
                                   ++ mappings
                                   ++ [[]; u "Evidence summary";
                                       u "----------------"; summary; [];
                                       u "Saved personal statements";
                                       u "-------------------------"]
                                   ++ statements))) as Hlines.
  { intros now. unfold packet_lines.
    rewrite Hprofile, Hi, Hm, Hc, Hs. cbn.
    repeat (rewrite fmap_app || rewrite fmap_cons). done. }
  split; [exact Hlines|]. split.
  - intros now. rewrite (build_full_claim_packet_lines _ _ _ _ (Hlines now)).
    cbn [app]. by do 2 rewrite join_cons_cons.
  - unfold section_headers. repeat constructor; try find_line.
    all: apply join_elem_infix; find_line.
Qed.

(** The freshly loaded workspace has no claim, an empty profile and no
    mapping: its packet still has every header, and the placeholder. *)
Example packet_of_fresh_workspace :
  build_full_claim_packet sample_repr (u "2024-05-01T10:00:00") fresh_workspace
  = Some (join nl
            [u "VA ClaimMate Claim Packet";
             u "Generated: 2024-05-01T10:00:00Z";
             []; u "Veteran profile"; u "----------------";
             []; u "Claimed issues"; u "-------------";
             []; u "Symptom to condition mappings";
             u "-----------------------------";
             []; u "Evidence summary"; u "----------------";
             u "[No summary prepared yet]"; [];
             u "Saved personal statements"; u "-------------------------"]).
Proof. by vm_compute. Qed.

Lemma packet_export_witness :
  aggregate_typed fresh_workspace = true
  ∧ ∃ body, ∀ now,
      build_full_claim_packet sample_repr now fresh_workspace
      = Some (u "VA ClaimMate Claim Packet" ++ nl
              ++ (u "Generated: " ++ now ++ u "Z") ++ nl ++ body).
Proof.
  split; [by vm_compute|].
  destruct (packet_export sample_repr fresh_workspace)
    as (profile & issues & mappings & statements & summary & rest & body
        & _ & _ & _ & _ & Hpacket & _); [by vm_compute|].
  by exists body.
Defined.

(** ** Loading and saving the aggregate *)


(** X1. When the data file is missing or unreadable, or its text is not
    JSON, loading gives exactly the defaults. *)
Theorem load_app_data_fallback (json_loads : str → option json)
    (file : option str) :
  (∀ text, file = Some text → json_loads text = None) →
  load_app_data json_loads file = Some (JObj defaults_map).
Proof.
  intros H. destruct file as [text|].
  - by apply load_app_data_unparsable, H.
  - apply load_app_data_missing.
Qed.

Lemma load_app_data_fallback_witness :
  load_app_data sample_loads (Some (u "not json")) = Some (JObj defaults_map).
Proof.
  apply load_app_data_fallback. intros text [= <-]. by vm_compute.
Defined.

(** ** Uploads: the ids stay distinct *)

Section upload_invariant.

Variable pdf_pages : list byte → str + list (option str).
Variable docx_paragraphs : list byte → str + list str.

Lemma document_ids_existing (documents : list json) (ids : list str) :
  document_ids documents = Some ids →
  mapM (λ d, get d (u "id")) documents = Some (JStr <$> ids).
Proof.
  intros H%mapM_Some_1. apply mapM_Some_2.
  induction H as [|d id documents ids Hd _ IH]; [constructor|].
  rewrite fmap_cons. constructor; [|done].
  unfold id_of in Hd. destruct (get d (u "id")) as [[]|]; by simplify_eq/=.
Qed.

Lemma existsb_is_id (id : str) (ids : list str) :
  existsb (is_id id) (JStr <$> ids) = bool_decide (id ∈ ids).
Proof.
  induction ids as [|i ids IH]; [done|]. rewrite fmap_cons. simpl.
  rewrite IH, <- bool_decide_or. apply bool_decide_ext.
  rewrite elem_of_cons. split; intros [->|?]; auto.
Qed.

Lemma document_ids_snoc (documents : list json) (ids : list str)
    (up : upload) (now text : str) :
  document_ids documents = Some ids →
  document_ids (documents ++ [doc_entry up now text])
  = Some (ids ++ [doc_id up]).
Proof.
  intros H%mapM_Some_1. apply mapM_Some_2, Forall2_app; [done|].
  by constructor.
Qed.

(** One upload against documents with distinct ids: it is skipped when its
    id is there, appended when it is not. *)
Lemma store_upload_ids (documents : list json) (ids : list str)
    (up : upload) (now : str) :
  document_ids documents = Some ids →
  ∃ documents' shown,
    store_upload pdf_pages docx_paragraphs documents up now
    = Some (documents', shown)
    ∧ ((doc_id up ∈ ids ∧ documents' = documents)
       ∨ ((doc_id up ∉ ids)
          ∧ (∃ text, documents' = documents ++ [doc_entry up now text])
          ∧ document_ids documents' = Some (ids ++ [doc_id up]))).
Proof.
  intros Hids. unfold store_upload.
  rewrite (document_ids_existing _ _ Hids). simpl. rewrite existsb_is_id.
  case_bool_decide as Hin.
  - eexists _, _. split; [done|]. by left.
  - destruct (extract_text_from_bytes _ _ _ _ _) as [text shown].
    eexists _, _. split; [done|]. right. split; [done|].
    split; [by exists text|]. by apply document_ids_snoc.
Qed.

End upload_invariant.

(** X4. Uploading keeps the ids distinct.  When the stored documents are
    records with distinct text ids, any batch of uploads is processed
    without an exception; afterwards the documents are the old ones followed
    by at most one new entry per upload, their ids are still distinct, and
    the id of every upload of the batch is among them.  No other key of the
    aggregate changes. *)
Theorem store_uploads_distinct_ids
    (pdf_pages : list byte → str + list (option str))
    (docx_paragraphs : list byte → str + list str)
    (uploads : list (upload * str)) (app_data : gmap str json)
    (documents : list json) (ids : list str) :
  app_data !! u "documents" = Some (JArr documents) →
  document_ids documents = Some ids →
  NoDup ids →
  ∃ added ids' shown,
    store_uploads pdf_pages docx_paragraphs app_data uploads
    = Some (<[u "documents" := JArr (documents ++ added)]> app_data, shown)
    ∧ length added ≤ length uploads
    ∧ document_ids (documents ++ added) = Some (ids ++ ids')
    ∧ NoDup (ids ++ ids')
    ∧ Forall (λ un : upload * str, doc_id un.1 ∈ ids ++ ids') uploads.
Proof.
  revert app_data documents ids.
  induction uploads as [|[up now] uploads IH];
    intros app_data documents ids Hdocs Hids Hnodup.
  - exists [], [], []. rewrite !(right_id_L [] (++)). simpl.
    rewrite insert_id by done. by repeat split.
  - simpl. rewrite Hdocs.
    destruct (store_upload_ids pdf_pages docx_paragraphs documents ids up now
                Hids)
      as (documents' & shown & -> & Hcase). simpl.
    destruct Hcase as [[Hin ->]|(Hnotin & [text ->] & Hids')].
    + destruct (IH (<[u "documents" := JArr documents]> app_data)
                  documents ids) as (added & ids' & shown' & -> & Hlen & Hids2
                                     & Hnodup2 & Hall);
        [by rewrite lookup_insert_eq|done|done|].
      exists added, ids', (shown ++ shown'). simpl.
      rewrite insert_insert_eq. repeat split; try done; [lia|].
      constructor; [|done]. simpl. set_solver.
    + destruct (IH (<[u "documents" := JArr (documents ++ [doc_entry up now text])]>
                      app_data)
                  (documents ++ [doc_entry up now text]) (ids ++ [doc_id up]))
        as (added & ids' & shown' & -> & Hlen & Hids2 & Hnodup2 & Hall);
        [by rewrite lookup_insert_eq|done| |].
      { apply NoDup_app. split; [done|]. split; [|apply NoDup_singleton].
        intros x Hx ->%list_elem_of_singleton. done. }
      exists (doc_entry up now text :: added), (doc_id up :: ids'),
        (shown ++ shown'). simpl.
      rewrite insert_insert_eq, <- !(assoc_L (++)) in *. simpl in *.
      repeat split; try done; [lia|].
      constructor; [|done]. simpl. set_solver.
Qed.

Lemma store_uploads_distinct_ids_witness :
  ∃ added ids' shown,
    store_uploads no_pdf no_docx fresh_workspace
      [(upload_a, u "2024-05-01T10:00:00"); (upload_b, u "2024-05-01T10:00:07")]
    = Some (<[u "documents" := JArr ([] ++ added)]> fresh_workspace, shown)
    ∧ length added ≤ 2
    ∧ document_ids ([] ++ added) = Some ([] ++ ids')
    ∧ NoDup ([] ++ ids')
    ∧ Forall (λ un : upload * str, doc_id un.1 ∈ [] ++ ids')
        [(upload_a, u "2024-05-01T10:00:00");
         (upload_b, u "2024-05-01T10:00:07")].
Proof.
  apply (store_uploads_distinct_ids no_pdf no_docx
           [(upload_a, u "2024-05-01T10:00:00");
            (upload_b, u "2024-05-01T10:00:07")] fresh_workspace [] []).
  - by vm_compute.
  - done.
  - constructor.
Defined.

(** ** No action removes a key *)

Section keys_facts.

Variable py_repr : json → str.
Variable json_loads : str → option json.
Variable complete : request → reply.
Variable pdf_pages : list byte → str + list (option str).
Variable docx_paragraphs : list byte → str + list str.
Variable py_eq : json → json → bool.

Lemma insert_keeps_key (A : gmap str json) (j k : str) (v : json) :
  is_Some (A !! k) → is_Some (<[j := v]> A !! k).
Proof. intros H. apply lookup_insert_is_Some'. by right. Qed.

Lemma store_uploads_keeps_key (uploads : list (upload * str))
    (A A' : gmap str json) (shown : list ui_event) (k : str) :
  store_uploads pdf_pages docx_paragraphs A uploads = Some (A', shown) →
  is_Some (A !! k) → is_Some (A' !! k).
Proof.
  revert A shown. induction uploads as [|[up now] uploads IH];
    intros A shown; simpl.
  - by intros [= <- _].
  - destruct (A !! u "documents") as [[| | | | |documents|]|]; try done.
    destruct (store_upload _ _ _ _ _) as [[documents' shown1]|]; [|done].
    simpl.
    destruct (store_uploads _ _ _ uploads) as [[A1 shown2]|] eqn:Hrest;
      [|done].
    simpl. intros [= <- _] Hk. eapply IH; [done|]. by apply insert_keeps_key.
Qed.

End keys_facts.

(** X5. No action of [main] removes a top-level key: a key the aggregate
    holds is still there after the profile and issues are set, uploads are
    stored, the evidence summary is built or edited, the symptom note is set,
    symptoms are analysed, conditions are linked, and a statement is saved or
    removed.  So the keys back-filled at loading can be indexed directly
    throughout. *)
Theorem actions_keep_keys (py_repr : json → str)
    (json_loads : str → option json) (complete : request → reply)
    (pdf_pages : list byte → str + list (option str))
    (docx_paragraphs : list byte → str + list str)
    (py_eq : json → json → bool) (A : gmap str json) (k : str) :
  is_Some (A !! k) →
  (∀ form A', set_profile form A = Some A' → is_Some (A' !! k))
  ∧ (∀ text, is_Some (set_issues text A !! k))
  ∧ (∀ uploads A' shown,
       store_uploads pdf_pages docx_paragraphs A uploads = Some (A', shown) →
       is_Some (A' !! k))
  ∧ (∀ A' current shown,
       build_evidence_summary py_repr complete A = Some (A', current, shown) →
       is_Some (A' !! k))
  ∧ (∀ text, is_Some (set_evidence_summary text A !! k))
  ∧ (∀ note, is_Some (set_symptom_note note A !! k))
  ∧ (∀ note, is_Some ((analyze_symptoms json_loads complete note A).1 !! k))
  ∧ (∀ selected A', link_conditions py_eq selected A = Some A' →
       is_Some (A' !! k))
  ∧ (∀ timestamp now title statement A' shown,
       save_statement timestamp now title statement A = Some (A', shown) →
       is_Some (A' !! k))
  ∧ (∀ pressed A' shown,
       remove_statements py_eq pressed A = Some (A', shown) →
       is_Some (A' !! k)).
Proof.
  intros Hk. repeat split.
  - intros form A'. unfold set_profile. case_match; try done.
    intros [= <-]. by apply insert_keeps_key.
  - intros text. by apply insert_keeps_key.
  - intros uploads A' shown H. by eapply store_uploads_keeps_key.
  - intros A' current shown. unfold build_evidence_summary.
    destruct (A !! u "documents") as [documents|]; [|done]. simpl.
    destruct (joined_texts py_repr documents) as [joined|]; [|done]. simpl.
    case_bool_decide; [by intros [= <- _ _]|].
    destruct (call_gpt _ _ _ _ _). intros [= <- _ _].
    by apply insert_keeps_key.
  - intros text. by apply insert_keeps_key.
  - intros note. by apply insert_keeps_key.
  - intros note. rewrite analyze_symptoms_unfold.
    case_bool_decide; [done|]. cbv zeta.
    case_bool_decide; [done|]. by apply insert_keeps_key.
  - intros selected A'. unfold link_conditions.
    destruct (A !! u "symptom_mappings") as [mappings|]; [|done]. simpl.
    destruct (truthy mappings); [|by intros [= <-]].
    destruct (iterate mappings) as [items|]; [|done]. simpl.
    destruct (mapM _ items); [|done]. simpl. intros [= <-].
    by apply insert_keeps_key.
  - intros timestamp now title statement A' shown. unfold save_statement.
    case_bool_decide; [by intros [= <- _]|].
    destruct (A !! u "claims") as [[| | | | |claims|]|]; try done.
    intros [= <- _]. by apply insert_keeps_key.
  - intros pressed A' shown. unfold remove_statements.
    destruct (negb _); [by intros [= <- _]|].
    destruct (iterate _) as [items|]; [|done]. simpl.
    destruct (mapM _ items) as [ids|]; [|done]. simpl.
    case_bool_decide; [by intros [= <- _]|]. intros [= <- _].
    by apply insert_keeps_key.
Qed.

Lemma actions_keep_keys_witness :
  is_Some (set_issues (u "asthma") fresh_workspace !! u "documents").
Proof.
  refine (proj1 (proj2 (actions_keep_keys sample_repr sample_loads unreachable
                          no_pdf no_docx sample_eq fresh_workspace
                          (u "documents") _)) (u "asthma")).
  vm_compute. by eexists.
Defined.

(** ** The gateway call *)

(** X6. [call_gpt] never raises and always returns a stripped text.  When
    the gateway, asked with the given model and temperature and no limit on
    the tokens, replies with a content, the text is that content stripped and
    nothing is shown; in every other case (the call failed, or the reply has
    no content) the text is empty and exactly one message is shown, which
    begins with [Model error: ]. *)
Theorem call_gpt_stripped (complete : request → reply)
    (system_prompt user_prompt model : str) (temperature : N) :
  strip (call_gpt complete system_prompt user_prompt model temperature).1
  = (call_gpt complete system_prompt user_prompt model temperature).1
  ∧ (∀ content,
       complete {| req_model := model; req_temperature := temperature;
                   req_max_tokens := None; req_system := system_prompt;
                   req_user := user_prompt |} = Completed (Some content) →
       call_gpt complete system_prompt user_prompt model temperature
       = (strip content, []))
  ∧ ((∀ content,
        complete {| req_model := model; req_temperature := temperature;
                    req_max_tokens := None; req_system := system_prompt;
                    req_user := user_prompt |} ≠ Completed (Some content)) →
     ∃ e, call_gpt complete system_prompt user_prompt model temperature
          = ([], [StError (u "Model error: " ++ e)])
          ∧ (∀ e', complete
                     {| req_model := model; req_temperature := temperature;
                        req_max_tokens := None; req_system := system_prompt;
                        req_user := user_prompt |} = Failed e' → e = e')).
Proof.
  pose proof (call_gpt_cases complete system_prompt user_prompt model
                temperature) as Hcases.
  destruct (complete _) as [e|[content|]]; rewrite Hcases; cbn [fst].
  - split; [done|]. split; [done|]. intros _. exists e. split; [done|].
    by intros e' [= <-].
  - split; [apply strip_idemp|]. split; [by intros ? [= <-]|].
    intros Hnot. by destruct (Hnot content).
  - split; [done|]. split; [done|]. intros _. eexists. split; [done|]. done.
Qed.

(** ** The extractor, beyond text types *)

Section extractor_facts.

Variable pdf_pages : list byte → str + list (option str).
Variable docx_paragraphs : list byte → str + list str.

(** Every declared type other than the PDF and the word-processor type is
    decoded. *)
Lemma extract_text_decoded (content : list byte) (mime : option str)
    (name : str) :
  default [] mime ≠ u "application/pdf" →
  default [] mime ≠ docx_mime →
  extract_text_from_bytes pdf_pages docx_paragraphs content mime name
  = (default [] (decode_utf8 Ignore content), []).
Proof.
  intros Hpdf Hdocx. unfold extract_text_from_bytes.
  destruct (startswith (u "text/") (default [] mime)); [done|].
  by rewrite !bool_decide_false.
Qed.

Lemma utf8_step_ascii (b : N) (rest : list N) :
  (b < 128)%N → utf8_step (b :: rest) = Decoded b 1.
Proof. intros H%N.ltb_lt. unfold utf8_step. by rewrite H. Qed.

Lemma utf8_loop_ascii (errors : error_handler) (bs : list N) (fuel : nat) :
  Forall (λ b, (b < 128)%N) bs → length bs ≤ fuel →
  utf8_loop fuel errors bs = Some bs.
Proof.
  intros Hbs. revert fuel. induction Hbs as [|b bs Hb _ IH]; intros fuel Hlen.
  - by destruct fuel.
  - destruct fuel as [|fuel]; [simpl in Hlen; lia|]. simpl utf8_loop.
    rewrite (utf8_step_ascii _ _ Hb). simpl. rewrite drop_0.
    rewrite IH by (simpl in Hlen; lia). done.
Qed.

Lemma utf8_marks_length (fuel : nat) (bs : list N) (marks : list (option N)) :
  utf8_marks fuel bs = Some marks → length marks ≤ length bs.
Proof.
  revert bs marks. induction fuel as [|fuel IH]; intros bs marks.
  - destruct bs; [by intros [= <-]|done].
  - destruct bs as [|b bs']; [by intros [= <-]|]. simpl utf8_marks.
    destruct (utf8_step (b :: bs')) as [c width|span|] eqn:Hstep.
    + destruct (utf8_marks fuel _) as [marks'|] eqn:Hm; [|done].
      intros [= <-]. apply IH in Hm. rewrite length_drop in Hm.
      apply utf8_step_decoded_width in Hstep. simpl length in *. lia.
    + destruct (utf8_marks fuel _) as [marks'|] eqn:Hm; [|done].
      intros [= <-]. apply IH in Hm. rewrite length_drop in Hm.
      apply utf8_step_invalid_span in Hstep. simpl length in *. lia.
    + intros [= <-]. simpl. lia.
Qed.

Lemma length_omap_id (marks : list (option N)) :
  length (omap id marks) ≤ length marks.
Proof.
  induction marks as [|[c|] marks IH]; cbn in *; lia.
Qed.

Lemma decode_utf8_ignore_length (content : list byte) :
  length (default [] (decode_utf8 Ignore content)) ≤ length content.
Proof.
  unfold decode_utf8. rewrite utf8_loop_marks.
  destruct (utf8_marks _ _) as [marks|] eqn:Hm; simpl; [|lia].
  apply utf8_marks_length in Hm. rewrite length_fmap in Hm.
  pose proof (length_omap_id marks). lia.
Qed.

End extractor_facts.

(** X7. A declared type that is missing, or that is neither textual nor the
    PDF or word-processor type, is handled exactly like plain text. *)
Theorem extract_text_fallback
    (pdf_pages : list byte → str + list (option str))
    (docx_paragraphs : list byte → str + list str)
    (content : list byte) (mime : option str) (name : str) :
  default [] mime ≠ u "application/pdf" →
  default [] mime ≠ docx_mime →
  extract_text_from_bytes pdf_pages docx_paragraphs content mime name
  = extract_text_from_bytes pdf_pages docx_paragraphs content
      (Some (u "text/plain")) name.
Proof.
  intros Hpdf Hdocx.
  rewrite (extract_text_decoded _ _ _ _ _ Hpdf Hdocx). symmetry.
  apply extract_text_decoded; by vm_compute.
Qed.

Lemma extract_text_fallback_witness :
  extract_text_from_bytes no_pdf no_docx [x61; xff; x62] None (u "scan.bin")
  = extract_text_from_bytes no_pdf no_docx [x61; xff; x62]
      (Some (u "text/plain")) (u "scan.bin").
Proof. apply extract_text_fallback; by vm_compute. Defined.

(** X8. Content made of ASCII bytes is extracted unchanged, character for
    byte, for every declared type that is decoded. *)
Theorem extract_text_ascii
    (pdf_pages : list byte → str + list (option str))
    (docx_paragraphs : list byte → str + list str)
    (content : list byte) (mime : option str) (name : str) :
  default [] mime ≠ u "application/pdf" →
  default [] mime ≠ docx_mime →
  Forall (λ b, (Byte.to_N b < 128)%N) content →
  extract_text_from_bytes pdf_pages docx_paragraphs content mime name
  = (Byte.to_N <$> content, []).
Proof.
  intros Hpdf Hdocx Hascii.
  rewrite (extract_text_decoded _ _ _ _ _ Hpdf Hdocx).
  unfold decode_utf8. rewrite utf8_loop_ascii; [done| |by rewrite length_fmap].
  by apply Forall_fmap.
Qed.

Lemma extract_text_ascii_witness :
  extract_text_from_bytes no_pdf no_docx [x61; x62] (Some (u "text/plain"))
    (u "note.txt")
  = (Byte.to_N <$> [x61; x62], []).
Proof.
  apply extract_text_ascii; [by vm_compute|by vm_compute|].
  repeat constructor.
Defined.

(** X9. The text extracted by decoding never has more characters than the
    content has bytes. *)
Theorem extract_text_length
    (pdf_pages : list byte → str + list (option str))
    (docx_paragraphs : list byte → str + list str)
    (content : list byte) (mime : option str) (name : str) :
  default [] mime ≠ u "application/pdf" →
  default [] mime ≠ docx_mime →
  length (extract_text_from_bytes pdf_pages docx_paragraphs content mime name).1
  ≤ length content.
Proof.
  intros Hpdf Hdocx. rewrite (extract_text_decoded _ _ _ _ _ Hpdf Hdocx).
  apply decode_utf8_ignore_length.
Qed.

Lemma extract_text_length_witness :
  length (extract_text_from_bytes no_pdf no_docx [x61; xff; x62]
            (Some (u "text/plain")) (u "note.txt")).1
  ≤ length [x61; xff; x62].
Proof. apply extract_text_length; by vm_compute. Defined.

(** X10. Whatever the declared type, the extractor shows at most one
    warning, and when it shows one the extracted text is empty: a PDF or
    word-processor file that cannot be read is reported by name and
    contributes no text. *)
Theorem extract_text_warning
    (pdf_pages : list byte → str + list (option str))
    (docx_paragraphs : list byte → str + list str)
    (content : list byte) (mime : option str) (name : str) :
  (extract_text_from_bytes pdf_pages docx_paragraphs content mime name).2 = []
  ∨ ((extract_text_from_bytes pdf_pages docx_paragraphs content mime name).1
     = []
     ∧ ∃ kind e,
         (extract_text_from_bytes pdf_pages docx_paragraphs content mime name).2
         = [StWarning (kind ++ u " reading failed for " ++ name ++ u ": " ++ e)]
         ∧ (kind = u "PDF" ∨ kind = u "DOCX")).
Proof.
  unfold extract_text_from_bytes.
  destruct (startswith _ _); [by left|].
  case_bool_decide.
  - destruct (pdf_pages content) as [e|pages]; [|by left].
    right. split; [done|]. exists (u "PDF"), e. split; [done|by left].
  - case_bool_decide; [|by left].
    destruct (docx_paragraphs content) as [e|paras]; [|by left].
    right. split; [done|]. exists (u "DOCX"), e. split; [done|by right].
Qed.

(** ** Tab 1: the issues area and the profile *)

Section splitlines_facts.

Lemma splitlines_from_clean (s cur : str) :
  no_linebreak s →
  splitlines_from cur s = if bool_decide (cur ++ s = []) then [] else [cur ++ s].
Proof.
  intros Hs. revert cur. induction Hs as [|c s Hc _ IH]; intros cur; simpl.
  - by rewrite (right_id_L [] (++)).
  - rewrite Hc, IH, <- (assoc_L (++)). done.
Qed.

Lemma splitlines_from_line (l rest cur : str) :
  no_linebreak l →
  splitlines_from cur (l ++ nl ++ rest) = (cur ++ l) :: splitlines_from [] rest.
Proof.
  intros Hl. revert cur. induction Hl as [|c l Hc _ IH]; intros cur; simpl.
  - rewrite (right_id_L [] (++)). by destruct rest.
  - rewrite Hc, IH, <- (assoc_L (++)). done.
Qed.

(** Joining lines with line feeds and splitting again gives the lines back,
    when no line is empty or holds a line boundary. *)
Lemma splitlines_join (lines : list str) :
  Forall (λ l, l ≠ [] ∧ no_linebreak l) lines →
  splitlines (join nl lines) = lines.
Proof.
  unfold splitlines. induction 1 as [|l lines [Hne Hl] Hlines IH]; [done|].
  destruct lines as [|l' lines].
  - simpl. rewrite (splitlines_from_clean _ _ Hl). simpl.
    by rewrite bool_decide_false.
  - change (join nl (l :: l' :: lines)) with (l ++ nl ++ join nl (l' :: lines)).
    rewrite (splitlines_from_line _ _ _ Hl). by rewrite IH.
Qed.

Lemma splitlines_from_no_linebreak (n : nat) (s cur : str) :
  length s ≤ n → no_linebreak cur →
  Forall no_linebreak (splitlines_from cur s).
Proof.
  revert s cur. induction n as [|n IH]; intros s cur Hlen Hcur.
  - destruct s; [|simpl in Hlen; lia]. simpl.
    case_bool_decide; by repeat constructor.
  - destruct s as [|c s]; simpl.
    { case_bool_decide; by repeat constructor. }
    simpl in Hlen. destruct (is_linebreak c) eqn:Hc.
    + constructor; [done|]. destruct s as [|c' s'].
      * by constructor.
      * destruct ((c =? 13)%N && (c' =? 10)%N).
        -- apply IH; [simpl in Hlen; lia|constructor].
        -- apply IH; [lia|constructor].
    + apply IH; [lia|]. apply Forall_app. split; [done|]. by repeat constructor.
Qed.

Lemma splitlines_no_linebreak (s : str) : Forall no_linebreak (splitlines s).
Proof. by apply (splitlines_from_no_linebreak (length s)); [|constructor]. Qed.

Lemma lstrip_Forall (P : N → Prop) (s : str) : Forall P s → Forall P (lstrip s).
Proof.
  induction 1 as [|c s Hc Hs IH]; simpl; [done|].
  destruct (is_space c); [done|by constructor].
Qed.

Lemma strip_Forall (P : N → Prop) (s : str) : Forall P s → Forall P (strip s).
Proof.
  intros H. unfold strip, rstrip.
  by apply Forall_reverse, lstrip_Forall, Forall_reverse, lstrip_Forall.
Qed.

End splitlines_facts.

Lemma issues_text_default_set_issues (text : str) (A : gmap str json) :
  issues_text_default (set_issues text A)
  = Some (join nl (filter (λ l, l ≠ []) (strip <$> splitlines text))).
Proof.
  unfold issues_text_default, set_issues, lookup_or.
  rewrite lookup_insert_eq. simpl. rewrite new_issues_filter.
  set (labels := filter _ _).
  assert (mapM (λ i, get_or i (u "label") (JStr [])) (issue_entry <$> labels)
          = Some (JStr <$> labels)) as ->.
  { apply mapM_Some_2, Forall2_fmap, Forall_Forall2_diag, Forall_true.
    intros l. done. }
  apply join_values_strings.
Qed.

(** X11. The issues survive the round trip through their text area: the
    text the area is filled with on the next run (the stored labels, one per
    line) regenerates exactly the stored issues, so a run in which the user
    edits nothing leaves the issues as they are. *)
Theorem issues_round_trip (text : str) (A : gmap str json) :
  ∃ text',
    issues_text_default (set_issues text A) = Some text'
    ∧ new_issues text' = new_issues text
    ∧ set_issues text' (set_issues text A) = set_issues text A.
Proof.
  eexists. split; [apply issues_text_default_set_issues|].
  assert (new_issues (join nl (filter (λ l, l ≠ []) (strip <$> splitlines text)))
          = new_issues text) as Hsame.
  { rewrite !new_issues_filter. f_equal.
    set (labels := filter (λ l, l ≠ []) (strip <$> splitlines text)).
    assert (Forall (λ l, l ≠ [] ∧ no_linebreak l ∧ strip l = l) labels)
      as Hlabels.
    { apply Forall_forall. intros l [Hne Hin]%list_elem_of_filter.
      apply list_elem_of_fmap in Hin as (line & -> & Hline).
      split; [done|]. split; [|apply strip_idemp].
      apply strip_Forall. pose proof (splitlines_no_linebreak text) as Hall.
      rewrite Forall_forall in Hall. by apply Hall. }
    rewrite splitlines_join
      by (eapply Forall_impl; [done|]; by intros ? (? & ? & ?)).
    clear -Hlabels. induction Hlabels as [|l labels (Hne & _ & Hstrip) _ IH];
      [done|].
    rewrite fmap_cons, filter_cons, Hstrip, decide_True by done.
    by rewrite IH. }
  split; [done|]. unfold set_issues. by rewrite Hsame, insert_insert_eq.
Qed.

Lemma fill_profile_twice (form1 form2 : profile_form) (vp : gmap str json) :
  fill_profile form2 (fill_profile form1 vp) = fill_profile form2 vp.
Proof.
  unfold fill_profile. apply map_eq. intros k.
  rewrite !lookup_insert. repeat case_decide; done.
Qed.

(** X12. Profile edits overwrite each other: setting the profile from one
    form and then from another gives what setting it from the second alone
    gives (in particular, setting it twice from the same form changes
    nothing the second time); keys of the stored profile other than the six
    fields are kept. *)
Theorem set_profile_overwrites (form1 form2 : profile_form)
    (A A1 : gmap str json) :
  set_profile form1 A = Some A1 →
  set_profile form2 A1 = set_profile form2 A
  ∧ set_profile form1 A1 = Some A1
  ∧ ∃ vp vp1,
      lookup_or A (u "veteran_profile") (JObj ∅) = JObj vp
      ∧ A1 !! u "veteran_profile" = Some (JObj vp1)
      ∧ ∀ k, k ∉ [u "full_name"; u "branch"; u "service_dates";
                  u "deployment_locations"; u "mos_duties"; u "other_notes"] →
             vp1 !! k = vp !! k.
Proof.
  unfold set_profile.
  destruct (lookup_or A (u "veteran_profile") (JObj ∅))
    as [| | | | | |vp] eqn:Hvp; try done.
  intros [= <-]. unfold lookup_or. rewrite lookup_insert_eq. simpl.
  rewrite !fill_profile_twice, !insert_insert_eq.
  split; [done|]. split; [done|].
  exists vp, (fill_profile form1 vp). split; [done|].
  split; [done|]. intros k Hk. unfold fill_profile.
  rewrite !lookup_insert_ne; [done|..]; intros <-; apply Hk; set_solver.
Qed.

Lemma set_profile_overwrites_witness :
  match set_profile form_a fresh_workspace with
  | Some A1 => set_profile form_b A1 = set_profile form_b fresh_workspace
  | None => False
  end.
Proof.
  destruct (set_profile form_a fresh_workspace) as [A1|] eqn:H1; [|done].
  exact (proj1 (set_profile_overwrites form_a form_b fresh_workspace A1 H1)).
Defined.

(** ** Tab 3: linking conditions *)

Section link_facts.

Variable py_eq : json → json → bool.
Variable selected : list json.

Lemma mjoin_filter {A : Type} (p : A → bool) (l : list A) :
  mjoin ((λ x, if p x then [x] else []) <$> l) = List.filter p l.
Proof.
  induction l as [|x l IH]; [done|]. rewrite fmap_cons. simpl.
  rewrite IH. by destruct (p x).
Qed.

Lemma selected_key_ne : u "selected_for_claim" ≠ u "condition".
Proof. by vm_compute. Qed.

(** What marking does to one record, and how the marked record reads. *)
Lemma mark_record (fields : gmap str json) :
  let c := default JNull (fields !! u "condition") in
  let m' := JObj (<[u "selected_for_claim" := JBool (member py_eq c selected)]>
                    fields) in
  mark py_eq selected (JObj fields) = Some m'
  ∧ selected_condition m'
    = Some (if truthy c && member py_eq c selected then [c] else [])
  ∧ condition_option m' = condition_option (JObj fields)
  ∧ mark py_eq selected m' = Some m'.
Proof.
  intros c m'. unfold mark, selected_condition, condition_option, m'. simpl.
  rewrite lookup_insert_eq, !(lookup_insert_ne _ _ _ _ selected_key_ne).
  simpl. fold c. rewrite insert_insert_eq.
  repeat split; try done.
  by destruct (member py_eq c selected), (truthy c).
Qed.

Lemma mark_records (items : list json) :
  Forall (λ m, is_record m = true) items →
  mapM (mark py_eq selected) items
  = Some (with_selection py_eq selected <$> items)
  ∧ mapM selected_condition (with_selection py_eq selected <$> items)
    = Some ((λ c, if truthy c && member py_eq c selected then [c] else [])
            <$> ((λ m, field m (u "condition")) <$> items))
  ∧ mapM condition_option (with_selection py_eq selected <$> items)
    = mapM condition_option items
  ∧ mapM (mark py_eq selected) (with_selection py_eq selected <$> items)
    = Some (with_selection py_eq selected <$> items).
Proof.
  induction 1 as [|m items Hm _ (Hmarked & Hsel & Hopt & Hagain)]; [done|].
  destruct m as [| | | | | |fields]; try done.
  destruct (mark_record fields) as (H1 & H2 & H3 & H4).
  rewrite !fmap_cons. cbn [mapM with_selection field].
  rewrite H1, Hmarked, H2, Hsel, H3, Hopt, H4, Hagain. done.
Qed.

End link_facts.

(** X13. Linking conditions persists the choice.  On a non-empty list of
    mapping records, every record gets a boolean [selected_for_claim], true
    exactly when its condition is among the selected ones, and nothing else
    changes in it or in the workspace; the conditions preselected on the next
    run are exactly the non-empty conditions that were among the selected
    ones, in the order of the mappings; the options offered stay the same; and
    linking the same selection again changes nothing. *)
Theorem link_conditions_persist (py_eq : json → json → bool)
    (selected : list json) (A : gmap str json) (items : list json) :
  A !! u "symptom_mappings" = Some (JArr items) →
  items ≠ [] →
  Forall (λ m, is_record m = true) items →
  link_conditions py_eq selected A
  = Some (<[u "symptom_mappings" :=
              JArr (with_selection py_eq selected <$> items)]> A)
  ∧ Forall2 (λ m m',
       ∃ fields,
         m = JObj fields
         ∧ m' = JObj (<[u "selected_for_claim" :=
                          JBool (member py_eq (field m (u "condition"))
                                   selected)]> fields))
      items (with_selection py_eq selected <$> items)
  ∧ preselected (JArr (with_selection py_eq selected <$> items))
    = Some (List.filter (λ c, truthy c && member py_eq c selected)
              ((λ m, field m (u "condition")) <$> items))
  ∧ all_names (JArr (with_selection py_eq selected <$> items))
    = all_names (JArr items)
  ∧ link_conditions py_eq selected
      (<[u "symptom_mappings" :=
           JArr (with_selection py_eq selected <$> items)]> A)
    = Some (<[u "symptom_mappings" :=
                JArr (with_selection py_eq selected <$> items)]> A).
Proof.
  intros HA Hne Hrec.
  destruct (mark_records py_eq selected items Hrec)
    as (Hmarked & Hsel & Hopt & Hagain).
  assert (with_selection py_eq selected <$> items ≠ []) as Hne'.
  { by destruct items. }
  unfold link_conditions. rewrite HA, lookup_insert_eq. simpl.
  rewrite !bool_decide_false by done. simpl.
  rewrite Hmarked, Hagain. simpl. rewrite insert_insert_eq.
  split; [done|]. split.
  { apply Forall2_fmap_r, Forall_Forall2_diag.
    eapply Forall_impl; [exact Hrec|].
    intros [| | | | | |fields] Hm; try done. by exists fields. }
  unfold preselected, all_names, for_each. simpl.
  rewrite Hsel, Hopt. simpl. by rewrite mjoin_filter.
Qed.

Lemma link_conditions_persist_witness :
  link_conditions sample_eq [JStr (u "Tinnitus")] used_workspace
  = Some (<[u "symptom_mappings" :=
              JArr (with_selection sample_eq [JStr (u "Tinnitus")]
                      <$> [old_mapping])]> used_workspace)
  ∧ preselected (JArr (with_selection sample_eq [JStr (u "Tinnitus")]
                         <$> [old_mapping]))
    = Some [JStr (u "Tinnitus")].
Proof.
  destruct (link_conditions_persist sample_eq [JStr (u "Tinnitus")]
              used_workspace [old_mapping])
    as (Hlink & _ & Hpre & _); [by vm_compute|done|by repeat constructor|].
  split; [done|]. rewrite Hpre. by vm_compute.
Defined.

(** ** Tabs 4 and 5: saving and removing statements *)

Section statement_facts.

Variable py_repr : json → str.

Lemma mapM_snoc {A B : Type} (f : A → option B) (l : list A) (x : A) :
  mapM f (l ++ [x]) = l' ← mapM f l; y ← f x; Some (l' ++ [y]).
Proof.
  induction l as [|a l IH]; simpl.
  - by destruct (f x).
  - destruct (f a) as [b|]; simpl; [|done]. rewrite IH.
    destruct (mapM f l) as [l'|]; simpl; [|done]. by destruct (f x).
Qed.

Lemma mapM_as_str_app (lines : list json) (strs tail : list str) :
  mapM as_str lines = Some strs →
  mapM as_str (lines ++ (JStr <$> tail)) = Some (strs ++ tail).
Proof.
  intros H%mapM_Some_1. apply mapM_Some_2, Forall2_app; [done|].
  apply Forall2_fmap_l, Forall_Forall2_diag, Forall_true. done.
Qed.

Lemma join_app_nonempty (sep : str) (l1 l2 : list str) :
  l1 ≠ [] → l2 ≠ [] → join sep (l1 ++ l2) = join sep l1 ++ sep ++ join sep l2.
Proof.
  intros H1 H2. induction l1 as [|a l1 IH]; [done|].
  destruct l1 as [|b l1].
  - destruct l2; [done|]. done.
  - change (join sep ((a :: b :: l1) ++ l2))
      with (a ++ sep ++ join sep ((b :: l1) ++ l2)).
    rewrite IH by done.
    change (join sep (a :: b :: l1)) with (a ++ sep ++ join sep (b :: l1)).
    by rewrite <- !(assoc_L (++)).
Qed.

Lemma join_values_app (sep packet : str) (lines : list json)
    (tail : list str) :
  lines ≠ [] → tail ≠ [] →
  join_values sep lines = Some packet →
  join_values sep (lines ++ (JStr <$> tail))
  = Some (packet ++ sep ++ join sep tail).
Proof.
  intros Hlines Htail. unfold join_values.
  destruct (mapM as_str lines) as [strs|] eqn:Hstrs; [|done].
  intros [= <-]. rewrite (mapM_as_str_app _ _ _ Hstrs).
  change (Some (join sep (strs ++ tail))
          = Some (join sep strs ++ sep ++ join sep tail)).
  f_equal. apply join_app_nonempty; [|done].
  intros ->. apply mapM_Some_1 in Hstrs. by inversion Hstrs; subst.
Qed.

Lemma packet_lines_nonempty (now : str) (A : gmap str json)
    (lines : list json) :
  packet_lines py_repr now A = Some lines → lines ≠ [].
Proof.
  unfold packet_lines.
  destruct (profile_lines _ _) as [p|]; [|done].
  destruct (for_lines (issue_line py_repr) _) as [i|]; [|done].
  destruct (for_lines (mapping_line py_repr) _) as [m|]; [|done].
  destruct (for_lines (claim_lines py_repr) _) as [c|]; [|done].
  by intros [= <-].
Qed.

Lemma strip_nonempty (s : str) : strip s ≠ [] → s ≠ [].
Proof. by intros H ->. Qed.

(** The lines of a saved statement in the packet. *)
Lemma claim_lines_entry (count : nat) (timestamp : Z)
    (now title statement : str) :
  statement ≠ [] →
  claim_lines py_repr (claim_entry count timestamp now title statement)
  = Some (JStr <$> [[];
                    u "Title: " ++ (if bool_decide (title = [])
                                    then u "VA claim statement" else title);
                    u "Created: " ++ now ++ u "Z"; []; statement; []]).
Proof.
  intros Hne. unfold claim_lines, claim_entry, por. cbn.
  rewrite !lookup_insert.
  repeat match goal with
         | |- context [decide (?a = ?b)] =>
             destruct (decide (a = b)) as [E|E];
             [try (by vm_compute in E)|try done]; try clear E
         end.
  cbn. by rewrite (bool_decide_false _ Hne).
Qed.

Lemma packet_lines_saved (now : str) (A : gmap str json)
    (claims : list json) (entry : json) (entry_lines : list json) :
  A !! u "claims" = Some (JArr claims) →
  claim_lines py_repr entry = Some entry_lines →
  packet_lines py_repr now (<[u "claims" := JArr (claims ++ [entry])]> A)
  = (λ lines, lines ++ entry_lines) <$> packet_lines py_repr now A.
Proof.
  intros HA Hentry. unfold packet_lines, lookup_or.
  rewrite lookup_insert_eq, HA.
  rewrite !lookup_insert_ne by by vm_compute.
  destruct (profile_lines _ _) as [p|]; [|done]. cbn.
  destruct (for_lines (issue_line py_repr) _) as [i|]; [|done]. cbn.
  destruct (for_lines (mapping_line py_repr) _) as [m|]; [|done]. cbn.
  unfold for_lines. cbn. rewrite mapM_snoc, Hentry.
  destruct (mapM (claim_lines py_repr) claims) as [parts|]; [|done]. cbn.
  rewrite join_app. cbn. rewrite (right_id_L [] (++)).
  repeat (rewrite <- (assoc_L (++)); cbn [app]). done.
Qed.

End statement_facts.

(** X14. Saving a statement and exporting: when the statement is not blank
    the handler appends one entry to the saved statements and reports
    success, and the packet exported afterwards is the packet exported
    before followed by the block of the new statement (title, or the fixed
    title when none was entered; creation time; body). *)
Theorem save_statement_export (py_repr : json → str) (timestamp : Z)
    (saved_at now title statement packet : str) (A : gmap str json)
    (claims : list json) :
  A !! u "claims" = Some (JArr claims) →
  strip statement ≠ [] →
  build_full_claim_packet py_repr now A = Some packet →
  ∃ A',
    save_statement timestamp saved_at title statement A
    = Some (A', [StSuccess (u "Statement saved to claims dashboard.")])
    ∧ A' = <[u "claims" :=
               JArr (claims ++ [claim_entry (length claims) timestamp saved_at
                                  title statement])]> A
    ∧ build_full_claim_packet py_repr now A'
      = Some (packet ++ nl
              ++ join nl [[];
                          u "Title: " ++ (if bool_decide (title = [])
                                          then u "VA claim statement"
                                          else title);
                          u "Created: " ++ saved_at ++ u "Z";
                          []; statement; []]).
Proof.
  intros HA Hstmt Hpacket. eexists. unfold save_statement.
  rewrite bool_decide_false, HA by done. split; [done|]. split; [done|].
  unfold build_full_claim_packet in *.
  rewrite (packet_lines_saved py_repr now A claims _ _ HA
             (claim_lines_entry py_repr _ _ _ _ _ (strip_nonempty _ Hstmt))).
  destruct (packet_lines py_repr now A) as [lines|] eqn:Hlines; [|done].
  apply join_values_app; [by eapply packet_lines_nonempty|done|done].
Qed.

Lemma save_statement_export_witness :
  ∃ A',
    save_statement 1714557600 (u "2024-05-01T10:00:00") [] (u "I served.")
      fresh_workspace
    = Some (A', [StSuccess (u "Statement saved to claims dashboard.")])
    ∧ ∃ packet,
        build_full_claim_packet sample_repr (u "2024-05-01T10:00:07") A'
        = Some (packet ++ nl
                ++ join nl [[]; u "Title: " ++ u "VA claim statement";
                            u "Created: " ++ u "2024-05-01T10:00:00" ++ u "Z";
                            []; u "I served."; []]).
Proof.
  destruct (build_full_claim_packet sample_repr (u "2024-05-01T10:00:07")
              fresh_workspace) as [packet|] eqn:Hpacket;
    [|by vm_compute in Hpacket].
  destruct (save_statement_export sample_repr 1714557600
              (u "2024-05-01T10:00:00") (u "2024-05-01T10:00:07") []
              (u "I served.") packet fresh_workspace [])
    as (A' & Hsave & _ & Hexport); [by vm_compute|by vm_compute|done|].
  exists A'. split; [done|]. by exists packet.
Defined.

Section remove_facts.

Variable py_eq : json → json → bool.

Lemma member_strings (x : str) (l : list str) :
  member py_eq (JStr x) (JStr <$> l) = bool_decide (x ∈ l).
Proof.
  unfold member. induction l as [|y l IH]; [done|].
  rewrite fmap_cons. cbn [existsb equal].
  rewrite IH, <- bool_decide_or. apply bool_decide_ext.
  rewrite elem_of_cons. done.
Qed.

Lemma imap_cons_pressed {A B : Type} (g : bool → A → list B)
    (pressed : nat → bool) (x : A) (l : list A) :
  imap (λ i a, g (pressed i) a) (x :: l)
  = g (pressed 0) x :: imap (λ i a, g ((pressed ∘ S) i) a) l.
Proof. reflexivity. Qed.

Lemma pressed_ids_strings (pressed : nat → bool) (ids : list str) :
  pressed_ids pressed (JStr <$> ids)
  = JStr <$> mjoin (imap (λ i id, if pressed i then [id] else []) ids).
Proof.
  unfold pressed_ids. revert pressed.
  induction ids as [|id ids IH]; intros pressed; [done|].
  rewrite fmap_cons.
  rewrite (imap_cons_pressed (λ (b : bool) (a : json), if b then [a] else [])).
  rewrite (imap_cons_pressed (λ (b : bool) (a : str), if b then [a] else [])).
  cbn [mjoin list_join]. rewrite fmap_app. f_equal; [by destruct (pressed 0)|].
  apply (IH (pressed ∘ S)).
Qed.

Lemma elem_of_pressed (pressed : nat → bool) (ids : list str) (x : str) :
  x ∈ mjoin (imap (λ i id, if pressed i then [id] else []) ids)
  ↔ ∃ j, ids !! j = Some x ∧ pressed j = true.
Proof.
  revert pressed. induction ids as [|id ids IH]; intros pressed.
  - split; [by intros ?%elem_of_nil|by intros (j & ? & _)].
  - rewrite (imap_cons_pressed (λ (b : bool) (a : str), if b then [a] else [])).
    cbn [mjoin list_join]. rewrite elem_of_app.
    pose proof (IH (pressed ∘ S)) as IH'. cbn [mjoin list_join] in IH'.
    rewrite IH'. split.
    + intros [Hx|(j & Hj & Hp)].
      * destruct (pressed 0) eqn:H0; [|by apply elem_of_nil in Hx].
        apply list_elem_of_singleton in Hx as ->. by exists 0.
      * by exists (S j).
    + intros ([|j] & Hj & Hp).
      * left. injection Hj as ->. rewrite Hp. by apply list_elem_of_singleton.
      * right. by exists j.
Qed.

Lemma keep_claims_unpressed (remove_ids claims ids : list json)
    (pressed : nat → bool) :
  length claims = length ids →
  (∀ i id, ids !! i = Some id → member py_eq id remove_ids = pressed i) →
  keep_claims py_eq remove_ids claims ids = unpressed pressed claims.
Proof.
  unfold keep_claims, unpressed. revert ids pressed.
  induction claims as [|c claims IH]; intros [|id ids] pressed Hlen Hmem;
    try done.
  rewrite (imap_cons_pressed (λ (b : bool) (a : json), if b then [] else [a])).
  cbn [mjoin list_join].
  change (zip (c :: claims) (id :: ids)) with ((c, id) :: zip claims ids).
  cbn [List.filter snd]. rewrite (Hmem 0 id) by done.
  assert ((List.filter (λ ci : json * json, negb (member py_eq ci.2 remove_ids))
             (zip claims ids)).*1
          = mjoin (imap (λ i a, if (pressed ∘ S) i then [] else [a]) claims))
    as Htail.
  { apply (IH ids (pressed ∘ S)); [by injection Hlen|].
    intros i id' Hi. by apply (Hmem (S i)). }
  destruct (pressed 0); cbn [negb fmap list_fmap fst app]; by rewrite Htail.
Qed.

Lemma pressed_unpressed_length (pressed : nat → bool) (claims ids : list json) :
  length claims = length ids →
  length (pressed_ids pressed ids) + length (unpressed pressed claims)
  = length claims.
Proof.
  unfold pressed_ids, unpressed. revert ids pressed.
  induction claims as [|c claims IH]; intros [|id ids] pressed Hlen; try done.
  rewrite (imap_cons_pressed (λ (b : bool) (a : json), if b then [a] else [])).
  rewrite (imap_cons_pressed (λ (b : bool) (a : json), if b then [] else [a])).
  cbn [mjoin list_join]. rewrite !length_app.
  injection Hlen as Hlen. specialize (IH ids (pressed ∘ S) Hlen).
  destruct (pressed 0); cbn [length Nat.add];
    [|rewrite Nat.add_succ_r]; f_equal; exact IH.
Qed.

End remove_facts.

(** X15. Removing statements whose ids are distinct texts: exactly the
    statements whose button was pressed are removed, the others stay in
    their order, and success is reported; when no button was pressed the
    aggregate is left as it was and nothing is reported. *)
Theorem remove_statements_distinct (py_eq : json → json → bool)
    (pressed : nat → bool) (A : gmap str json) (claims : list json)
    (ids : list str) :
  A !! u "claims" = Some (JArr claims) →
  claims ≠ [] →
  document_ids claims = Some ids →
  NoDup ids →
  remove_statements py_eq pressed A
  = Some (if bool_decide (length (unpressed pressed claims) = length claims)
          then (A, [])
          else (<[u "claims" := JArr (unpressed pressed claims)]> A,
                [StSuccess (u "Selected statements removed.")])).
Proof.
  intros HA Hne Hids Hnodup. unfold remove_statements, lookup_or.
  rewrite HA. simpl. rewrite bool_decide_false by done. simpl.
  rewrite (document_ids_existing _ _ Hids). simpl.
  pose proof (length_mapM _ _ _ Hids) as Hlen.
  pose proof (pressed_unpressed_length pressed claims (JStr <$> ids)) as Hsum.
  rewrite length_fmap in Hsum. specialize (Hsum Hlen).
  case_bool_decide as Hnone.
  - rewrite Hnone in Hsum. simpl in Hsum. by rewrite bool_decide_true.
  - rewrite bool_decide_false.
    2:{ intros Hsame. apply Hnone, nil_length_inv. lia. }
    rewrite (keep_claims_unpressed py_eq _ claims (JStr <$> ids) pressed);
      [done|by rewrite length_fmap|].
    intros i id Hi. apply list_lookup_fmap_Some in Hi as (x & -> & Hx).
    rewrite pressed_ids_strings, member_strings.
    destruct (pressed i) eqn:Hp.
    + apply bool_decide_eq_true, elem_of_pressed. by exists i.
    + apply bool_decide_eq_false. intros (j & Hj & Hpj)%elem_of_pressed.
      assert (i = j) as -> by by eapply NoDup_lookup. congruence.
Qed.

Lemma remove_statements_distinct_witness :
  remove_statements sample_eq (Nat.eqb 0) dashboard_workspace
  = Some (<[u "claims" := JArr [statement_two]]> dashboard_workspace,
          [StSuccess (u "Selected statements removed.")]).
Proof.
  rewrite (remove_statements_distinct sample_eq (Nat.eqb 0) dashboard_workspace
             [statement_one; statement_two]
             [claim_id 0 1714557600; claim_id 1 1714557660]).
  - by rewrite bool_decide_false by by vm_compute.
  - by vm_compute.
  - done.
  - by vm_compute.
  - apply NoDup_cons. split; [|apply NoDup_singleton].
    intros H%list_elem_of_singleton. by vm_compute in H.
Defined.

(** ** The chat context *)

Section chat_facts.

Variable py_repr : json → str.

Lemma join_nonempty (sep first : str) (rest : list str) :
  first ≠ [] → join sep (first :: rest) ≠ [].
Proof.
  intros Hne. destruct rest as [|second rest]; [done|].
  change (join sep (first :: second :: rest))
    with (first ++ sep ++ join sep (second :: rest)).
  by destruct first.
Qed.

Lemma labelled_nonempty (prof : json) (key label : str) (lines : list str) :
  label ≠ [] → labelled py_repr prof key label = Some lines →
  Forall (λ l, l ≠ []) lines.
Proof.
  intros Hlabel. unfold labelled.
  destruct (get prof key) as [v|]; [|done]. simpl.
  destruct (truthy v); intros [= <-]; [|constructor].
  constructor; [|constructor]. by destruct label.
Qed.

Lemma chat_profile_bits_nonempty (prof : json) (bits : list str) :
  chat_profile_bits py_repr prof = Some bits → Forall (λ l, l ≠ []) bits.
Proof.
  unfold chat_profile_bits.
  destruct (labelled _ _ (u "branch") _) as [l1|] eqn:H1; [|done]. simpl.
  destruct (labelled _ _ (u "service_dates") _) as [l2|] eqn:H2; [|done].
  simpl.
  destruct (labelled _ _ (u "deployment_locations") _) as [l3|] eqn:H3;
    [|done].
  simpl. intros [= <-].
  rewrite !Forall_app. repeat split;
    (eapply labelled_nonempty; [|done]); by vm_compute.
Qed.

(** What a document adds to the snippets: nothing, or its name, a colon, a
    line feed and at most 1,200 characters of its text. *)
Lemma chat_snippet_cases (d : json) (part : list str) :
  text_or_empty (field d (u "text")) = true →
  chat_snippet py_repr d = Some part →
  part = []
  ∨ ∃ text, field d (u "text") = JStr text ∧ text ≠ []
            ∧ part = [fstr py_repr (field d (u "name")) ++ u ":" ++ nl
                      ++ take 1200 text].
Proof.
  destruct d as [| | | | | |fields]; try done. unfold chat_snippet, por.
  cbn [get field mbind option_bind].
  set (t := default JNull (fields !! u "text")).
  intros Htyped.
  destruct (truthy (if truthy t then t else JStr [])) eqn:Htruthy.
  - destruct (truthy t) eqn:Ht; [|by vm_compute in Htruthy].
    destruct t as [| | | |text| |];
      try (by unfold text_or_empty in Htyped; rewrite Ht in Htyped).
    cbn. intros [= <-]. right. exists text. split; [done|]. split; [|done].
    intros ->. by vm_compute in Ht.
  - intros [= <-]. by left.
Qed.

Lemma chat_snippets_shape (docs : list json) (snippets : list str) :
  Forall (λ d, text_or_empty (field d (u "text")) = true) docs →
  for_each (chat_snippet py_repr) (JArr docs) = Some snippets →
  Forall (λ s, ∃ d text,
            d ∈ docs ∧ field d (u "text") = JStr text ∧ text ≠ []
            ∧ s = fstr py_repr (field d (u "name")) ++ u ":" ++ nl
                  ++ take 1200 text) snippets.
Proof.
  unfold for_each. cbn [iterate mbind option_bind].
  intros Htyped. revert snippets.
  induction Htyped as [|d docs Hd _ IH]; intros snippets.
  - by intros [= <-].
  - cbn. destruct (chat_snippet py_repr d) as [part|] eqn:Hpart; [|done].
    cbn. destruct (mapM _ docs) as [parts|]; [|done]. cbn in *.
    intros [= <-]. apply Forall_app. split.
    + destruct (chat_snippet_cases d part Hd Hpart) as [->|(t & Ht & Hne & ->)];
        [constructor|].
      constructor; [|constructor]. exists d, t. split; [left|done].
    + eapply Forall_impl; [by apply IH|].
      intros s (d' & t & Hin & H). exists d', t. split; [by right|done].
Qed.

Lemma chat_snippets_nonempty (items : list json)
    (snippets : list (list str)) :
  mapM (chat_snippet py_repr) items = Some snippets →
  Forall (λ s, s ≠ []) (mjoin snippets).
Proof.
  revert snippets. induction items as [|d items IH]; intros snippets.
  - by intros [= <-].
  - cbn. destruct (chat_snippet py_repr d) as [part|] eqn:Hpart; [|done].
    cbn. destruct (mapM _ items) as [parts|]; [|done]. cbn.
    intros [= <-]. cbn. apply Forall_app. split; [|by apply IH].
    unfold chat_snippet in Hpart.
    destruct (get d (u "text")) as [t|]; [|done]. cbn in Hpart.
    destruct (truthy (por t (JStr []))).
    + destruct (slice_value 1200 _) as [sn|]; [|done]. cbn in Hpart.
      destruct (get d (u "name")) as [name|]; [|done]. cbn in Hpart.
      injection Hpart as <-. constructor; [|constructor].
      intros H. apply app_eq_nil in H as [_ H]. by vm_compute in H.
    + injection Hpart as <-. constructor.
Qed.

Lemma lookup_or_documents_ne (A : gmap str json) (v dflt : json) (k : str) :
  k ≠ u "documents" →
  lookup_or (<[u "documents" := v]> A) k dflt = lookup_or A k dflt.
Proof. intros Hne. unfold lookup_or. by rewrite lookup_insert_ne. Qed.

(** X16. The context of a chat turn depends on the stored documents through
    its last section only: the sections before it are those of the workspace
    without documents, and the last one lists at most three snippets, each
    the name of a document that has text, a colon, a line feed and at most
    the first 1,200 characters of that text; without such a document there is
    no such section. *)
Theorem chat_context_snippets (A : gmap str json) (docs : list json)
    (pieces : list str) :
  A !! u "documents" = Some (JArr docs) →
  Forall (λ d, text_or_empty (field d (u "text")) = true) docs →
  chat_pieces py_repr A = Some pieces →
  ∃ snippets others,
    for_each (chat_snippet py_repr) (JArr docs) = Some snippets
    ∧ Forall (λ s, ∃ d text,
                d ∈ docs ∧ field d (u "text") = JStr text ∧ text ≠ []
                ∧ s = fstr py_repr (field d (u "name")) ++ u ":" ++ nl
                      ++ take 1200 text) snippets
    ∧ chat_pieces py_repr (<[u "documents" := JArr []]> A) = Some others
    ∧ pieces = others
               ++ (if bool_decide (snippets = []) then []
                   else [u "Record snippets:" ++ nl
                         ++ join (nl ++ nl) (take 3 snippets)]).
Proof.
  intros Hdocs Htyped. unfold chat_pieces.
  rewrite !(lookup_or_documents_ne _ _ _ (u "veteran_profile"));
    [|by vm_compute].
  rewrite !(lookup_or_documents_ne _ _ _ (u "issues")); [|by vm_compute].
  rewrite !(lookup_or_documents_ne _ _ _ (u "evidence_summary"));
    [|by vm_compute].
  replace (lookup_or (<[u "documents" := JArr []]> A) (u "documents")
             (JArr [])) with (JArr [])
    by (unfold lookup_or; by rewrite lookup_insert_eq).
  replace (lookup_or A (u "documents") (JArr [])) with (JArr docs)
    by (unfold lookup_or; by rewrite Hdocs).
  destruct (chat_profile_bits _ _) as [prof_bits|]; [|done].
  cbn [mbind option_bind].
  destruct (for_each (issue_label) _) as [issues_bits|]; [|done].
  cbn [mbind option_bind].
  destruct (for_each (chat_snippet py_repr) (JArr docs)) as [snippets|]
    eqn:Hsnippets; [|done].
  cbn [mbind option_bind].
  replace (for_each (chat_snippet py_repr) (JArr [])) with (Some (@nil str))
    by done.
  cbn [mbind option_bind].
  destruct (if bool_decide (issues_bits = []) then _ else _)
    as [issues_piece|]; [|done].
  cbn [mbind option_bind].
  destruct (if truthy _ then _ else _) as [evidence_piece|]; [|done].
  cbn [mbind option_bind]. intros [= <-].
  exists snippets. eexists. split; [done|].
  split; [by apply chat_snippets_shape|]. split; [done|].
  rewrite (bool_decide_true (@nil str = [])); [|done].
  rewrite app_nil_r. by rewrite <- !(assoc_L (++)).
Qed.

Lemma chat_section_intro (header body : str) :
  bool_decide (header ∈ chat_headers) = true → body ≠ [] →
  Forall chat_section [header ++ nl ++ body]
  ∧ length [header ++ nl ++ body] ≤ 1.
Proof.
  intros Hin Hbody. split; [|done]. constructor; [|constructor].
  exists header, body. split; [|done]. by apply bool_decide_eq_true in Hin.
Qed.

Lemma chat_section_optional (absent : bool) (header body : str) :
  bool_decide (header ∈ chat_headers) = true → (absent = false → body ≠ []) →
  Forall chat_section (if absent then [] else [header ++ nl ++ body])
  ∧ length (if absent then [] else [header ++ nl ++ body]) ≤ 1.
Proof.
  intros Hin Hbody. destruct absent.
  - split; [constructor|cbn; lia].
  - apply chat_section_intro; auto.
Qed.

Lemma four_parts (a b c d : list str) :
  length a ≤ 1 → length b ≤ 1 → length c ≤ 1 → length d ≤ 1 →
  length (a ++ b ++ c ++ d) ≤ 4.
Proof. rewrite !length_app. lia. Qed.

Lemma chat_section_none :
  Forall chat_section [] ∧ length (@nil str) ≤ 1.
Proof. split; [constructor|cbn; lia]. Qed.

(** X17. The context of a chat turn has at most four sections; each is one
    of the four headers, a line feed and a body that is not empty, so a
    section without content is left out rather than shown with its header
    alone; and the context is the empty text exactly when there is no
    section at all. *)
Theorem chat_context_sections (A : gmap str json) (pieces : list str) :
  chat_pieces py_repr A = Some pieces →
  length pieces ≤ 4
  ∧ Forall chat_section pieces
  ∧ (build_chat_context py_repr A = Some [] ↔ pieces = []).
Proof.
  intros Hpieces.
  assert (Forall chat_section pieces ∧ length pieces ≤ 4) as [Hall Hlen].
  { revert Hpieces. unfold chat_pieces.
    destruct (chat_profile_bits _ _) as [prof_bits|] eqn:Hprof; [|done].
    cbn [mbind option_bind].
    destruct (for_each (issue_label) _) as [issues_bits|]; [|done].
    cbn [mbind option_bind].
    destruct (for_each (chat_snippet py_repr) _) as [snippets|] eqn:Hsnippets;
      [|done].
    cbn [mbind option_bind].
    destruct (if bool_decide (issues_bits = []) then _ else _)
      as [issues_piece|] eqn:Hissues; [|done].
    cbn [mbind option_bind].
    destruct (if truthy _ then _ else _) as [evidence_piece|] eqn:Hevidence;
      [|done].
    cbn [mbind option_bind]. intros [= <-].
    assert (Forall chat_section
              (if bool_decide (prof_bits = []) then []
               else [u "Profile:" ++ nl ++ join nl prof_bits])
            ∧ length (if bool_decide (prof_bits = []) then []
                      else [u "Profile:" ++ nl ++ join nl prof_bits]) ≤ 1)
      as [P1 P2].
    { apply chat_section_optional; [done|]. intros Hbits.
      apply bool_decide_eq_false in Hbits.
      apply chat_profile_bits_nonempty in Hprof.
      destruct Hprof as [|first rest Hfirst _]; [done|].
      by apply join_nonempty. }
    assert (Forall chat_section issues_piece ∧ length issues_piece ≤ 1)
      as [I1 I2].
    { revert Hissues. destruct (bool_decide (issues_bits = [])).
      - intros [= <-]. apply chat_section_none.
      - destruct (join_values _ _) as [labels|]; [|done]. cbn.
        intros [= <-].
        apply (chat_section_intro (u "Claimed issues:") (u "- " ++ labels));
          done. }
    assert (Forall chat_section evidence_piece ∧ length evidence_piece ≤ 1)
      as [E1 E2].
    { revert Hevidence.
      destruct (truthy _) eqn:Htruthy;
        [|intros [= <-]; apply chat_section_none].
      destruct (lookup_or A (u "evidence_summary") (JStr []))
        as [| | | |summary| |]; try done.
      cbn. intros [= <-].
      apply (chat_section_intro (u "Evidence summary:") summary); [done|].
      intros ->. by vm_compute in Htruthy. }
    assert (Forall chat_section
              (if bool_decide (snippets = []) then []
               else [u "Record snippets:" ++ nl
                     ++ join (nl ++ nl) (take 3 snippets)])
            ∧ length (if bool_decide (snippets = []) then []
                      else [u "Record snippets:" ++ nl
                            ++ join (nl ++ nl) (take 3 snippets)]) ≤ 1)
      as [S1 S2].
    { apply chat_section_optional; [done|]. intros Hs.
      apply bool_decide_eq_false in Hs.
      unfold for_each in Hsnippets.
      destruct (iterate _) as [items|]; [|done]. cbn in Hsnippets.
      destruct (mapM _ items) as [parts|] eqn:Hparts; [|done].
      cbn in Hsnippets. injection Hsnippets as <-.
      apply chat_snippets_nonempty in Hparts.
      destruct Hparts as [|first rest Hfirst _]; [done|].
      by apply join_nonempty. }
    split; [by repeat (apply Forall_app; split)|].
    by apply four_parts. }
  split; [done|]. split; [done|].
  unfold build_chat_context. rewrite Hpieces. cbn. split.
  - intros [= Hjoin]. destruct Hall as [|piece rest Hpiece _]; [done|].
    exfalso. revert Hjoin. apply join_nonempty.
    destruct Hpiece as (header & body & _ & Hbody & ->).
    intros H. apply app_eq_nil in H as [_ H]. by destruct body.
  - by intros ->.
Qed.

End chat_facts.

Lemma chat_context_snippets_witness :
  match chat_pieces sample_repr used_workspace with
  | Some pieces =>
      ∃ snippets others,
        for_each (chat_snippet sample_repr)
          (JArr [doc_entry upload_a (u "2024-05-01T10:00:00") (u "a")])
        = Some snippets
        ∧ Forall (λ s, ∃ d text,
                    d ∈ [doc_entry upload_a (u "2024-05-01T10:00:00") (u "a")]
                    ∧ field d (u "text") = JStr text ∧ text ≠ []
                    ∧ s = fstr sample_repr (field d (u "name")) ++ u ":" ++ nl
                          ++ take 1200 text) snippets
        ∧ chat_pieces sample_repr (<[u "documents" := JArr []]> used_workspace)
          = Some others
        ∧ pieces = others
                   ++ (if bool_decide (snippets = []) then []
                       else [u "Record snippets:" ++ nl
                             ++ join (nl ++ nl) (take 3 snippets)])
  | None => False
  end.
Proof.
  destruct (chat_pieces sample_repr used_workspace) as [pieces|] eqn:Hpieces;
    [|by vm_compute in Hpieces].
  apply (chat_context_snippets sample_repr used_workspace
           [doc_entry upload_a (u "2024-05-01T10:00:00") (u "a")] pieces).
  - apply lookup_insert_eq.
  - repeat constructor.
  - exact Hpieces.
Defined.

Lemma chat_context_sections_witness :
  match chat_pieces sample_repr used_workspace with
  | Some pieces =>
      length pieces ≤ 4
      ∧ Forall (chat_section) pieces
      ∧ (build_chat_context sample_repr used_workspace = Some []
         ↔ pieces = [])
  | None => False
  end.
Proof.
  destruct (chat_pieces sample_repr used_workspace) as [pieces|] eqn:Hpieces;
    [|by vm_compute in Hpieces].
  exact (chat_context_sections sample_repr used_workspace pieces Hpieces).
Defined.

(** ** The personal statement *)

Section statement_facts.

Variable py_repr : json → str.
Variable py_eq : json → json → bool.

Lemma focus_line_selected (focus : list json) (m : json) :
  in_focus py_eq focus m = true →
  focus_line py_repr py_eq focus m = focus_line py_repr py_eq [] m.
Proof.
  destruct m as [| | | | | |fields]; try done.
  unfold in_focus, focus_line. cbn [field get mbind option_bind].
  intros ->. by rewrite andb_false_r.
Qed.

Lemma focus_line_skipped (focus : list json) (m : json) :
  focus ≠ [] → is_record m = true → in_focus py_eq focus m = false →
  focus_line py_repr py_eq focus m = Some [].
Proof.
  destruct m as [| | | | | |fields]; try done.
  unfold in_focus, focus_line. cbn [field get mbind option_bind].
  intros Hfocus _ ->. by rewrite (bool_decide_false (focus = [])).
Qed.

Lemma focus_line_filter (focus : list json) (items : list json) :
  focus ≠ [] →
  Forall (λ m, is_record m = true) items →
  for_each (focus_line py_repr py_eq focus) (JArr items)
  = for_each (focus_line py_repr py_eq [])
      (JArr (List.filter (in_focus py_eq focus) items)).
Proof.
  unfold for_each. cbn [iterate mbind option_bind].
  intros Hfocus Hitems. induction Hitems as [|m items Hm _ IH]; [done|].
  cbn [List.filter mapM].
  destruct (in_focus py_eq focus m) eqn:Hin.
  - cbn [mapM]. rewrite focus_line_selected; [|done].
    destruct (focus_line py_repr py_eq [] m) as [line|]; [|done].
    cbn [mbind option_bind].
    destruct (mapM _ items) as [parts|], (mapM _ (List.filter _ _))
      as [kept|]; cbn in IH |- *; try done.
    injection IH as IH. f_equal. f_equal. exact IH.
  - rewrite focus_line_skipped; [|done..]. cbn [mbind option_bind].
    destruct (mapM _ items) as [parts|]; cbn in IH |- *; [|done].
    by rewrite <- IH.
Qed.

Lemma lookup_or_mappings_ne (A : gmap str json) (v dflt : json) (k : str) :
  k ≠ u "symptom_mappings" →
  lookup_or (<[u "symptom_mappings" := v]> A) k dflt = lookup_or A k dflt.
Proof. intros Hne. unfold lookup_or. by rewrite lookup_insert_ne. Qed.

(** X18. A focus that is not empty acts as a filter on the stored mappings:
    the prompt for the personal statement is the one that would be built with
    no focus from a workspace holding only the mappings whose condition is in
    the focus, in their stored order.  (An empty focus selects every
    mapping.) *)
Theorem statement_focus_filters (A : gmap str json) (items : list json)
    (claim_title : str) (focus_conditions : list json) :
  A !! u "symptom_mappings" = Some (JArr items) →
  Forall (λ m, is_record m = true) items →
  focus_conditions ≠ [] →
  statement_user_prompt py_repr py_eq A claim_title focus_conditions
  = statement_user_prompt py_repr py_eq
      (<[u "symptom_mappings" :=
           JArr (List.filter (in_focus py_eq focus_conditions) items)]> A)
      claim_title [].
Proof.
  intros Hitems Hrecords Hfocus. unfold statement_user_prompt.
  rewrite !(lookup_or_mappings_ne _ _ _ (u "veteran_profile"));
    [|by vm_compute].
  rewrite !(lookup_or_mappings_ne _ _ _ (u "issues")); [|by vm_compute].
  rewrite !(lookup_or_mappings_ne _ _ _ (u "evidence_summary"));
    [|by vm_compute].
  replace (lookup_or (<[u "symptom_mappings" := _]> A) (u "symptom_mappings")
             (JArr []))
    with (JArr (List.filter (in_focus py_eq focus_conditions) items))
    by (unfold lookup_or; by rewrite lookup_insert_eq).
  replace (lookup_or A (u "symptom_mappings") (JArr [])) with (JArr items)
    by (unfold lookup_or; by rewrite Hitems).
  by rewrite focus_line_filter.
Qed.

End statement_facts.

Lemma statement_focus_filters_witness :
  statement_user_prompt sample_repr sample_eq used_workspace (u "Hearing")
    [JStr (u "Tinnitus")]
  = statement_user_prompt sample_repr sample_eq
      (<[u "symptom_mappings" :=
           JArr (List.filter (in_focus sample_eq [JStr (u "Tinnitus")])
                   [old_mapping])]> used_workspace)
      (u "Hearing") [].
Proof.
  apply (statement_focus_filters sample_repr sample_eq used_workspace
           [old_mapping]).
  - by vm_compute.
  - by repeat constructor.
  - done.
Defined.

(** ** The evidence summary without readable documents *)

Section summary_facts.

Variable py_repr : json → str.
Variable complete : request → reply.

Lemma document_contribution_no_text (d : json) :
  is_record d = true → truthy (field d (u "text")) = false →
  document_contribution py_repr d = Some [].
Proof.
  destruct d as [| | | | | |fields]; try done.
  unfold document_contribution, por. cbn [get field mbind option_bind].
  intros _ ->. by replace (truthy (JStr [])) with false by done.
Qed.

Lemma joined_texts_no_text (docs : list json) :
  Forall (λ d, is_record d = true ∧ truthy (field d (u "text")) = false) docs →
  joined_texts py_repr (JArr docs) = Some [].
Proof.
  unfold joined_texts. cbn [iterate mbind option_bind].
  induction 1 as [|d docs [Hrecord Htext] _ IH]; [done|].
  cbn [mapM]. rewrite document_contribution_no_text; [|done..].
  cbn [mbind option_bind].
  destruct (mapM _ docs) as [parts|]; [|done].
  cbn in IH |- *. injection IH as IH. f_equal. exact IH.
Qed.

(** X19. When no stored document has text (in particular when nothing was
    uploaded), the button that builds the evidence summary does nothing: the
    gateway is not consulted, nothing is shown, and the workspace and the
    summary offered for editing stay as they were. *)
Theorem evidence_button_idle (A : gmap str json) (docs : list json) :
  A !! u "documents" = Some (JArr docs) →
  Forall (λ d, is_record d = true ∧ truthy (field d (u "text")) = false) docs →
  build_evidence_summary py_repr complete A
  = Some (A, lookup_or A (u "evidence_summary") (JStr []), []).
Proof.
  intros Hdocs Htexts. unfold build_evidence_summary.
  rewrite Hdocs. cbn [mbind option_bind].
  rewrite joined_texts_no_text; [|done]. cbn [mbind option_bind].
  by rewrite (bool_decide_true (big_blob [] = [])).
Qed.

End summary_facts.

Lemma evidence_button_idle_witness :
  build_evidence_summary sample_repr unreachable
    (<[u "documents" := JArr [text_document (u "scan.pdf") []]]>
       used_workspace)
  = Some (<[u "documents" := JArr [text_document (u "scan.pdf") []]]>
            used_workspace,
          lookup_or
            (<[u "documents" := JArr [text_document (u "scan.pdf") []]]>
               used_workspace) (u "evidence_summary") (JStr []), []).
Proof.
  apply (evidence_button_idle sample_repr unreachable _
           [text_document (u "scan.pdf") []]).
  - apply lookup_insert_eq.
  - by repeat constructor.
Defined.

(** ** The legacy accounts *)

Section account_facts.

Variable sha256_hex : str → str.
Variable encode_error : str → str.

Lemma nonempty_checks (a b : str) :
  bool_decide (a = []) || bool_decide (b = []) = false ↔ a ≠ [] ∧ b ≠ [].
Proof.
  rewrite orb_false_iff. by rewrite !bool_decide_eq_false.
Qed.

(** What a successful registration amounts to. *)
Lemma register_created (users users' : gmap str str) (username password : str) :
  Legacy.register_user sha256_hex encode_error users username password
  = (users', created) →
  username ≠ [] ∧ password ≠ []
  ∧ Legacy.encodable username = true ∧ Legacy.encodable password = true
  ∧ users !! username = None
  ∧ users' = <[username := sha256_hex password]> users.
Proof.
  unfold Legacy.register_user, Legacy.hash_password.
  destruct (bool_decide (username = []) || bool_decide (password = []))
    eqn:Hempty; [by intros [= _ H]|].
  apply nonempty_checks in Hempty as [Hu Hp].
  destruct (Legacy.encodable password); [|by intros [= _ H]].
  destruct (Legacy.encodable username); cbn [negb]; [|by intros [= _ H]].
  destruct (users !! username); [by intros [= _ H]|].
  by intros [= <-].
Qed.

(** X20. Round trip of the accounts: after a registration that answered
    with the message of success, the same user name and password log in, an
    attempt with a password of another digest does not, and every other user
    name logs in exactly as it did before. *)
Theorem register_then_authenticate (users users' : gmap str str)
    (username password : str) :
  Legacy.register_user sha256_hex encode_error users username password
  = (users', created) →
  Legacy.authenticate_user sha256_hex encode_error users' username password
  = Some true
  ∧ (∀ attempt, Legacy.encodable attempt = true →
       sha256_hex attempt ≠ sha256_hex password →
       Legacy.authenticate_user sha256_hex encode_error users' username
         attempt = Some false)
  ∧ (∀ other attempt, other ≠ username →
       Legacy.authenticate_user sha256_hex encode_error users' other attempt
       = Legacy.authenticate_user sha256_hex encode_error users other attempt).
Proof.
  intros (Hu & Hp & Heu & Hep & Hnew & ->)%register_created.
  unfold Legacy.authenticate_user, Legacy.hash_password. split; [|split].
  - rewrite (proj2 (nonempty_checks _ _)); [|done].
    rewrite Heu, Hep, lookup_insert_eq. cbn [negb].
    by rewrite bool_decide_true.
  - intros attempt Hea Hdigest.
    destruct (bool_decide (username = []) || bool_decide (attempt = []));
      [done|].
    rewrite Heu, Hea, lookup_insert_eq. cbn [negb].
    by rewrite bool_decide_false.
  - intros other attempt Hother. by rewrite lookup_insert_ne.
Qed.

(** X21. A registration never overwrites an account: whatever the user
    name and the password, every user name that was in the table keeps its
    stored digest; and when the user name asked for is taken the table is
    left exactly as it was. *)
Theorem register_keeps_accounts (users : gmap str str)
    (username password name stored : str) :
  users !! name = Some stored →
  (Legacy.register_user sha256_hex encode_error users username password).1
    !! name = Some stored
  ∧ (name = username →
     (Legacy.register_user sha256_hex encode_error users username password).1
     = users).
Proof.
  intros Hname. unfold Legacy.register_user, Legacy.hash_password.
  destruct (bool_decide (username = []) || bool_decide (password = []));
    [done|].
  destruct (Legacy.encodable password); [|done].
  destruct (Legacy.encodable username); cbn [negb]; [|done].
  destruct (users !! username) eqn:Huser; [done|]. cbn [fst].
  split.
  - rewrite lookup_insert_ne; [done|]. intros <-. congruence.
  - intros ->. congruence.
Qed.

(** X22. A log-in succeeds in exactly one situation: user name and
    password are both non-empty and encodable, and the table holds for that
    user name the digest of that password.  An unknown user, an empty field
    or a wrong password never logs in. *)
Theorem authenticate_user_true (users : gmap str str)
    (username password : str) :
  Legacy.authenticate_user sha256_hex encode_error users username password
  = Some true
  ↔ username ≠ [] ∧ password ≠ []
    ∧ Legacy.encodable username = true ∧ Legacy.encodable password = true
    ∧ users !! username = Some (sha256_hex password).
Proof.
  unfold Legacy.authenticate_user, Legacy.hash_password. split.
  - destruct (bool_decide (username = []) || bool_decide (password = []))
      eqn:Hempty; [done|].
    apply nonempty_checks in Hempty as [Hu Hp].
    destruct (Legacy.encodable username); cbn [negb]; [|done].
    destruct (users !! username) as [stored|]; [|done].
    destruct (Legacy.encodable password); [|done].
    intros [= Heq%bool_decide_eq_true]. by subst.
  - intros (Hu & Hp & -> & -> & ->).
    rewrite (proj2 (nonempty_checks _ _)); [|done]. cbn [negb].
    by rewrite bool_decide_true.
Qed.

End account_facts.

Lemma register_then_authenticate_witness :
  Legacy.authenticate_user sample_digest sample_encode_error
    (<[u "alex" := sample_digest (u "hunter2")]> one_user)
    (u "alex") (u "hunter2") = Some true
  ∧ (∀ attempt, Legacy.encodable attempt = true →
       sample_digest attempt ≠ sample_digest (u "hunter2") →
       Legacy.authenticate_user sample_digest sample_encode_error
         (<[u "alex" := sample_digest (u "hunter2")]> one_user)
         (u "alex") attempt = Some false)
  ∧ (∀ other attempt, other ≠ u "alex" →
       Legacy.authenticate_user sample_digest sample_encode_error
         (<[u "alex" := sample_digest (u "hunter2")]> one_user) other attempt
       = Legacy.authenticate_user sample_digest sample_encode_error one_user
           other attempt).
Proof.
  apply (register_then_authenticate sample_digest sample_encode_error
           one_user _ (u "alex") (u "hunter2")).
  by vm_compute.
Defined.

Lemma register_keeps_accounts_witness :
  (Legacy.register_user sample_digest sample_encode_error one_user
     (u "sam") (u "other")).1 !! u "sam" = Some (sample_digest (u "secret"))
  ∧ (u "sam" = u "sam" →
     (Legacy.register_user sample_digest sample_encode_error one_user
        (u "sam") (u "other")).1 = one_user).
Proof.
  apply (register_keeps_accounts sample_digest sample_encode_error one_user
           (u "sam") (u "other") (u "sam") (sample_digest (u "secret"))).
  apply lookup_insert_eq.
Defined.

(** ** The legacy history of statements and summaries *)

Lemma show_row_app (data : list Legacy.shown_row) (r : Legacy.selected_row) :
  Legacy.show_row data r = data ++ Legacy.show_row [] r.
Proof.
  unfold Legacy.show_row.
  destruct (Legacy.filled (Legacy.sel_statement r)); [done|].
  destruct (Legacy.filled (Legacy.sel_summary r)); [done|].
  by rewrite app_nil_r.
Qed.

Lemma foldl_show_row (selected : list Legacy.selected_row)
    (data : list Legacy.shown_row) :
  foldl Legacy.show_row data selected
  = data ++ foldl Legacy.show_row [] selected.
Proof.
  revert data. induction selected as [|r selected IH]; intros data.
  - by rewrite app_nil_r.
  - cbn [foldl]. rewrite IH, (IH (Legacy.show_row [] r)), show_row_app.
    by rewrite <- (assoc_L (++)).
Qed.

Lemma shown_claims_cons (r : Legacy.selected_row)
    (selected : list Legacy.selected_row) :
  Legacy.shown_claims (r :: selected)
  = Legacy.show_row [] r ++ Legacy.shown_claims selected.
Proof. unfold Legacy.shown_claims. cbn [foldl]. apply foldl_show_row. Qed.

(** X23. The history lists, in the order selected, exactly the rows that
    have a statement or a summary, each under its own id and date.  A row with
    a statement is listed as a personal statement, also when it has a summary
    as well: its content is the conditions, a blank line and the first 300
    characters of the statement; a row with a summary only is listed as an
    evidence summary with the first 400 characters of it.  Every content
    shown ends with three dots, whether or not anything was cut, and the
    content of an evidence summary has at most 403 characters. *)
Theorem shown_claims_rows (selected : list Legacy.selected_row) :
  Legacy.shown_id <$> Legacy.shown_claims selected
  = Legacy.sel_id <$> List.filter listed selected
  ∧ Forall (λ row,
      (∃ body, Legacy.shown_content row = body ++ u "...")
      ∧ (Legacy.shown_type row = u "Personal Statement"
         ∨ (Legacy.shown_type row = u "Evidence Summary"
            ∧ length (Legacy.shown_content row) ≤ 403)))
      (Legacy.shown_claims selected)
  ∧ Forall2 (λ r row,
      Legacy.shown_id row = Legacy.sel_id r
      ∧ Legacy.shown_date row = Legacy.sel_date r
      ∧ Legacy.shown_type row
        = (if Legacy.filled (Legacy.sel_statement r)
           then u "Personal Statement" else u "Evidence Summary")
      ∧ Legacy.shown_content row
        = (if Legacy.filled (Legacy.sel_statement r)
           then u "Conditions: "
                ++ Legacy.column_text (Legacy.sel_conditions r) ++ nl ++ nl
                ++ take 300 (default [] (Legacy.sel_statement r)) ++ u "..."
           else take 400 (default [] (Legacy.sel_summary r)) ++ u "..."))
      (List.filter listed selected) (Legacy.shown_claims selected).
Proof.
  induction selected as [|r selected (IHids & IHrows & IHeach)];
    [by repeat split; constructor|].
  rewrite shown_claims_cons, fmap_app, Forall_app, IHids.
  cbn [List.filter]. unfold Legacy.show_row.
  destruct (Legacy.filled (Legacy.sel_statement r)) eqn:Hstatement.
  - replace (listed r) with true by (unfold listed; by rewrite Hstatement).
    split; [done|]. split.
    + split; [|done]. constructor; [|constructor].
      cbn [Legacy.shown_content Legacy.shown_type]. split; [|by left].
      eexists. by rewrite !(assoc_L (++)).
    + cbn [app]. constructor; [|done]. by rewrite Hstatement.
  - destruct (Legacy.filled (Legacy.sel_summary r)) eqn:Hsummary.
    + replace (listed r) with true
        by (unfold listed; by rewrite Hstatement, Hsummary).
      split; [done|]. split.
      * split; [|done]. constructor; [|constructor].
        cbn [Legacy.shown_content Legacy.shown_type]. split; [by eexists|].
        right. split; [done|]. rewrite length_app, length_take.
        change (length (u "...")) with 3. lia.
      * cbn [app]. constructor; [|done]. by rewrite Hstatement.
    + replace (listed r) with false
        by (unfold listed; by rewrite Hstatement, Hsummary).
      by repeat split.
Qed.

Section history_facts.

Variable encode_error : str → str.
Variable complete : request → reply.

(** X24. What the two generators do to the table of saved rows: either it
    is left as it was, or exactly one row is appended, for the user given,
    and the text returned to the caller is the text of that row: the statement
    (with the conditions, and no summary) for [generate_statement], the
    summary (and nothing else) for [summarize_evidence]. *)
Theorem generators_append_one_row (client_set : bool) (date : str)
    (claims : list Legacy.claim_row)
    (service_branch service_years conditions symptom_description name
     file_number text user : str) :
  (let '(claims', result) :=
     Legacy.generate_statement encode_error complete client_set date claims
       service_branch service_years conditions symptom_description name
       file_number user in
   claims' = claims
   ∨ claims' = claims ++ [{| Legacy.row_date := date; Legacy.row_user := user;
                             Legacy.row_conditions := Some conditions;
                             Legacy.row_statement := result;
                             Legacy.row_summary := None |}])
  ∧ (let '(claims', result) :=
       Legacy.summarize_evidence encode_error complete client_set date claims
         text user in
     claims' = claims
     ∨ claims' = claims ++ [{| Legacy.row_date := date;
                               Legacy.row_user := user;
                               Legacy.row_conditions := None;
                               Legacy.row_statement := None;
                               Legacy.row_summary := result |}]).
Proof.
  split.
  - unfold Legacy.generate_statement.
    destruct (negb client_set); [by left|].
    destruct (existsb _ _); [by left|].
    destruct (complete _) as [e|statement]; [by left|].
    destruct (Legacy.bind_error _ _); [by left|by right].
  - unfold Legacy.summarize_evidence.
    destruct (negb client_set); [by left|].
    destruct (bool_decide (text = [])); [by left|].
    destruct (complete _) as [e|summary]; [by left|].
    destruct (Legacy.bind_error _ _); [by left|by right].
Qed.

(** X25. A completion without text is stored all the same, as a row the
    history never lists: when [generate_statement] returns [None] or the
    empty text, one row was appended to the table, and the loop of
    [load_claims] skips that row under whatever id it was given. *)
Theorem empty_statement_hidden (client_set : bool) (date : str)
    (claims claims' : list Legacy.claim_row) (result : option str)
    (service_branch service_years conditions symptom_description name
     file_number user : str) :
  Legacy.generate_statement encode_error complete client_set date claims
    service_branch service_years conditions symptom_description name
    file_number user = (claims', result) →
  Legacy.filled result = false →
  ∃ row, claims' = claims ++ [row]
         ∧ ∀ id data,
             Legacy.show_row data (Legacy.selected_of id row) = data.
Proof.
  unfold Legacy.generate_statement.
  destruct (negb client_set); [by intros [= <- <-]|].
  destruct (existsb _ _); [by intros [= <- <-]|].
  destruct (complete _) as [e|statement].
  - by intros [= <- <-].
  - destruct (Legacy.bind_error _ _) as [e|].
    + by intros [= <- <-].
    + intros [= <- <-] Hfilled. eexists. split; [done|].
      intros id data. unfold Legacy.show_row.
      cbn [Legacy.selected_of Legacy.sel_statement Legacy.sel_summary
           Legacy.row_statement Legacy.row_summary].
      by rewrite Hfilled.
Qed.

End history_facts.

Lemma empty_statement_hidden_witness :
  ∃ row, [{| Legacy.row_date := noon; Legacy.row_user := u "sam";
             Legacy.row_conditions := Some (u "Tinnitus");
             Legacy.row_statement := None;
             Legacy.row_summary := None |}] = [] ++ [row]
         ∧ ∀ id data,
             Legacy.show_row data (Legacy.selected_of id row) = data.
Proof.
  apply (empty_statement_hidden sample_encode_error silent true noon [] _ None
           (u "Army") (u "8") (u "Tinnitus") (u "Ringing") (u "Sam Doe")
           (u "123") (u "sam")).
  - by vm_compute.
  - done.
Defined.

(** ** The legacy table parser and the frames of the mappers *)

Lemma split_Forall (P : N → Prop) (sep : N) (s : str) :
  Forall P s → Forall (Forall P) (split sep s).
Proof.
  induction 1 as [|c s Hc _ IH]; [by repeat constructor|].
  cbn [split]. destruct (c =? sep)%N; [by constructor|].
  destruct (split sep s) as [|field fields]; [by repeat constructor|].
  apply Forall_cons in IH as [Hfield Hfields]. by repeat constructor.
Qed.

Lemma split_no_separator (sep : N) (s : str) :
  Forall (Forall (λ c, c ≠ sep)) (split sep s).
Proof.
  induction s as [|c s IH]; [by repeat constructor|].
  cbn [split]. destruct (N.eqb_spec c sep) as [->|Hne]; [by constructor|].
  destruct (split sep s) as [|field fields]; [by repeat constructor|].
  apply Forall_cons in IH as [Hfield Hfields]. by repeat constructor.
Qed.

Lemma Forall_filter_bool {A : Type} (P Q : A → Prop) (f : A → bool)
    (l : list A) :
  (∀ x, P x → f x = true → Q x) → Forall P l → Forall Q (List.filter f l).
Proof.
  intros HPQ. induction 1 as [|x l Hx _ IH]; [constructor|].
  cbn [List.filter]. destruct (f x) eqn:Hf; [|done].
  constructor; [by apply HPQ|done].
Qed.

Lemma cells_clean (line : str) :
  Forall (λ c, c ≠ 10%N) line → Forall clean_cell (Legacy.cells line).
Proof.
  intros Hline. unfold Legacy.cells. apply Forall_fmap.
  apply (Forall_filter_bool
           (λ p, Forall (λ c, c ≠ 124%N) p ∧ Forall (λ c, c ≠ 10%N) p)).
  - intros p [Hbar Hfeed] Hp. apply negb_true_iff, bool_decide_eq_false in Hp.
    split; [done|]. split; [apply strip_idemp|].
    apply strip_Forall. apply Forall_and. by split.
  - apply Forall_and. split; [apply split_no_separator|by apply split_Forall].
Qed.

Lemma parse_line_clean (data : list (list str)) (line : str) :
  Forall (λ c, c ≠ 10%N) line →
  Forall (λ row, length row = 2 ∧ Forall clean_cell row) data →
  Forall (λ row, length row = 2 ∧ Forall clean_cell row)
    (Legacy.parse_line data line).
Proof.
  intros Hline Hdata. unfold Legacy.parse_line.
  destruct (bool_decide (strip line = [])); [done|].
  destruct (contains _ _ && contains _ _); [done|].
  destruct (Legacy.is_separator line); [done|].
  case_bool_decide as Hlen; [|done].
  apply Forall_app. split; [done|]. constructor; [|constructor].
  split; [done|]. by apply cells_clean.
Qed.

Lemma foldl_parse_line_clean (lines : list str) (data : list (list str)) :
  Forall (Forall (λ c, c ≠ 10%N)) lines →
  Forall (λ row, length row = 2 ∧ Forall clean_cell row) data →
  Forall (λ row, length row = 2 ∧ Forall clean_cell row)
    (foldl Legacy.parse_line data lines).
Proof.
  intros Hlines. revert data.
  induction Hlines as [|line lines Hline _ IH]; intros data Hdata; [done|].
  cbn [foldl]. apply IH. by apply parse_line_clean.
Qed.

Lemma parse_table_pairs (content : str) :
  Forall (λ row, length row = 2 ∧ Forall clean_cell row)
    (Legacy.parse_table content).
Proof.
  apply foldl_parse_line_clean; [apply split_no_separator|constructor].
Qed.

(** X26. Every row the table parser returns, whatever the completion, has
    exactly two cells, and each cell is not empty, has no white space left
    to strip at either end, and contains no column marker and no line
    feed. *)
Theorem parse_table_clean_rows (content : str) :
  Forall (λ row, ∃ condition code,
            row = [condition; code] ∧ clean_cell condition ∧ clean_cell code)
    (Legacy.parse_table content).
Proof.
  eapply Forall_impl; [apply parse_table_pairs|].
  intros [|condition [|code [|? ?]]] [Hlen Hcells]; try done.
  exists condition, code.
  apply Forall_cons in Hcells as [? [? _]%Forall_cons]. done.
Qed.

Section mapper_facts.

Variable complete : request → reply.

Lemma table_of_completion_well_formed (unparsed symptoms : str) :
  well_formed (Legacy.table_of_completion complete unparsed symptoms).
Proof.
  unfold Legacy.table_of_completion.
  destruct (complete _) as [e|content]; [by split; [|repeat constructor]|].
  case_bool_decide as Hdata; [by split; [|repeat constructor]|].
  split; [done|]. cbn [Legacy.rows Legacy.columns].
  eapply Forall_impl; [apply parse_table_pairs|]. by intros row [-> _].
Qed.

(** X27. Both mappers always return a frame that has at least one row,
    with one cell per column in every row: a table of conditions and codes,
    or a single cell under the column Message or Error.  An empty table is
    never returned. *)
Theorem mappers_well_formed (client_set : bool) (symptoms : str) :
  well_formed (Legacy.map_symptoms_to_conditions complete client_set symptoms)
  ∧ well_formed (Legacy.map_symptoms complete symptoms).
Proof.
  unfold Legacy.map_symptoms_to_conditions, Legacy.map_symptoms. split.
  - destruct (negb client_set); [by split; [|repeat constructor]|].
    case_bool_decide; [by split; [|repeat constructor]|].
    apply table_of_completion_well_formed.
  - case_bool_decide; [by split; [|repeat constructor]|].
    apply table_of_completion_well_formed.
Qed.

End mapper_facts.

(** ** The default title of a statement *)

Lemma issue_label_entries (labels : list str) :
  Forall (λ l, l ≠ []) labels →
  for_each issue_label (JArr (issue_entry <$> labels)) = Some (JStr <$> labels).
Proof.
  unfold for_each. cbn [iterate mbind option_bind].
  induction 1 as [|l labels Hl _ IH]; [done|].
  rewrite fmap_cons. cbn [mapM].
  replace (issue_label (issue_entry l)) with (Some [JStr l]).
  - cbn [mbind option_bind].
    destruct (mapM issue_label (issue_entry <$> labels)) as [parts|];
      [|done].
    cbn in IH |- *. injection IH as IH. f_equal. f_equal. exact IH.
  - unfold issue_label, issue_entry. cbn [get mbind option_bind].
    rewrite lookup_insert_eq. cbn [default id truthy].
    by rewrite bool_decide_false.
Qed.

Lemma issue_labels_nonempty (issues_text : str) :
  Forall (λ l, l ≠ []) (issue_labels issues_text).
Proof.
  apply Forall_forall. by intros l [Hne _]%list_elem_of_filter.
Qed.

(** X28. Where the title of a new statement comes from once the issues area
    has been read: the conditions linked to the claim win, and the title
    offered is the first three of them joined by a comma and a space; only
    when no condition is linked is it the first three issue labels (the
    stripped non-empty lines of the area) joined the same way, the empty text
    when there is none. *)
Theorem default_title_sources (issues_text : str) (A : gmap str json)
    (names : list json) :
  condition_names A = Some names →
  default_title (set_issues issues_text A)
  = if bool_decide (names = [])
    then Some (join (u ", ") (take 3 (issue_labels issues_text)))
    else join_values (u ", ") (take 3 names).
Proof.
  intros Hnames. unfold default_title.
  replace (condition_names (set_issues issues_text A)) with (Some names).
  2:{ rewrite <- Hnames. unfold condition_names, set_issues, lookup_or.
      by rewrite lookup_insert_ne. }
  cbn [mbind option_bind]. case_bool_decide as Hempty; cbn [negb]; [|done].
  unfold set_issues, lookup_or. rewrite lookup_insert_eq. cbn [default id].
  rewrite new_issues_filter. fold (issue_labels issues_text).
  destruct (issue_labels issues_text) as [|l labels] eqn:Hlabels; [done|].
  replace (truthy (JArr (issue_entry <$> l :: labels))) with true by done.
  cbn [slice_value mbind option_bind]. rewrite <- fmap_take.
  rewrite issue_label_entries.
  - cbn [mbind option_bind]. apply join_values_strings.
  - apply Forall_take. rewrite <- Hlabels. apply issue_labels_nonempty.
Qed.

Lemma default_title_sources_witness :
  default_title (set_issues (u " asthma ") used_workspace)
  = if bool_decide (@nil json = [])
    then Some (join (u ", ") (take 3 (issue_labels (u " asthma "))))
    else join_values (u ", ") (take 3 []).
Proof.
  apply (default_title_sources (u " asthma ") used_workspace []).
  by vm_compute.
Defined.

(** ** A turn of the chat *)

Lemma alternating_app_bounded (n : nat) (chat_history : list chat_message)
    (question answer : chat_message) :
  length chat_history ≤ n →
  alternating chat_history = true →
  alternating (chat_history ++ [question; answer])
  = bool_decide (msg_role question = u "user")
    && bool_decide (msg_role answer = u "assistant").
Proof.
  revert chat_history.
  induction n as [|n IH]; intros [|q [|a rest]] Hlen Halt;
    try done; cbn [length] in Hlen; try lia.
  - cbn [app alternating]. by rewrite andb_true_r.
  - cbn [app alternating]. by rewrite andb_true_r.
  - destruct n as [|n]; [lia|].
    change ((q :: a :: rest) ++ [question; answer])
      with (q :: a :: (rest ++ [question; answer])).
    cbn [alternating] in Halt |- *.
    apply andb_true_iff in Halt as [-> Hrest]. cbn [andb].
    apply IH; [|done]. transitivity (S n); lia.
Qed.

Lemma alternating_even (n : nat) (chat_history : list chat_message) :
  length chat_history ≤ n →
  alternating chat_history = true → Nat.Even (length chat_history).
Proof.
  revert chat_history.
  induction n as [|n IH]; intros [|q [|a rest]] Hlen Halt;
    try done; cbn [length] in Hlen; try lia; try by exists 0.
  destruct n as [|n]; [lia|]. cbn [alternating] in Halt.
  apply andb_true_iff in Halt as [_ Hrest].
  destruct (IH rest) as [k Hk]; [lia|done|].
  exists (S k). cbn [length]. lia.
Qed.

Section chat_turn_facts.

Variable py_repr : json → str.
Variable complete : request → reply.

(** X29. A turn of the chat, on a history made of questions each
    followed by its answer.  Nothing submitted leaves the history as it is and
    shows nothing.  A question is appended to the history; when the context
    can be built one answer follows it, which is what [call_gpt] returns for
    the context and the question (stripped, and empty whenever an error is
    shown), and the history is again made of questions each followed by its
    answer; when building the context raises, the question stays in the
    history without an answer. *)
Theorem chat_turn_alternates (user_msg : option str)
    (chat_history : list chat_message) (A : gmap str json) :
  alternating chat_history = true →
  (user_msg = None ∨ user_msg = Some [] →
   chat_turn py_repr complete user_msg chat_history A
   = (chat_history, Some []))
  ∧ (∀ question, user_msg = Some question → question ≠ [] →
       match build_chat_context py_repr A with
       | Some context =>
           ∃ reply shown,
             call_gpt complete chat_system_prompt
               (chat_user_prompt context question) default_model 35
             = (reply, shown)
             ∧ chat_turn py_repr complete user_msg chat_history A
               = (chat_history
                  ++ [{| msg_role := u "user"; msg_content := question |};
                      {| msg_role := u "assistant"; msg_content := reply |}],
                  Some shown)
             ∧ alternating
                 (chat_history
                  ++ [{| msg_role := u "user"; msg_content := question |};
                      {| msg_role := u "assistant"; msg_content := reply |}])
               = true
             ∧ strip reply = reply
             ∧ (shown ≠ [] → reply = [])
       | None =>
           chat_turn py_repr complete user_msg chat_history A
           = (chat_history
              ++ [{| msg_role := u "user"; msg_content := question |}], None)
           ∧ alternating
               (chat_history
                ++ [{| msg_role := u "user"; msg_content := question |}])
             = false
       end).
Proof.
  intros Halt. split.
  - by intros [->| ->].
  - intros question -> Hasked. unfold chat_turn.
    rewrite (bool_decide_false (question = [])); [|done].
    destruct (build_chat_context py_repr A) as [context|].
    + pose proof (call_gpt_cases complete chat_system_prompt
                    (chat_user_prompt context question) default_model 35)
        as Hcases.
      destruct (call_gpt complete _ _ _ _) as [reply shown].
      exists reply, shown. rewrite <- (assoc_L (++)). cbn [app].
      split; [done|]. split; [done|]. split.
      { by rewrite (alternating_app_bounded (length chat_history)). }
      destruct (complete _) as [e|[content|]]; injection Hcases as -> ->;
        split; try done. apply strip_idemp.
    + split; [done|].
      destruct (alternating (chat_history ++ _)) eqn:Hodd; [|done].
      apply (alternating_even _ _ (le_n _)) in Hodd.
      apply (alternating_even _ _ (le_n _)) in Halt.
      rewrite length_app in Hodd. cbn [length] in Hodd.
      destruct Halt as [j Hj], Hodd as [k Hk]. lia.
Qed.

End chat_turn_facts.

Lemma chat_turn_alternates_witness :
  ∃ reply shown,
    chat_turn sample_repr unreachable (Some (u "What is a nexus letter?")) []
      used_workspace
    = ([] ++ [{| msg_role := u "user";
                 msg_content := u "What is a nexus letter?" |};
              {| msg_role := u "assistant"; msg_content := reply |}],
       Some shown)
    ∧ reply = [] ∧ shown ≠ [].
Proof.
  destruct (chat_turn_alternates sample_repr unreachable
              (Some (u "What is a nexus letter?")) [] used_workspace eq_refl)
    as [_ Hasked].
  specialize (Hasked (u "What is a nexus letter?") eq_refl).
  destruct (build_chat_context sample_repr used_workspace) as [context|]
    eqn:Hcontext; [|by vm_compute in Hcontext].
  destruct Hasked as (reply & shown & Hcall & Hturn & _ & _ & Hempty);
    [by vm_compute|].
  exists reply, shown. split; [done|].
  assert (shown ≠ []) as Hshown; [|by split; [apply Hempty|]].
  intros ->. by vm_compute in Hcall.
Defined.

(** ** From one session to the next *)

Section session_facts.

Variable py_repr : json → str.
Variable json_loads : str → option json.
Variable complete : request → reply.
Variable pdf_pages : list byte → str + list (option str).
Variable docx_paragraphs : list byte → str + list str.
Variable py_eq : json → json → bool.
Variable write_json : json → str + option str * str.





End session_facts.

